(** * AINewsletter: the RSS feed discovery and incremental sync engine

    A shallow embedding of [rss_feed_scorer.py] (with the constants of
    [config.py] and the cursor functions of [db.py]) and the properties
    of its domain extraction, feed discovery, feed parsing,
    deduplication and cron cursor handling.

    Conventions of the embedding:
    - a Python [str] is a [string]; its truth value is [str_truthy];
    - a [dict] used as a map is a [gmap], a [set] is a [gset];
    - a [dict] used as a record (a cache entry, a feed item, a post) is a
      Rocq record whose optional keys are [option] fields;
    - calls that leave the process (HTTP, the clock, the files, the
      database) go through an environment [Env] of oracles and are
      recorded, in order, in the [events] of the [World]. *)
From Stdlib Require Import ZArith Ascii String List Bool Lia.
From stdpp Require Import base option list strings sorting gmap.

Local Open Scope string_scope.
Local Open Scope list_scope.
Local Open Scope Z_scope.

(** ** Python strings *)

(** [bool(s)] for a [str]: only the empty string is false. *)
Definition str_truthy (s : string) : bool :=
  match s with
  | EmptyString => false
  | String _ _ => true
  end.

(** [s.startswith(p)]. *)
Fixpoint startswith (p s : string) : bool :=
  match p, s with
  | EmptyString, _ => true
  | String a p', String b s' => if Ascii.eqb a b then startswith p' s' else false
  | String _ _, EmptyString => false
  end.

(** [needle in hay] for two strings: [needle] starts at some position. *)
Fixpoint str_in (needle hay : string) : bool :=
  startswith needle hay ||
  match hay with
  | EmptyString => false
  | String _ hay' => str_in needle hay'
  end.

(** [any(x in s for x in xs)]. *)
Definition any_in (xs : list string) (s : string) : bool :=
  existsb (fun x => str_in x s) xs.

(** [s.lower()], on the ASCII letters. *)
Definition code (a : ascii) : Z := Z.of_nat (nat_of_ascii a).

Definition is_upper (a : ascii) : bool := (65 <=? code a) && (code a <=? 90).
Definition is_lower (a : ascii) : bool := (97 <=? code a) && (code a <=? 122).
Definition is_digit (a : ascii) : bool := (48 <=? code a) && (code a <=? 57).

Definition lower_char (a : ascii) : ascii :=
  if is_upper a then ascii_of_nat (nat_of_ascii a + 32) else a.

Fixpoint lower (s : string) : string :=
  match s with
  | EmptyString => EmptyString
  | String a s' => String (lower_char a) (lower s')
  end.

(** [c in s] for a character [c]. *)
Fixpoint has_char (c : ascii) (s : string) : bool :=
  match s with
  | EmptyString => false
  | String a s' => Ascii.eqb a c || has_char c s'
  end.

(** [all(p(c) for c in s)]. *)
Fixpoint all_chars (p : ascii → bool) (s : string) : bool :=
  match s with
  | EmptyString => true
  | String a s' => p a && all_chars p s'
  end.

(** [s.partition(c)]: the text before the first [c] and the text after
    it, or [None] when [c] does not occur. *)
Fixpoint partition_at (c : ascii) (s : string) : option (string * string) :=
  match s with
  | EmptyString => None
  | String a s' =>
      if Ascii.eqb a c then Some (EmptyString, s')
      else match partition_at c s' with
           | Some (before, after) => Some (String a before, after)
           | None => None
           end
  end.

(** [s[:n]]. *)
Fixpoint str_take (n : nat) (s : string) : string :=
  match n, s with
  | S n', String a s' => String a (str_take n' s')
  | _, _ => EmptyString
  end.

(** ** config.py *)

Definition RSS_PATTERNS : list string :=
  [ "/feed"; "/rss"; "/atom.xml"; "/feed.xml"; "/rss.xml"; "/feed/"; "/rss/";
    "/blog/feed"; "/blog/rss"; "/blog/feed.xml"; "/blog/rss.xml";
    "/index.xml"; "/feeds/posts/default" ].

Definition EXCLUDED_RSS_DOMAINS : list string := [ "wired.com"; "nytimes.com" ].

Definition MAX_FEED_ITEMS : nat := 50.
Definition DAYS_LOOKBACK : Z := 7.
Definition CRON_FIRST_RUN_DAYS : Z := 1.

(** ** datetime *)

(** Naive [datetime] values are points of the proleptic Gregorian time
    line, counted in microseconds from 0001-01-01T00:00:00; [<] on
    datetimes is [<] on these counts. *)
Definition datetime : Type := Z.

(** [timedelta(days=n)], in microseconds. *)
Definition timedelta_days (n : Z) : Z := n * 86400 * 1000000.

Definition is_leap (y : Z) : bool :=
  (y mod 4 =? 0) && (negb (y mod 100 =? 0) || (y mod 400 =? 0)).

Definition days_in_month (y m : Z) : Z :=
  if (m =? 2) && is_leap y then 29
  else nth (Z.to_nat (m - 1)) [31; 28; 31; 30; 31; 30; 31; 31; 30; 31; 30; 31] 0.

Definition days_before_year (y : Z) : Z :=
  let y' := y - 1 in y' * 365 + y' / 4 - y' / 100 + y' / 400.

Definition days_before_month (y m : Z) : Z :=
  fold_right Z.add 0 (map (days_in_month y) (map Z.of_nat (seq 1 (Z.to_nat (m - 1))))).

(** The proleptic Gregorian ordinal of a date, 0001-01-01 being day 1. *)
Definition ymd2ord (y m d : Z) : Z :=
  days_before_year y + days_before_month y m + d.

(** The [datetime] constructor on the leading fields of a [struct_time]: year,
    month and day are required, hour, minute and second default to 0;
    [None] stands for the [TypeError] or [ValueError] of the
    constructor. *)
Definition datetime_of_fields (args : list Z) : option datetime :=
  match args with
  | y :: m :: d :: rest =>
      let hh := nth 0 rest 0 in
      let mi := nth 1 rest 0 in
      let ss := nth 2 rest 0 in
      if (1 <=? y) && (y <=? 9999) && (1 <=? m) && (m <=? 12)
         && (1 <=? d) && (d <=? days_in_month y m)
         && (0 <=? hh) && (hh <=? 23) && (0 <=? mi) && (mi <=? 59)
         && (0 <=? ss) && (ss <=? 59)
      then Some (((((ymd2ord y m d - 1) * 24 + hh) * 60 + mi) * 60 + ss) * 1000000)
      else None
  | _ => None
  end.

(** ** Data *)

(** The dict built by [parse_feed] for one entry; [item_published] is
    the instant whose ISO text the dict holds, or [None]. *)
Record FeedItem : Type := mkItem {
  item_title : string;
  item_url : string;
  item_summary : string;
  item_published : option datetime;
  item_source : string
}.

(** One value of the feeds cache: a JSON object with the optional keys
    ["feed_url"], ["no_feed"], ["discovered_at"] and ["checked_at"]. *)
Record CacheEntry : Type := mkCacheEntry {
  feed_url : option string;
  no_feed : option bool;
  discovered_at : option datetime;
  checked_at : option datetime
}.

(** One post of the crawl results, and the crawl results themselves;
    a missing key is [None]. *)
Record Post : Type := mkPost {
  post_url : option string;
  outbound_links : option (list string)
}.

Record CrawlData : Type := mkCrawl { posts : option (list Post) }.

(** What [requests.get] hands back. *)
Record Response : Type := mkResponse {
  status_code : Z;
  content_type : option string;
  text : string
}.

(** A tag of a parsed HTML document, with the attributes the discovery
    looks at; [rel] is a multi-valued attribute, held as its tokens. *)
Record Element : Type := mkElement {
  el_name : string;
  el_rel : option (list string);
  el_type : option string;
  el_href : option string
}.

(** One entry of a parsed feed: the attributes [parse_feed] probes with
    [hasattr] and [getattr]; a date is the tuple of a [struct_time]. *)
Record Entry : Type := mkEntry {
  published_parsed : option (list Z);
  updated_parsed : option (list Z);
  created_parsed : option (list Z);
  entry_title : option string;
  entry_link : option string;
  entry_summary : option string;
  entry_description : option string;
  entry_content : option (list (option string))
}.

Record ParsedFeed : Type := mkFeed { bozo : bool; entries : list Entry }.

(** The text of the [value] column of the row ['last_run'] of
    [cron_state]: the ISO text of an instant, or any other text. *)
Inductive StoredText : Type :=
  | IsoText (t : datetime)
  | OtherText (s : string).

(** ** The outside world *)

(** What the process does to its surroundings, in order. Output on the
    terminal is not part of the model. *)
Inductive Event : Type :=
  | EvGet (url : string)
  | EvNow
  | EvCursorRead
  | EvCursorWrite (t : datetime)
  | EvLoadCrawl
  | EvLoadCache
  | EvSaveCache
  | EvUpsert (items : list FeedItem) (week : string).

(** The answers of the surroundings and of the libraries; the network
    and the clock may answer differently as the run proceeds, so they
    see the events so far. [None] is a raised exception. *)
Record Env : Type := mkEnv {
  http_get : list Event → string → option Response;
  clock : list Event → datetime;
  soup : string → list Element;
  get_text : string → string;
  urljoin : string → string → option string;
  feedparser_parse : string → option ParsedFeed;
  bracketed_host_ok : string → bool;
  checknetloc_ok : string → bool;
  week_of : datetime → string
}.

(** The persistent state: the files and the cursor row, with the trace
    of events. A file that is missing or does not parse is [None]. *)
Record World : Type := mkWorld {
  events : list Event;
  cron_state : option StoredText;
  crawl_results_file : option CrawlData;
  feeds_cache_file : option (gmap string CacheEntry)
}.

Definition log (e : Event) (w : World) : World :=
  mkWorld (events w ++ [e]) (cron_state w) (crawl_results_file w)
          (feeds_cache_file w).

(** ** urllib.parse.urlparse(url).netloc *)

Definition is_c0_or_space (a : ascii) : bool := code a <=? 32.

Fixpoint lstrip_c0 (s : string) : string :=
  match s with
  | String a s' => if is_c0_or_space a then lstrip_c0 s' else s
  | EmptyString => EmptyString
  end.

Definition is_unsafe (a : ascii) : bool :=
  (code a =? 9) || (code a =? 10) || (code a =? 13).

Fixpoint remove_unsafe (s : string) : string :=
  match s with
  | String a s' => if is_unsafe a then remove_unsafe s' else String a (remove_unsafe s')
  | EmptyString => EmptyString
  end.

Definition is_scheme_char (a : ascii) : bool :=
  is_upper a || is_lower a || is_digit a || has_char a "+-.".

(** The URL without its scheme, when the text before the first colon is
    a scheme. *)
Definition strip_scheme (url : string) : string :=
  match partition_at ":" url with
  | Some (String a pre, rest) =>
      if (is_upper a || is_lower a) && all_chars is_scheme_char (String a pre)
      then rest else url
  | _ => url
  end.

Definition is_netloc_delim (a : ascii) : bool := has_char a "/?#".

(** [_splitnetloc]: the text up to the first of [/], [?] and [#]. *)
Fixpoint splitnetloc (s : string) : string :=
  match s with
  | String a s' => if is_netloc_delim a then EmptyString else String a (splitnetloc s')
  | EmptyString => EmptyString
  end.

Definition bracketed_host (netloc : string) : string :=
  match partition_at "[" netloc with
  | Some (_, after) =>
      match partition_at "]" after with
      | Some (host, _) => host
      | None => after
      end
  | None => EmptyString
  end.

Definition isascii (s : string) : bool := all_chars (fun a => code a <? 128) s.

Section Model.

Variable E : Env.

(** [None] is the [ValueError] of [urlsplit]. The checks of a
    bracketed host and of the NFKC form of a non-ASCII host are the
    library's, [bracketed_host_ok] and [checknetloc_ok]. *)
Definition urlparse_netloc (url : string) : option string :=
  let url := strip_scheme (remove_unsafe (lstrip_c0 url)) in
  match url with
  | String "/" (String "/" rest) =>
      let netloc := splitnetloc rest in
      let lb := has_char "[" netloc in
      let rb := has_char "]" netloc in
      if xorb lb rb then None
      else if lb && rb && negb (bracketed_host_ok E (bracketed_host netloc)) then None
      else if negb (str_truthy netloc) || isascii netloc || checknetloc_ok E netloc
      then Some netloc else None
  | _ => Some EmptyString
  end.

(** ** extract_domains_from_crawl *)

(** [parsed = urlparse(u); if parsed.netloc: domains.add(parsed.netloc)] *)
Definition add_netloc (u : string) (domains : gset string) : option (gset string) :=
  netloc ← urlparse_netloc u;
  Some (if str_truthy netloc then {[netloc]} ∪ domains else domains).

Fixpoint add_links (links : list string) (domains : gset string)
  : option (gset string) :=
  match links with
  | [] => Some domains
  | link :: links' => domains' ← add_netloc link domains; add_links links' domains'
  end.

Definition add_post (post : Post) (domains : gset string) : option (gset string) :=
  let url := default "" (post_url post) in
  domains' ← (if str_truthy url then add_netloc url domains else Some domains);
  add_links (default [] (outbound_links post)) domains'.

Fixpoint add_posts (ps : list Post) (domains : gset string) : option (gset string) :=
  match ps with
  | [] => Some domains
  | post :: ps' => domains' ← add_post post domains; add_posts ps' domains'
  end.

Definition extract_domains_from_crawl (crawl_data : CrawlData)
  : option (gset string) :=
  add_posts (default [] (posts crawl_data)) ∅.

(** ** The exclusion filter of run_sync *)

Definition builtin_skip_domains : list string :=
  [ "github.com"; "x.com"; "twitter.com"; "youtube.com"; "apps.apple.com";
    "play.google.com"; "linkedin.com"; "facebook.com"; "instagram.com";
    "tiktok.com" ].

(** [{..., *excluded}] *)
Definition skip_domains_of (excluded : list string) : gset string :=
  list_to_set (builtin_skip_domains ++ excluded).

(** [{d for d in domains if not any(skip in d for skip in skip_domains)}] *)
Definition filter_domains (skip_domains domains : gset string) : gset string :=
  filter (λ d, any_in (elements skip_domains) d = false) domains.

(** ** discover_rss_from_html *)

Definition datetime_now (w : World) : datetime * World :=
  (clock E (events w), log EvNow w).

Definition opt_truthy (o : option string) : bool :=
  match o with
  | Some s => str_truthy s
  | None => false
  end.

(** [response.raise_for_status()] raises on a 4xx or 5xx status. *)
Definition raises_for_status (response : Response) : bool :=
  (400 <=? status_code response) && (status_code response <? 600).

Definition link_types : list string :=
  [ "application/rss+xml"; "application/atom+xml"; "application/xml" ].

(** The test of [soup.find("link", {"rel": "alternate", "type": link_type})]
    on one tag. *)
Definition matches_link (link_type : string) (el : Element) : bool :=
  String.eqb (el_name el) "link"
  && match el_rel el with
     | Some tokens => existsb (String.eqb "alternate") tokens
     | None => false
     end
  && match el_type el with
     | Some t => String.eqb t link_type
     | None => false
     end.

(** [soup.find]: the first tag of the document, in document order,
    that passes the test. *)
Definition soup_find (link_type : string) (doc : list Element) : option Element :=
  List.find (matches_link link_type) doc.

(** The loop over the link types, with its [return]. *)
Fixpoint scan_link_types (url : string) (types : list string) (doc : list Element)
  : option string :=
  match types with
  | [] => None
  | link_type :: types' =>
      match soup_find link_type doc with
      | Some link =>
          if opt_truthy (el_href link) then
            let feed_url := default "" (el_href link) in
            if negb (startswith "http" feed_url) then urljoin E url feed_url
            else Some feed_url
          else scan_link_types url types' doc
      | None => scan_link_types url types' doc
      end
  end.

Definition discover_rss_from_html (url : string) (w : World)
  : option string * World :=
  let w1 := log (EvGet url) w in
  match http_get E (events w) url with
  | Some response =>
      if raises_for_status response then (None, w1)
      else (scan_link_types url link_types (soup E (text response)), w1)
  | None => (None, w1)
  end.

(** ** try_rss_patterns *)

(** The test that a response is a feed. *)
Definition looks_like_feed (response : Response) : bool :=
  (status_code response =? 200)
  && (let content_type := lower (default "" (content_type response)) in
      let content_start := lower (str_take 500 (text response)) in
      any_in ["xml"; "rss"; "atom"] content_type
      || any_in ["<rss"; "<feed"; "<atom"; "<?xml"] content_start).

Fixpoint try_patterns (base_url : string) (patterns : list string) (w : World)
  : option string * World :=
  match patterns with
  | [] => (None, w)
  | pattern :: patterns' =>
      let feed_url := base_url +:+ pattern in
      let w1 := log (EvGet feed_url) w in
      match http_get E (events w) feed_url with
      | Some response =>
          if looks_like_feed response then (Some feed_url, w1)
          else try_patterns base_url patterns' w1
      | None => try_patterns base_url patterns' w1
      end
  end.

Fixpoint try_base_urls (base_urls : list string) (w : World)
  : option string * World :=
  match base_urls with
  | [] => (None, w)
  | base_url :: base_urls' =>
      match try_patterns base_url RSS_PATTERNS w with
      | (Some feed_url, w1) => (Some feed_url, w1)
      | (None, w1) => try_base_urls base_urls' w1
      end
  end.

Definition try_rss_patterns (domain : string) (w : World) : option string * World :=
  try_base_urls ["https://" +:+ domain; "https://www." +:+ domain] w.

(** ** discover_rss_feed *)

(** The part after the cache check: the three discovery methods, then
    the cache update. *)
Definition discover_uncached (domain : string) (cache : gmap string CacheEntry)
    (w : World) : option string * gmap string CacheEntry * World :=
  let base_url := "https://" +:+ domain in
  let '(feed_url, w1) := discover_rss_from_html base_url w in
  let '(feed_url, w2) :=
    if negb (opt_truthy feed_url)
    then discover_rss_from_html ("https://www." +:+ domain) w1
    else (feed_url, w1) in
  let '(feed_url, w3) :=
    if negb (opt_truthy feed_url) then try_rss_patterns domain w2
    else (feed_url, w2) in
  let '(now, w4) := datetime_now w3 in
  if opt_truthy feed_url
  then (feed_url, <[domain := mkCacheEntry feed_url None (Some now) None]> cache, w4)
  else (feed_url, <[domain := mkCacheEntry None (Some true) None (Some now)]> cache, w4).

Definition discover_rss_feed (domain : string) (cache : gmap string CacheEntry)
    (w : World) : option string * gmap string CacheEntry * World :=
  match cache !! domain with
  | Some cached =>
      if opt_truthy (feed_url cached) then (feed_url cached, cache, w)
      else if default false (no_feed cached) then (None, cache, w)
      else discover_uncached domain cache w
  | None => discover_uncached domain cache w
  end.

(** ** parse_feed *)

(** The loop over the date fields: the first one that is there, is
    not empty and converts gives the date. *)
Fixpoint first_date (fields : list (option (list Z))) : option datetime :=
  match fields with
  | [] => None
  | Some (x :: t) :: fields' =>
      match datetime_of_fields (take 6 (x :: t)) with
      | Some d => Some d
      | None => first_date fields'
      end
  | _ :: fields' => first_date fields'
  end.

Definition pub_date_of (entry : Entry) : option datetime :=
  first_date [published_parsed entry; updated_parsed entry; created_parsed entry].

(** [pub_date is not None and pub_date < cutoff_date] *)
Definition is_old (cutoff_date : datetime) (pub_date : option datetime) : bool :=
  match pub_date with
  | Some d => d <? cutoff_date
  | None => false
  end.

Definition raw_summary (entry : Entry) : string :=
  match entry_summary entry, entry_description entry, entry_content entry with
  | Some s, _, _ => s
  | None, Some s, _ => s
  | None, None, Some (block :: _) => default "" block
  | None, None, _ => ""
  end.

Definition clean_summary (summary : string) : string :=
  if str_truthy summary then str_take 500 (get_text E summary) else summary.

(** The dict appended for an entry; [None] when [urlparse] raises. *)
Definition make_item (feed_url : string) (entry : Entry) (pub_date : option datetime)
  : option FeedItem :=
  source ← urlparse_netloc feed_url;
  Some (mkItem (default "Untitled" (entry_title entry))
               (default "" (entry_link entry))
               (clean_summary (raw_summary entry))
               pub_date
               source).

(** The loop over the entries; [items] is the list built so far and
    [None] is an exception leaving the loop. *)
Fixpoint parse_entries (feed_url : string) (cutoff_date : datetime)
    (es : list Entry) (items : list FeedItem) : option (list FeedItem) :=
  match es with
  | [] => Some items
  | entry :: es' =>
      let pub_date := pub_date_of entry in
      if is_old cutoff_date pub_date
      then parse_entries feed_url cutoff_date es' items
      else item ← make_item feed_url entry pub_date;
           parse_entries feed_url cutoff_date es' (items ++ [item])
  end.

Definition is_nil {A} (l : list A) : bool :=
  match l with [] => true | _ => false end.

Definition parse_feed (feed_url : string) (cutoff_date : option datetime) (w : World)
  : list FeedItem * World :=
  let w1 := log (EvGet feed_url) w in
  match http_get E (events w) feed_url with
  | None => ([], w1)
  | Some response =>
      if raises_for_status response then ([], w1)
      else match feedparser_parse E (text response) with
           | None => ([], w1)
           | Some feed =>
               if bozo feed && is_nil (entries feed) then ([], w1)
               else
                 let '(cutoff, w2) :=
                   match cutoff_date with
                   | Some c => (c, w1)
                   | None =>
                       let '(now, w') := datetime_now w1 in
                       (now - timedelta_days DAYS_LOOKBACK, w')
                   end in
                 match parse_entries feed_url cutoff
                         (take MAX_FEED_ITEMS (entries feed)) [] with
                 | Some items => (items, w2)
                 | None => ([], w2)
                 end
           end
  end.

(** ** Deduplicator (run_sync, "Deduplicate by URL") *)

(** One turn of the loop: [seen_urls] and [unique_items] are the loop
    state. *)
Definition dedup_step (st : gset string * list FeedItem) (item : FeedItem)
  : gset string * list FeedItem :=
  let '(seen_urls, unique_items) := st in
  let url := item_url item in
  if str_truthy url && bool_decide (url ∉ seen_urls)
  then ({[url]} ∪ seen_urls, unique_items ++ [item])
  else (seen_urls, unique_items).

Definition deduplicate (all_items : list FeedItem) : list FeedItem :=
  snd (fold_left dedup_step all_items (∅, [])).

(** ** db.py: the week, the cursor and the article store *)

Definition get_current_week (w : World) : string * World :=
  let '(now, w1) := datetime_now w in (week_of E now, w1).

(** The row is read; a value that is empty or is not ISO text gives
    [None]. *)
Definition get_last_cron_run (w : World) : option datetime * World :=
  (match cron_state w with
   | Some (IsoText t) => Some t
   | _ => None
   end, log EvCursorRead w).

Definition set_last_cron_run (w : World) : World :=
  let '(now, w1) := datetime_now w in
  let w2 := log (EvCursorWrite now) w1 in
  mkWorld (events w2) (Some (IsoText now)) (crawl_results_file w2)
          (feeds_cache_file w2).

(** The store counts one per item. *)
Definition upsert_articles (items : list FeedItem) (week : string) (w : World)
  : Z * World :=
  let '(_, w1) := datetime_now w in
  (Z.of_nat (length items), log (EvUpsert items week) w1).

(** ** The files *)

(** [None] is [sys.exit(1)]. *)
Definition load_crawl_results (w : World) : option CrawlData * World :=
  (crawl_results_file w, log EvLoadCrawl w).

Definition load_feeds_cache (w : World) : gmap string CacheEntry * World :=
  (default ∅ (feeds_cache_file w), log EvLoadCache w).

Definition save_feeds_cache (cache : gmap string CacheEntry) (w : World) : World :=
  let w1 := log EvSaveCache w in
  mkWorld (events w1) (cron_state w1) (crawl_results_file w1) (Some cache).

(** ** run_sync *)

(** How a call of [run_sync] ends: it returns the count, the process
    exits, or an exception leaves it. *)
Inductive Outcome : Type :=
  | Returned (count : Z)
  | Exited (status : Z)
  | Raised.

(** "Determine cutoff date". *)
Definition compute_cutoff (cron_mode : bool) (w : World) : datetime * World :=
  if cron_mode then
    let '(last_run, w1) := get_last_cron_run w in
    match last_run with
    | Some t => (t, w1)
    | None =>
        let '(now, w2) := datetime_now w1 in
        (now - timedelta_days CRON_FIRST_RUN_DAYS, w2)
    end
  else
    let '(now, w1) := datetime_now w in
    (now - timedelta_days DAYS_LOOKBACK, w1).

(** The discovery loop over the sorted domains; [feed_urls] is the
    dict being filled, in insertion order. *)
Fixpoint discover_all (skip_discovery : bool) (domains : list string)
    (cache : gmap string CacheEntry) (feed_urls : list (string * string))
    (w : World) : gmap string CacheEntry * list (string * string) * World :=
  match domains with
  | [] => (cache, feed_urls, w)
  | domain :: domains' =>
      if skip_discovery && bool_decide (cache !! domain = None)
      then discover_all skip_discovery domains' cache feed_urls w
      else
        let '(feed_url, cache1, w1) := discover_rss_feed domain cache w in
        if opt_truthy feed_url
        then discover_all skip_discovery domains' cache1
               (feed_urls ++ [(domain, default "" feed_url)]) w1
        else discover_all skip_discovery domains' cache1 feed_urls w1
  end.

(** The parsing loop over [feed_urls.items()]. *)
Fixpoint parse_all (cutoff_date : datetime) (feed_urls : list (string * string))
    (all_items : list FeedItem) (w : World) : list FeedItem * World :=
  match feed_urls with
  | [] => (all_items, w)
  | (domain, feed_url) :: feed_urls' =>
      let '(items, w1) := parse_feed feed_url (Some cutoff_date) w in
      parse_all cutoff_date feed_urls' (all_items ++ items) w1
  end.

(** [set(list(domains)[:limit_domains])]; the order in which a Python
    set is listed is not fixed, [elements] is one such order. *)
Definition limit_to (limit_domains : Z) (domains : gset string) : gset string :=
  if 0 <? limit_domains
  then list_to_set (take (Z.to_nat limit_domains) (elements domains))
  else domains.

Definition run_sync (cron_mode skip_discovery : bool) (limit_domains : Z)
    (verbose : bool) (w : World) : Outcome * World :=
  let '(week, w) := get_current_week w in
  let '(cutoff_date, w) := compute_cutoff cron_mode w in
  match load_crawl_results w with
  | (None, w) => (Exited 1, w)
  | (Some crawl_data, w) =>
      match extract_domains_from_crawl crawl_data with
      | None => (Raised, w)
      | Some domains =>
          let domains :=
            filter_domains (skip_domains_of EXCLUDED_RSS_DOMAINS) domains in
          let domains := limit_to limit_domains domains in
          let '(cache, w) := load_feeds_cache w in
          let '(cache, feed_urls, w) :=
            discover_all skip_discovery (merge_sort String.le (elements domains))
                         cache [] w in
          let w := save_feeds_cache cache w in
          if is_nil feed_urls then (Returned 0, w)
          else
            let '(all_items, w) := parse_all cutoff_date feed_urls [] w in
            let unique_items := deduplicate all_items in
            if is_nil unique_items then
              let w := if cron_mode then set_last_cron_run w else w in
              (Returned 0, w)
            else
              let '(count, w) := upsert_articles unique_items week w in
              let w := if cron_mode then set_last_cron_run w else w in
              (Returned count, w)
      end
  end.

End Model.

(** ** db.py: the article store *)

(** A row of the table [articles] and a row of the table [curation];
    a column that is [NULL] is [None], a time is the instant whose ISO
    text the column holds. The tables are the lists of their rows. *)
Record ArticleRow : Type := mkArticle {
  art_id : string;
  art_url : option string;
  art_title : option string;
  art_summary : option string;
  art_source : option string;
  art_published : option datetime;
  art_topic : option string;
  art_fetched_at : option datetime;
  art_week : option string
}.

Record CurationRow : Type := mkCuration {
  cur_article_id : string;
  cur_status : option string;
  cur_user_notes : option string;
  cur_curated_at : option datetime;
  cur_archived : option Z;
  cur_archived_at : option datetime;
  cur_top_pick : option Z
}.

Record Database : Type := mkDb {
  articles : list ArticleRow;
  curation : list CurationRow
}.

(** [s.strip()] and [s[n:]], on ASCII text: the white space is tab to
    carriage return, the four separators and the blank. *)
Definition is_space (a : ascii) : bool :=
  ((9 <=? code a) && (code a <=? 13)) || ((28 <=? code a) && (code a <=? 32)).

Fixpoint lstrip (s : string) : string :=
  match s with
  | String a s' => if is_space a then lstrip s' else s
  | EmptyString => EmptyString
  end.

Fixpoint rstrip (s : string) : string :=
  match s with
  | String a s' =>
      match rstrip s' with
      | EmptyString => if is_space a then EmptyString else String a EmptyString
      | r => String a r
      end
  | EmptyString => EmptyString
  end.

Definition strip (s : string) : string := rstrip (lstrip s).

Fixpoint str_drop (n : nat) (s : string) : string :=
  match n, s with
  | S n', String _ s' => str_drop n' s'
  | _, _ => s
  end.

(** [s.split("/")[0]]. *)
Definition first_segment (s : string) : string :=
  match partition_at "/" s with
  | Some (before, _) => before
  | None => s
  end.

(** [UPDATE t SET ... WHERE ...]: the rows after the statement and its
    [rowcount]. *)
Definition sql_update {Row} (where_ : Row → bool) (set : Row → Row)
    (rows : list Row) : list Row * nat :=
  (map (λ r, if where_ r then set r else r) rows,
   length (List.filter where_ rows)).

(** [DELETE FROM t WHERE ...]. *)
Definition sql_delete {Row} (where_ : Row → bool) (rows : list Row)
  : list Row * nat :=
  (List.filter (λ r, negb (where_ r)) rows, length (List.filter where_ rows)).

(** [archived = 0 OR archived IS NULL] *)
Definition is_current (r : CurationRow) : bool :=
  match cur_archived r with
  | Some a => a =? 0
  | None => true
  end.

(** [status = ?] *)
Definition has_status (status : string) (r : CurationRow) : bool :=
  match cur_status r with
  | Some s => String.eqb s status
  | None => false
  end.

Definition valid_status (status : string) : bool :=
  existsb (String.eqb status) ["pending"; "shortlisted"; "rejected"].

Section Store.

Variable E : Env.

(** [None] is the [ValueError] of [urlparse]; the argument [None] is
    Python's [None]. *)
Definition _normalize_host (value : option string) : option string :=
  let text := lower (strip (default "" value)) in
  if negb (str_truthy text) then Some ""
  else
    host ← (if startswith "http://" text || startswith "https://" text
            then lower <$> urlparse_netloc E text
            else Some (lower (strip (first_segment text))));
    Some (if startswith "www." host then str_drop 4 host else host).

Fixpoint add_hosts (candidates : list (option string)) (hosts : gset string)
  : option (gset string) :=
  match candidates with
  | [] => Some hosts
  | candidate :: candidates' =>
      host ← _normalize_host candidate;
      add_hosts candidates' (if str_truthy host then {[host]} ∪ hosts else hosts)
  end.

Definition _subscription_match_hosts (domain feed_url : option string)
  : option (gset string) :=
  add_hosts [domain; feed_url] ∅.

(** The loop over the rows of [SELECT id, url, source FROM articles]. *)
Fixpoint match_rows (hosts : gset string) (rows : list ArticleRow)
    (matched_ids : list string) : option (list string) :=
  match rows with
  | [] => Some matched_ids
  | row :: rows' =>
      source_host ← _normalize_host (Some (default "" (art_source row)));
      url_host ← _normalize_host (Some (default "" (art_url row)));
      match_rows hosts rows'
        (if bool_decide (source_host ∈ hosts) || bool_decide (url_host ∈ hosts)
         then matched_ids ++ [art_id row] else matched_ids)
  end.

Definition _get_matching_article_ids_for_subscription
    (domain feed_url : option string) (db : Database) : option (list string) :=
  hosts ← _subscription_match_hosts domain feed_url;
  if bool_decide (hosts = ∅) then Some []
  else match_rows hosts (articles db) [].

Definition get_subscription_article_count
    (domain feed_url : option string) (db : Database) : option nat :=
  length <$> _get_matching_article_ids_for_subscription domain feed_url db.

(** The count is the [rowcount] of the second statement, the one on
    [articles]. *)
Definition delete_articles_for_subscription
    (domain feed_url : option string) (db : Database) : option (nat * Database) :=
  article_ids ← _get_matching_article_ids_for_subscription domain feed_url db;
  if is_nil article_ids then Some (0%nat, db)
  else
    let '(curation', _) :=
      sql_delete (λ r, bool_decide (cur_article_id r ∈ article_ids)) (curation db) in
    let '(articles', deleted_count) :=
      sql_delete (λ r, bool_decide (art_id r ∈ article_ids)) (articles db) in
    Some (deleted_count, mkDb articles' curation').

(** *** Curation state *)

Definition set_article_status (article_id status : string) (notes : option string)
    (db : Database) (w : World) : bool * Database * World :=
  if negb (valid_status status) then (false, db, w)
  else
    let '(curated_at, w1) := datetime_now E w in
    let clear_top_pick := negb (String.eqb status "shortlisted") in
    let set (r : CurationRow) :=
      mkCuration (cur_article_id r) (Some status)
        (match notes with Some n => Some n | None => cur_user_notes r end)
        (Some curated_at) (cur_archived r) (cur_archived_at r)
        (if clear_top_pick then Some 0 else cur_top_pick r) in
    let '(rows, rowcount) :=
      sql_update (λ r, String.eqb (cur_article_id r) article_id) set (curation db) in
    (bool_decide (0 < rowcount)%nat, mkDb (articles db) rows, w1).

Definition update_article_notes (article_id notes : string)
    (db : Database) (w : World) : bool * Database * World :=
  let '(curated_at, w1) := datetime_now E w in
  let set (r : CurationRow) :=
    mkCuration (cur_article_id r) (cur_status r) (Some notes) (Some curated_at)
      (cur_archived r) (cur_archived_at r) (cur_top_pick r) in
  let '(rows, rowcount) :=
    sql_update (λ r, String.eqb (cur_article_id r) article_id) set (curation db) in
  (bool_decide (0 < rowcount)%nat, mkDb (articles db) rows, w1).

Definition set_top_pick (article_id : string) (top_pick : bool) (db : Database)
  : bool * Database :=
  match List.find (λ r, String.eqb (cur_article_id r) article_id) (curation db) with
  | None => (false, db)
  | Some row =>
      if top_pick && negb (has_status "shortlisted" row) then (false, db)
      else
        let set (r : CurationRow) :=
          mkCuration (cur_article_id r) (cur_status r) (cur_user_notes r)
            (cur_curated_at r) (cur_archived r) (cur_archived_at r)
            (Some (if top_pick then 1 else 0)) in
        let '(rows, rowcount) :=
          sql_update (λ r, String.eqb (cur_article_id r) article_id) set
            (curation db) in
        (bool_decide (0 < rowcount)%nat, mkDb (articles db) rows)
  end.

Definition archive_row (archived_at : datetime) (r : CurationRow) : CurationRow :=
  mkCuration (cur_article_id r) (cur_status r) (cur_user_notes r)
    (cur_curated_at r) (Some 1) (Some archived_at) (cur_top_pick r).

Definition archive_all_current (db : Database) (w : World)
  : nat * Database * World :=
  let '(archived_at, w1) := datetime_now E w in
  let '(rows, count) := sql_update is_current (archive_row archived_at) (curation db) in
  (count, mkDb (articles db) rows, w1).

Definition archive_current_by_status (status : string) (db : Database) (w : World)
  : nat * Database * World :=
  if negb (valid_status status) then (0%nat, db, w)
  else
    let '(archived_at, w1) := datetime_now E w in
    let '(rows, count) :=
      sql_update (λ r, is_current r && has_status status r)
        (archive_row archived_at) (curation db) in
    (count, mkDb (articles db) rows, w1).

Definition unarchive_article (article_id : string) (db : Database)
  : bool * Database :=
  let set (r : CurationRow) :=
    mkCuration (cur_article_id r) (cur_status r) (cur_user_notes r)
      (cur_curated_at r) (Some 0) None (cur_top_pick r) in
  let '(rows, rowcount) :=
    sql_update (λ r, String.eqb (cur_article_id r) article_id) set (curation db) in
  (bool_decide (0 < rowcount)%nat, mkDb (articles db) rows).

End Store.

(** *** The statements of [upsert_articles] on the tables *)

Module Db.
Section Upsert.

Variable E : Env.

(** [generate_article_id], the first 16 hexadecimal digits of the
    SHA-256 of the URL. *)
Variable generate_article_id : string → string.

(** [INSERT INTO articles ... VALUES new ON CONFLICT(id) DO UPDATE SET
    title, summary, topic, fetched_at]. A row with the same id takes
    these four columns of the new row; with no such row, a row with the
    same URL breaks [url TEXT UNIQUE] and the statement raises
    ([None]); otherwise the new row is added. *)
Definition upsert_row (new : ArticleRow) (rows : list ArticleRow)
  : option (list ArticleRow) :=
  if existsb (λ r, String.eqb (art_id r) (art_id new)) rows then
    Some (map (λ r, if String.eqb (art_id r) (art_id new)
                    then mkArticle (art_id r) (art_url r)
                           (art_title new) (art_summary new)
                           (art_source r) (art_published r) (art_topic new)
                           (art_fetched_at new) (art_week r)
                    else r) rows)
  else if match art_url new with
          | Some url => existsb (λ r, bool_decide (art_url r = Some url)) rows
          | None => false
          end
  then None
  else Some (rows ++ [new]).

(** The statement of [upsert_articles], with the values it takes from
    the item; an item has no topic. *)
Definition upsert_article_row (article_id : string) (item : FeedItem)
    (fetched_at : datetime) (week : string) (rows : list ArticleRow)
  : option (list ArticleRow) :=
  upsert_row (mkArticle article_id (Some (item_url item))
                (Some (item_title item)) (Some (item_summary item))
                (Some (item_source item)) (item_published item)
                (Some "") (Some fetched_at) (Some week)) rows.

(** [INSERT OR IGNORE INTO curation (article_id, status, curated_at)
    VALUES (?, 'pending', ?)], the other columns taking their
    defaults. *)
Definition insert_or_ignore_curation (article_id : string) (fetched_at : datetime)
    (rows : list CurationRow) : list CurationRow :=
  if existsb (λ r, String.eqb (cur_article_id r) article_id) rows then rows
  else rows ++ [mkCuration article_id (Some "pending") None (Some fetched_at)
                  (Some 0) None (Some 0)].

(** The loop over the items. *)
Fixpoint upsert_loop (items : list FeedItem) (fetched_at : datetime)
    (week : string) (db : Database) (count : nat) : option (nat * Database) :=
  match items with
  | [] => Some (count, db)
  | item :: items' =>
      let article_id := generate_article_id (item_url item) in
      rows ← upsert_article_row article_id item fetched_at week (articles db);
      upsert_loop items' fetched_at week
        (mkDb rows (insert_or_ignore_curation article_id fetched_at (curation db)))
        (S count)
  end.

(** [None] is an exception: nothing is committed. *)
Definition upsert_articles (items : list FeedItem) (week : option string)
    (db : Database) (w : World) : option (nat * Database * World) :=
  let '(week, w1) :=
    match week with
    | Some week => (week, w)
    | None => get_current_week E w
    end in
  let '(fetched_at, w2) := datetime_now E w1 in
  match upsert_loop items fetched_at week db 0 with
  | Some (count, db') => Some (count, db', log (EvUpsert items week) w2)
  | None => None
  end.

(** [INSERT INTO curation (article_id, status, user_notes, curated_at)
    ... ON CONFLICT(article_id) DO UPDATE SET status, user_notes,
    curated_at]. *)
Definition upsert_curation (article_id status notes : string)
    (curated_at : datetime) (rows : list CurationRow) : list CurationRow :=
  if existsb (λ r, String.eqb (cur_article_id r) article_id) rows then
    map (λ r, if String.eqb (cur_article_id r) article_id
              then mkCuration (cur_article_id r) (Some status) (Some notes)
                     (Some curated_at) (cur_archived r) (cur_archived_at r)
                     (cur_top_pick r)
              else r) rows
  else rows ++ [mkCuration article_id (Some status) (Some notes)
                  (Some curated_at) (Some 0) None (Some 0)].

(** [None] is an exception, of [urlparse] or of the store. *)
Definition add_manual_article (url title summary topic notes : string)
    (week : option string) (auto_shortlist : bool) (db : Database) (w : World)
  : option (string * Database * World) :=
  let '(week, w1) :=
    match week with
    | Some week => (week, w)
    | None => get_current_week E w
    end in
  source ← urlparse_netloc E url;
  let article_id := generate_article_id url in
  let '(fetched_at, w2) := datetime_now E w1 in
  let '(published, w3) := datetime_now E w2 in
  rows ← upsert_row (mkArticle article_id (Some url) (Some title) (Some summary)
                       (Some source) (Some published) (Some topic)
                       (Some fetched_at) (Some week)) (articles db);
  let status := if auto_shortlist then "shortlisted" else "pending" in
  Some (article_id,
        mkDb rows (upsert_curation article_id status notes fetched_at (curation db)),
        w3).

End Upsert.
End Db.

(** ** Vocabulary of the statements *)

(** [s] occurs in [d]: some text before it and some text after it make
    up [d]. *)
Definition occurs_in (s d : string) : Prop :=
  ∃ pre post : string, d = pre +:+ s +:+ post.

(** What the deduplication loop maintains: every emitted item has a
    non-empty URL that is recorded as seen. *)
Definition dedup_inv (st : gset string * list FeedItem) : Prop :=
  ∀ it, it ∈ st.2 → item_url it ≠ "" ∧ item_url it ∈ st.1.

(** The URLs of a crawl result that the extractor looks at. *)
Definition post_urls (post : Post) : list string :=
  default "" (post_url post) :: default [] (outbound_links post).

Definition crawl_urls (crawl_data : CrawlData) : list string :=
  flat_map post_urls (default [] (posts crawl_data)).

(** A normalized host in the words of the data model: lowercase, no
    scheme, no path, no leading [www.]. *)
Definition normalized_host (d : string) : Prop :=
  lower d = d ∧ str_in "://" d = false ∧ has_char "/" d = false
  ∧ startswith "www." d = false.

(** The reading of "the first match, in document order": the earliest
    tag of the document that is an alternate link of any of the three
    media types. *)
Definition is_feed_link (el : Element) : bool :=
  existsb (fun link_type => matches_link link_type el) link_types.

Definition first_feed_link_in_document (doc : list Element) : option Element :=
  List.find is_feed_link doc.

(** The value returned for the [href] of the chosen link. *)
Definition resolve_href (E : Env) (url href : string) : option string :=
  if startswith "http" href then Some href else urljoin E url href.

(** [soup.find] for that media type gives no link, or a link without a
    usable [href]. *)
Definition unusable (link_type : string) (doc : list Element) : Prop :=
  match soup_find link_type doc with
  | Some link => opt_truthy (el_href link) = false
  | None => True
  end.

(** The entries of a feed that pass the cutoff, in feed order. *)
Definition kept_entries (cutoff_date : datetime) (es : list Entry) : list Entry :=
  List.filter (λ e, negb (is_old cutoff_date (pub_date_of e))) es.

(** The two variants of a cache entry, as [discover_rss_feed] tells
    them apart: a non-empty ["feed_url"], or no usable ["feed_url"] and
    a true ["no_feed"]. *)
Definition is_resolved (e : CacheEntry) : Prop :=
  opt_truthy (feed_url e) = true.

Definition is_no_feed (e : CacheEntry) : Prop :=
  opt_truthy (feed_url e) = false ∧ no_feed e = Some true.

(** The events on the cursor row. *)
Definition is_cursor_event (e : Event) : bool :=
  match e with
  | EvCursorRead | EvCursorWrite _ => true
  | _ => false
  end.

(** From [w] to [w'] the cursor row was neither read nor written. *)
Definition cursor_untouched (w w' : World) : Prop :=
  cron_state w' = cron_state w
  ∧ ∃ evs, events w' = events w ++ evs
           ∧ forallb (λ e, negb (is_cursor_event e)) evs = true.

(** The deduplication loop as a function of the URLs seen so far and
    of the items still to come. *)
Fixpoint dedup_from (seen : gset string) (items : list FeedItem) : list FeedItem :=
  match items with
  | [] => []
  | item :: items' =>
      if str_truthy (item_url item) && bool_decide (item_url item ∉ seen)
      then item :: dedup_from ({[item_url item]} ∪ seen) items'
      else dedup_from seen items'
  end.

(** The feed URLs probed for a domain, in probing order: every pattern
    on the bare host, then every pattern on the [www.] host. *)
Definition candidates_of (base_url : string) (patterns : list string) : list string :=
  map (λ pattern, base_url +:+ pattern) patterns.

Definition feed_candidates (domain : string) : list string :=
  candidates_of ("https://" +:+ domain) RSS_PATTERNS
  ++ candidates_of ("https://www." +:+ domain) RSS_PATTERNS.

(** The probe of [u], made after the events [evs], is not accepted: the
    request raises or the response does not look like a feed. *)
Definition probe_rejected (E : Env) (evs : list Event) (u : string) : Prop :=
  match http_get E evs u with
  | Some r => looks_like_feed r = false
  | None => True
  end.

(** The probes of [us], made one after the other from the events
    [evs] on, are all rejected. *)
Fixpoint all_rejected (E : Env) (evs : list Event) (us : list string) : Prop :=
  match us with
  | [] => True
  | u :: us' => probe_rejected E evs u ∧ all_rejected E (evs ++ [EvGet u]) us'
  end.

(** Kinds of events. *)
Definition is_get (e : Event) : bool :=
  match e with EvGet _ => true | _ => false end.

Definition is_get_or_now (e : Event) : bool :=
  match e with EvGet _ | EvNow => true | _ => false end.

Definition is_now_or_cursor_read (e : Event) : bool :=
  match e with EvNow | EvCursorRead => true | _ => false end.

Definition is_commit_event (e : Event) : bool :=
  match e with EvNow | EvUpsert _ _ | EvCursorWrite _ => true | _ => false end.

Definition is_startup_event (e : Event) : bool :=
  match e with EvNow | EvCursorRead | EvLoadCrawl => true | _ => false end.

(** From [w] to [w'] nothing happened but events that pass [P]: the
    cursor row and the two files are as they were. *)
Definition only_logs (P : Event → bool) (w w' : World) : Prop :=
  (∃ evs, events w' = events w ++ evs ∧ forallb P evs = true)
  ∧ cron_state w' = cron_state w
  ∧ crawl_results_file w' = crawl_results_file w
  ∧ feeds_cache_file w' = feeds_cache_file w.

(** An article row is matched by the hosts of a subscription: the host
    of its source or the host of its URL is one of them. *)
Definition row_matches (E : Env) (hosts : gset string) (row : ArticleRow) : bool :=
  match _normalize_host E (Some (default "" (art_source row))),
        _normalize_host E (Some (default "" (art_url row))) with
  | Some source_host, Some url_host =>
      bool_decide (source_host ∈ hosts) || bool_decide (url_host ∈ hosts)
  | _, _ => false
  end.

(** A column that is [NULL], empty or white space only. *)
Definition is_blank (o : option string) : Prop := strip (default "" o) = "".

(** The primary key of [articles], and the foreign key of [curation]. *)
Definition article_ids_unique (db : Database) : Prop :=
  NoDup (map art_id (articles db)).

Definition curation_has_articles (db : Database) : Prop :=
  ∀ r, r ∈ curation db → cur_article_id r ∈ map art_id (articles db).

(** The flag [top_pick] of a curation row is set. *)
Definition is_top_pick (r : CurationRow) : bool :=
  match cur_top_pick r with
  | Some t => negb (t =? 0)
  | None => false
  end.

(** What the curation functions keep of the table [curation]: one row
    per article, and a top pick is a shortlisted article. *)
Definition top_pick_ok (r : CurationRow) : Prop :=
  is_top_pick r = true → cur_status r = Some "shortlisted".

Definition curation_ok (db : Database) : Prop :=
  NoDup (map cur_article_id (curation db)) ∧ Forall top_pick_ok (curation db).

(** Two rows for the same article: the columns an upsert never
    overwrites are equal. *)
Definition same_article (r r' : ArticleRow) : Prop :=
  art_id r' = art_id r ∧ art_url r' = art_url r ∧ art_source r' = art_source r
  ∧ art_published r' = art_published r ∧ art_week r' = art_week r.

(** A curation row as [INSERT OR IGNORE] creates it. *)
Definition fresh_pending (r : CurationRow) : Prop :=
  cur_status r = Some "pending" ∧ cur_user_notes r = None
  ∧ cur_archived r = Some 0 ∧ cur_archived_at r = None
  ∧ cur_top_pick r = Some 0.

(** From [db] to [db'] the store only grew: curation rows were added at
    the end, every article is still there, and the keys are in order
    when they were. *)
Definition grows (db db' : Database) : Prop :=
  (∃ new, curation db' = curation db ++ new ∧ Forall fresh_pending new)
  ∧ (∀ r, r ∈ articles db → ∃ r', r' ∈ articles db' ∧ same_article r r')
  ∧ (article_ids_unique db → article_ids_unique db')
  ∧ (curation_ok db → curation_ok db')
  ∧ (curation_has_articles db → curation_has_articles db').

(** ** Inputs of the examples *)

(** No host answers; the clock starts on 2025-01-10T00:00:00 and moves
    by a microsecond per event. *)
Definition offline_env : Env :=
  mkEnv (fun _ _ => None)
        (fun evs => 63872064000000000 + Z.of_nat (length evs))
        (fun _ => [])
        (fun s => s)
        (fun base rel => Some (base +:+ rel))
        (fun _ => None)
        (fun _ => true)
        (fun _ => true)
        (fun _ => "2025-W02").

Definition untitled_item : FeedItem :=
  mkItem "Untitled" "" "" None "a.example".

Definition article_x : FeedItem :=
  mkItem "X" "https://a.example/x" "" None "a.example".

Definition crawl_www : CrawlData :=
  mkCrawl (Some [mkPost (Some "https://www.Example.com/post") None]).

Definition atom_link : Element :=
  mkElement "link" (Some ["alternate"]) (Some "application/atom+xml")
            (Some "https://blog.example/atom.xml").

Definition rss_link : Element :=
  mkElement "link" (Some ["alternate"]) (Some "application/rss+xml")
            (Some "/rss.xml").

Definition blog_page : string :=
  "<link rel='alternate' type='application/atom+xml' href='https://blog.example/atom.xml'>"
  +:+ "<link rel='alternate' type='application/rss+xml' href='/rss.xml'>".

(** The entries of the example feed: one from the day before the
    cutoff 2025-01-10T00:00:00, one a second after it, one undated. *)
Definition entry_day_before : Entry :=
  mkEntry (Some [2025; 1; 9; 23; 59; 59; 3; 9; 0]) None None
          (Some "Old") (Some "https://blog.example/old") None None None.

Definition entry_second_after : Entry :=
  mkEntry None (Some [2025; 1; 10; 0; 0; 1; 4; 10; 0]) None
          (Some "New") (Some "https://blog.example/new") None None None.

Definition entry_undated : Entry :=
  mkEntry None None None None (Some "https://blog.example/undated") None None None.

Definition blog_feed : ParsedFeed :=
  mkFeed false [entry_day_before; entry_second_after; entry_undated].

(** A site [blog.example] whose home page declares an Atom link and
    then an RSS link, and whose RSS feed has the three entries. *)
Definition blog_env : Env :=
  mkEnv (fun _ url =>
           if String.eqb url "https://blog.example"
           then Some (mkResponse 200 (Some "text/html") blog_page)
           else if String.eqb url "https://blog.example/rss.xml"
           then Some (mkResponse 200 (Some "application/rss+xml") "<rss>")
           else None)
        (fun evs => 63872064000000000 + Z.of_nat (length evs))
        (fun page => if String.eqb page blog_page then [atom_link; rss_link] else [])
        (fun s => s)
        (fun base rel => Some (base +:+ rel))
        (fun body => if String.eqb body "<rss>" then Some blog_feed else None)
        (fun _ => true)
        (fun _ => true)
        (fun _ => "2025-W02").

Definition fresh_world : World := mkWorld [] None None None.

(** A crawl result naming two sites, and a world whose cursor row
    holds 2025-01-09T00:00:00. *)
Definition crawl_two_sites : CrawlData :=
  mkCrawl (Some [mkPost (Some "https://a.example/post")
                        (Some ["https://b.example/page"])]).

Definition outage_world : World :=
  mkWorld [] (Some (IsoText 63871977600000000)) (Some crawl_two_sites) None.

(** A store with an article of [blog.example], an article of another
    site and an article without source and URL, each with its curation
    row. *)
Definition blog_article : ArticleRow :=
  mkArticle "id-blog" (Some "https://www.Blog.example/new") (Some "New") None
            (Some "blog.example") None None None (Some "2025-W02").

Definition other_article : ArticleRow :=
  mkArticle "id-other" (Some "https://other.example/a") (Some "A") None
            (Some "other.example") None None None (Some "2025-W02").

Definition blank_article : ArticleRow :=
  mkArticle "id-blank" None (Some "No link") None None None None None
            (Some "2025-W02").

Definition pending_row (article_id : string) : CurationRow :=
  mkCuration article_id (Some "pending") None None (Some 0) None (Some 0).

Definition small_db : Database :=
  mkDb [blog_article; other_article; blank_article]
       [pending_row "id-blog"; pending_row "id-other"; pending_row "id-blank"].

(** * Properties *)

(** ** Strings *)

Lemma str_truthy_spec s : str_truthy s = true ↔ s ≠ "".
Proof. destruct s; simpl; split; intros; congruence. Qed.

Lemma startswith_spec p s : startswith p s = true ↔ ∃ post, s = p +:+ post.
Proof.
  revert s. induction p as [|a p IH]; intros s; simpl.
  - split; [intros _; by exists s|done].
  - destruct s as [|b s].
    + split; [done|]. intros [post Hpost]. discriminate.
    + destruct (Ascii.eqb_spec a b) as [->|Hne].
      * rewrite IH. split; intros [post Hpost]; exists post.
        -- by rewrite Hpost.
        -- by injection Hpost.
      * split; [done|]. intros [post Hpost]. injection Hpost as Hab _.
        by destruct Hne.
Qed.

Lemma str_in_spec s d : str_in s d = true ↔ occurs_in s d.
Proof.
  unfold occurs_in. induction d as [|b d IH].
  - simpl. rewrite orb_false_r, startswith_spec. split.
    + intros [post Hpost]. by exists "", post.
    + intros [pre [post Hd]]. destruct pre; [by exists post|discriminate].
  - cbn [str_in]. rewrite orb_true_iff, IH, startswith_spec. split.
    + intros [[post Hpost]|[pre [post Hd]]].
      * by exists "", post.
      * exists (String b pre), post. simpl. by rewrite Hd.
    + intros [pre [post Hd]]. destruct pre as [|c pre].
      * left. by exists post.
      * right. simpl in Hd. injection Hd as _ Hd. by exists pre, post.
Qed.

Lemma any_in_spec xs d : any_in xs d = true ↔ ∃ s, s ∈ xs ∧ occurs_in s d.
Proof.
  unfold any_in. rewrite existsb_exists. split.
  - intros [s [Hs Hin]]. exists s. by rewrite list_elem_of_In, <- str_in_spec.
  - intros [s [Hs Hin]]. exists s. by rewrite <- list_elem_of_In, str_in_spec.
Qed.

(** ** Deduplicator *)

Lemma dedup_step_inv st item : dedup_inv st → dedup_inv (dedup_step st item).
Proof.
  destruct st as [seen uniq]. unfold dedup_inv, dedup_step. simpl.
  intros Hinv.
  destruct (str_truthy (item_url item)) eqn:Ht; simpl; [|exact Hinv].
  case_bool_decide; simpl; [|exact Hinv].
  intros it Hit. apply elem_of_app in Hit as [Hit|Hit].
  - destruct (Hinv it Hit) as [Hne Hseen]. split; [exact Hne|].
    apply elem_of_union. by right.
  - apply list_elem_of_singleton in Hit as ->.
    split; [by apply str_truthy_spec|].
    apply elem_of_union. left. by apply elem_of_singleton.
Qed.

Lemma dedup_fold_inv items st :
  dedup_inv st → dedup_inv (fold_left dedup_step items st).
Proof.
  revert st. induction items as [|x xs IH]; intros st Hst; simpl; [done|].
  apply IH, dedup_step_inv, Hst.
Qed.

(** C1, as the code has it: the truth test [if url and ...] keeps an
    item only when its URL is non-empty, so for every input sequence no
    empty-URL item reaches the deduplicated output. *)
Theorem dedup_drops_empty_urls (all_items : list FeedItem) (it : FeedItem) :
  it ∈ deduplicate all_items → item_url it ≠ "".
Proof.
  intros Hit. unfold deduplicate in Hit.
  assert (Hinv : dedup_inv (fold_left dedup_step all_items (∅, []))).
  { apply dedup_fold_inv. intros x Hx. simpl in Hx. by apply elem_of_nil in Hx. }
  by destruct (Hinv it Hit).
Qed.

Lemma dedup_drops_empty_urls_witness :
  article_x ∈ deduplicate [untitled_item; article_x; untitled_item]
  ∧ item_url article_x ≠ "".
Proof.
  assert (H : article_x ∈ deduplicate [untitled_item; article_x; untitled_item]).
  { vm_compute. apply list_elem_of_here. }
  split; [exact H|].
  exact (dedup_drops_empty_urls _ _ H).
Defined.

(** C1 read as "every empty-URL item is emitted" is false: an
    empty-URL item of the input is absent from the output. *)
Lemma dedup_empty_url_not_kept :
  ¬ (∀ (all_items : list FeedItem) (it : FeedItem),
       it ∈ all_items → item_url it = "" → it ∈ deduplicate all_items).
Proof.
  intros H.
  specialize (H [untitled_item] untitled_item (list_elem_of_here _ _) eq_refl).
  vm_compute in H. by apply elem_of_nil in H.
Qed.

(** ** The exclusion filter *)

(** C10: a domain of the extracted set is removed by the filter exactly
    when some entry of the skip set, a built-in host or a configured
    one, occurs in it as a substring. *)
Theorem filter_domains_by_substring
    (excluded : list string) (domains : gset string) (d : string) :
  d ∈ domains →
  (d ∉ filter_domains (skip_domains_of excluded) domains
   ↔ ∃ s, (s ∈ builtin_skip_domains ∨ s ∈ excluded) ∧ occurs_in s d).
Proof.
  intros Hd. unfold filter_domains. rewrite elem_of_filter.
  rewrite <- not_true_iff_false, any_in_spec.
  assert (Hskip : ∀ s, s ∈ elements (skip_domains_of excluded)
                       ↔ s ∈ builtin_skip_domains ∨ s ∈ excluded).
  { intros s. unfold skip_domains_of.
    by rewrite elem_of_elements, elem_of_list_to_set, elem_of_app. }
  split.
  - intros Hnot.
    destruct (decide (any_in (elements (skip_domains_of excluded)) d = true))
      as [Hany|Hany].
    + apply any_in_spec in Hany as [s [Hs Hocc]]. exists s.
      by rewrite <- Hskip.
    + exfalso. apply Hnot. split; [|exact Hd].
      intros [s [Hs Hocc]]. apply Hany, any_in_spec. by exists s.
  - intros [s [Hs Hocc]] [Hnone _]. apply Hnone. exists s. by rewrite Hskip.
Qed.

Lemma filter_domains_by_substring_witness :
  "github.com.mirror.example" ∉
    filter_domains (skip_domains_of EXCLUDED_RSS_DOMAINS)
                   {[ "github.com.mirror.example"; "blog.example" ]}.
Proof.
  apply (filter_domains_by_substring EXCLUDED_RSS_DOMAINS
           {[ "github.com.mirror.example"; "blog.example" ]}
           "github.com.mirror.example").
  - apply elem_of_union. left. by apply elem_of_singleton.
  - exists "github.com". split.
    + left. apply list_elem_of_here.
    + by exists "", ".mirror.example".
Defined.

(** ** Domain extractor *)

Lemma has_char_append c a b :
  has_char c (a +:+ b) = has_char c a || has_char c b.
Proof.
  induction a as [|x a IH]; simpl; [done|]. by rewrite IH, orb_assoc.
Qed.

Lemma no_slash_no_scheme d : has_char "/" d = false → str_in "://" d = false.
Proof.
  intros Hd. apply not_true_iff_false. intros Hin.
  apply str_in_spec in Hin as [pre [post ->]].
  rewrite !has_char_append in Hd. simpl in Hd.
  by rewrite orb_true_r in Hd.
Qed.

Lemma splitnetloc_no_delim c s :
  is_netloc_delim c = true → has_char c (splitnetloc s) = false.
Proof.
  intros Hc. induction s as [|a s IH]; simpl; [done|].
  destruct (is_netloc_delim a) eqn:Ha; simpl; [done|].
  rewrite IH, orb_false_r. apply Ascii.eqb_neq. intros ->. congruence.
Qed.

Section Extractor.

Variable E : Env.

Lemma urlparse_netloc_no_delim u d c :
  urlparse_netloc E u = Some d → is_netloc_delim c = true → has_char c d = false.
Proof.
  unfold urlparse_netloc. intros Hu Hc.
  assert (Hdone : Some "" = Some d → has_char c d = false)
    by (intros [= <-]; done).
  destruct (strip_scheme (remove_unsafe (lstrip_c0 u))) as [|a s1];
    [by apply Hdone|].
  destruct (Ascii.eqb_spec a "/") as [->|Ha].
  - destruct s1 as [|b rest]; [by apply Hdone|].
    destruct (Ascii.eqb_spec b "/") as [->|Hb].
    + repeat match type of Hu with
             | (if ?x then _ else _) = _ => destruct x; try discriminate
             end;
      injection Hu as <-; by apply splitnetloc_no_delim.
    + destruct b as [[] [] [] [] [] [] [] []]; try (by apply Hdone); by destruct Hb.
  - destruct a as [[] [] [] [] [] [] [] []]; try (by apply Hdone); by destruct Ha.
Qed.

Lemma urlparse_netloc_empty : urlparse_netloc E "" = Some "".
Proof. reflexivity. Qed.

Lemma add_netloc_spec u ds ds' :
  add_netloc E u ds = Some ds' →
  ∀ d, d ∈ ds' ↔ d ∈ ds ∨ (d ≠ "" ∧ urlparse_netloc E u = Some d).
Proof.
  unfold add_netloc. destruct (urlparse_netloc E u) as [n|]; simpl; [|done].
  intros [= <-] d. destruct (str_truthy n) eqn:Hn.
  - apply str_truthy_spec in Hn. rewrite elem_of_union, elem_of_singleton.
    split.
    + intros [->|Hd]; [right; done|by left].
    + intros [Hd|[_ [= ->]]]; [by right|by left].
  - split; [by left|]. intros [Hd|[Hne [= ->]]]; [done|].
    apply str_truthy_spec in Hne. congruence.
Qed.

Lemma add_links_spec links ds ds' :
  add_links E links ds = Some ds' →
  ∀ d, d ∈ ds' ↔
       d ∈ ds ∨ (d ≠ "" ∧ ∃ u, u ∈ links ∧ urlparse_netloc E u = Some d).
Proof.
  revert ds. induction links as [|l links IH]; intros ds; simpl.
  - intros [= <-] d. split; [by left|].
    intros [Hd|[_ [u [Hu _]]]]; [done|]. by apply elem_of_nil in Hu.
  - destruct (add_netloc E l ds) as [ds1|] eqn:H1; simpl; [|done].
    intros H2 d. rewrite (IH _ H2 d), (add_netloc_spec _ _ _ H1 d). split.
    + intros [[Hd|[Hne Hl]]|[Hne [u [Hu Hn]]]].
      * by left.
      * right. split; [done|]. exists l. split; [apply list_elem_of_here|done].
      * right. split; [done|]. exists u.
        split; [by apply list_elem_of_further|done].
    + intros [Hd|[Hne [u [Hu Hn]]]]; [by left; left|].
      apply elem_of_cons in Hu as [->|Hu].
      * left; right. done.
      * right. split; [done|]. by exists u.
Qed.

Lemma add_post_spec post ds ds' :
  add_post E post ds = Some ds' →
  ∀ d, d ∈ ds' ↔
       d ∈ ds ∨ (d ≠ "" ∧ ∃ u, u ∈ post_urls post ∧ urlparse_netloc E u = Some d).
Proof.
  unfold add_post, post_urls.
  set (url := default "" (post_url post)).
  set (links := default [] (outbound_links post)).
  intros H d.
  assert (Hfirst : ∃ ds1,
    add_links E links ds1 = Some ds' ∧
    ∀ d, d ∈ ds1 ↔ d ∈ ds ∨ (d ≠ "" ∧ urlparse_netloc E url = Some d)).
  { destruct (str_truthy url) eqn:Hurl.
    - destruct (add_netloc E url ds) as [ds1|] eqn:H1; simpl in H; [|done].
      exists ds1. split; [done|]. by apply add_netloc_spec.
    - simpl in H. exists ds. split; [done|]. intros d0. split; [by left|].
      intros [Hd|[Hne Hn]]; [done|].
      destruct url; [|discriminate].
      rewrite urlparse_netloc_empty in Hn. by injection Hn as <-. }
  destruct Hfirst as [ds1 [Hlinks Hds1]].
  rewrite (add_links_spec _ _ _ Hlinks d), Hds1. split.
  - intros [[Hd|[Hne Hn]]|[Hne [u [Hu Hn]]]].
    + by left.
    + right. split; [done|]. exists url. split; [apply list_elem_of_here|done].
    + right. split; [done|]. exists u.
      split; [by apply list_elem_of_further|done].
  - intros [Hd|[Hne [u [Hu Hn]]]]; [by left; left|].
    apply elem_of_cons in Hu as [->|Hu].
    + left; right. done.
    + right. split; [done|]. by exists u.
Qed.

Lemma add_posts_spec ps ds ds' :
  add_posts E ps ds = Some ds' →
  ∀ d, d ∈ ds' ↔
       d ∈ ds ∨ (d ≠ "" ∧ ∃ u, u ∈ flat_map post_urls ps
                                ∧ urlparse_netloc E u = Some d).
Proof.
  revert ds. induction ps as [|post ps IH]; intros ds; simpl.
  - intros [= <-] d. split; [by left|].
    intros [Hd|[_ [u [Hu _]]]]; [done|]. by apply elem_of_nil in Hu.
  - destruct (add_post E post ds) as [ds1|] eqn:H1; simpl; [|done].
    change (default "" (post_url post) :: default [] (outbound_links post)
              ++ flat_map post_urls ps)
      with (post_urls post ++ flat_map post_urls ps).
    intros H2 d. rewrite (IH _ H2 d), (add_post_spec _ _ _ H1 d). split.
    + intros [[Hd|[Hne [u [Hu Hn]]]]|[Hne [u [Hu Hn]]]].
      * by left.
      * right. split; [done|]. exists u. split; [|done].
        apply elem_of_app. by left.
      * right. split; [done|]. exists u. split; [|done].
        apply elem_of_app. by right.
    + intros [Hd|[Hne [u [Hu Hn]]]]; [by left; left|].
      apply elem_of_app in Hu as [Hu|Hu].
      * left; right. split; [done|]. by exists u.
      * right. split; [done|]. by exists u.
Qed.

(** The extracted set is exactly the set of the non-empty netlocs of
    the URLs of the crawl result. *)
Lemma extract_domains_spec crawl_data ds :
  extract_domains_from_crawl E crawl_data = Some ds →
  ∀ d, d ∈ ds ↔
       d ≠ "" ∧ ∃ u, u ∈ crawl_urls crawl_data ∧ urlparse_netloc E u = Some d.
Proof.
  unfold extract_domains_from_crawl, crawl_urls. intros H d.
  rewrite (add_posts_spec _ _ _ H d). split.
  - intros [Hd|Hd]; [by apply not_elem_of_empty in Hd|done].
  - intros Hd. by right.
Qed.

End Extractor.

(** C4, as the code has it: every domain produced is the non-empty
    netloc of a post URL or of an outbound link, as [urlparse] gives
    it, so it carries no scheme and no path, query or fragment; the
    letters keep their case and a leading [www.] stays. Equal netloc
    texts are one element of the set. *)
Theorem extracted_domains_are_netlocs
    (E : Env) (crawl_data : CrawlData) (ds : gset string) (d : string) :
  extract_domains_from_crawl E crawl_data = Some ds →
  d ∈ ds →
  (∃ u, u ∈ crawl_urls crawl_data ∧ urlparse_netloc E u = Some d)
  ∧ d ≠ ""
  ∧ str_in "://" d = false
  ∧ has_char "/" d = false ∧ has_char "?" d = false ∧ has_char "#" d = false
  ∧ NoDup (elements ds).
Proof.
  intros Hext Hd.
  apply (extract_domains_spec E _ _ Hext) in Hd as [Hne [u [Hu Hn]]].
  assert (Hslash : has_char "/" d = false)
    by (by apply (urlparse_netloc_no_delim E u d "/")).
  repeat split; try done.
  - by exists u.
  - by apply no_slash_no_scheme.
  - by apply (urlparse_netloc_no_delim E u d "?").
  - by apply (urlparse_netloc_no_delim E u d "#").
  - apply NoDup_elements.
Qed.

Lemma extracted_domains_are_netlocs_witness :
  ∃ ds, extract_domains_from_crawl offline_env crawl_www = Some ds
        ∧ "www.Example.com" ∈ ds
        ∧ has_char "/" "www.Example.com" = false.
Proof.
  exists {[ "www.Example.com" ]}.
  assert (Hext : extract_domains_from_crawl offline_env crawl_www
                 = Some {[ "www.Example.com" ]}) by (vm_compute; reflexivity).
  assert (Hd : "www.Example.com" ∈ ({[ "www.Example.com" ]} : gset string))
    by (by apply elem_of_singleton).
  split; [exact Hext|]. split; [exact Hd|].
  exact (proj1 (proj2 (proj2 (proj2
    (extracted_domains_are_netlocs offline_env crawl_www _ _ Hext Hd))))).
Defined.

(** C4 with a normalized host is false: the host of
    [https://www.Example.com/post] is produced with its capital letter
    and its [www.] prefix. *)
Lemma extracted_domain_not_normalized :
  ¬ (∀ (E : Env) (crawl_data : CrawlData) (ds : gset string) (d : string),
       extract_domains_from_crawl E crawl_data = Some ds →
       d ∈ ds → normalized_host d).
Proof.
  intros H.
  assert (Hext : extract_domains_from_crawl offline_env crawl_www
                 = Some {[ "www.Example.com" ]}) by (vm_compute; reflexivity).
  assert (Hd : "www.Example.com" ∈ ({[ "www.Example.com" ]} : gset string))
    by (by apply elem_of_singleton).
  destruct (H offline_env crawl_www _ _ Hext Hd) as [Hlower _].
  vm_compute in Hlower. discriminate.
Qed.

(** ** HTML link discovery *)

(** [List.find] stops at the first element, in list order, that passes
    the test. *)
Lemma find_first {A} (f : A → bool) (l : list A) (x : A) :
  List.find f l = Some x →
  ∃ pre post, l = pre ++ x :: post ∧ f x = true ∧ Forall (λ e, f e = false) pre.
Proof.
  induction l as [|a l IH]; simpl; [done|].
  destruct (f a) eqn:Ha.
  - intros [= ->]. by exists [], l.
  - intros Hx. destruct (IH Hx) as [pre [post [-> [Hfx Hpre]]]].
    exists (a :: pre), post. split; [done|]. split; [done|].
    by constructor.
Qed.

Lemma scan_link_types_skip E url l1 types doc :
  (∀ ty, ty ∈ l1 → unusable ty doc) →
  scan_link_types E url (l1 ++ types) doc = scan_link_types E url types doc.
Proof.
  induction l1 as [|ty l1 IH]; intros Hl1; simpl; [done|].
  assert (Hty : unusable ty doc) by (apply Hl1, list_elem_of_here).
  assert (Hrest : ∀ ty', ty' ∈ l1 → unusable ty' doc)
    by (intros ty' Hin; by apply Hl1, list_elem_of_further).
  unfold unusable in Hty. destruct (soup_find ty doc) as [link|].
  - rewrite Hty. by apply IH.
  - by apply IH.
Qed.

(** C3, as the code has it: the media types are tried in the order
    RSS, Atom, XML; for each, only the first alternate link of that
    type in document order is looked at. The link returned is that
    first link of the first type for which it has a non-empty [href],
    whatever links of the later types come before it in the document;
    an [href] that does not start with [http] is joined to the page
    URL. *)
Theorem discover_html_first_of_preferred_type
    (E : Env) (url : string) (w : World) (r : Response)
    (l1 l2 : list string) (ty : string) (link : Element) (href : string) :
  http_get E (events w) url = Some r →
  raises_for_status r = false →
  link_types = l1 ++ ty :: l2 →
  (∀ ty', ty' ∈ l1 → unusable ty' (soup E (text r))) →
  soup_find ty (soup E (text r)) = Some link →
  el_href link = Some href →
  href ≠ "" →
  fst (discover_rss_from_html E url w) = resolve_href E url href
  ∧ ∃ pre post, soup E (text r) = pre ++ link :: post
                ∧ matches_link ty link = true
                ∧ Forall (λ e, matches_link ty e = false) pre.
Proof.
  intros Hget Hok Htypes Hl1 Hfind Hhref Hne. split.
  - unfold discover_rss_from_html. rewrite Hget, Hok. cbn [fst].
    rewrite Htypes, (scan_link_types_skip _ _ _ _ _ Hl1).
    cbn [scan_link_types]. rewrite Hfind, Hhref. cbn [opt_truthy default from_option id].
    apply str_truthy_spec in Hne. rewrite Hne. unfold resolve_href.
    destruct (startswith "http" href); reflexivity.
  - by apply find_first.
Qed.

Lemma discover_html_first_of_preferred_type_witness :
  fst (discover_rss_from_html blog_env "https://blog.example" fresh_world)
  = Some "https://blog.example/rss.xml".
Proof.
  refine (proj1 (discover_html_first_of_preferred_type blog_env
            "https://blog.example" fresh_world
            (mkResponse 200 (Some "text/html") blog_page)
            [] ["application/atom+xml"; "application/xml"]
            "application/rss+xml" rss_link "/rss.xml" _ _ _ _ _ _ _)).
  - reflexivity.
  - reflexivity.
  - reflexivity.
  - intros ty' Hin. by apply elem_of_nil in Hin.
  - reflexivity.
  - reflexivity.
  - discriminate.
Defined.

(** C3 with plain document order is false: on a page whose first feed link
    in document order is an Atom link and whose second is an RSS link,
    the RSS link is returned. *)
Lemma discover_html_not_document_order :
  ¬ (∀ (E : Env) (url : string) (w : World) (r : Response)
       (link : Element) (href : string),
       http_get E (events w) url = Some r →
       raises_for_status r = false →
       first_feed_link_in_document (soup E (text r)) = Some link →
       el_href link = Some href →
       fst (discover_rss_from_html E url w) = resolve_href E url href).
Proof.
  intros H.
  specialize (H blog_env "https://blog.example" fresh_world
                (mkResponse 200 (Some "text/html") blog_page)
                atom_link "https://blog.example/atom.xml"
                eq_refl eq_refl eq_refl eq_refl).
  vm_compute in H. discriminate.
Qed.

(** ** Feed fetcher and parser *)

Section Parser.

Variable E : Env.

(** The loop appends, in feed order, the item of every entry that is
    not older than the cutoff. *)
Lemma parse_entries_spec feed_url src cutoff_date es items :
  urlparse_netloc E feed_url = Some src →
  ∃ new,
    parse_entries E feed_url cutoff_date es items = Some (items ++ new)
    ∧ map Some new
      = map (λ e, make_item E feed_url e (pub_date_of e))
            (kept_entries cutoff_date es).
Proof.
  intros Hsrc. revert items.
  induction es as [|e es IH]; intros items; cbn [parse_entries kept_entries List.filter].
  - exists []. by rewrite app_nil_r.
  - destruct (is_old cutoff_date (pub_date_of e)) eqn:Hold; cbn [negb].
    + apply IH.
    + unfold make_item at 1. rewrite Hsrc. cbn [mbind option_bind].
      destruct (IH (items ++
        [mkItem (default "Untitled" (entry_title e)) (default "" (entry_link e))
                (clean_summary E (raw_summary e)) (pub_date_of e) src]))
        as [new [Hrun Hnew]].
      eexists (_ :: new). rewrite Hrun, <- app_assoc. split; [reflexivity|].
      cbn [map]. f_equal; [|exact Hnew].
      unfold make_item. by rewrite Hsrc.
Qed.

Lemma kept_entries_elem cutoff_date es e :
  e ∈ kept_entries cutoff_date es
  ↔ e ∈ es ∧ is_old cutoff_date (pub_date_of e) = false.
Proof.
  unfold kept_entries. rewrite !list_elem_of_In, filter_In, negb_true_iff.
  reflexivity.
Qed.

End Parser.

(** C5: of a feed that was fetched and parsed, the output holds, in the
    order of the feed, the items of exactly those of the first
    [MAX_FEED_ITEMS] entries that pass the cutoff; an entry without a
    resolvable date passes, an entry dated strictly before the cutoff
    does not, an entry dated at the cutoff or later passes. *)
Theorem parse_feed_inclusion_rule
    (E : Env) (feed_url : string) (cutoff_date : datetime) (w : World)
    (r : Response) (feed : ParsedFeed) (src : string) :
  http_get E (events w) feed_url = Some r →
  raises_for_status r = false →
  feedparser_parse E (text r) = Some feed →
  urlparse_netloc E feed_url = Some src →
  let first_entries := take MAX_FEED_ITEMS (entries feed) in
  map Some (fst (parse_feed E feed_url (Some cutoff_date) w))
  = map (λ e, make_item E feed_url e (pub_date_of e))
        (kept_entries cutoff_date first_entries)
  ∧ ∀ e, e ∈ first_entries →
      (pub_date_of e = None → e ∈ kept_entries cutoff_date first_entries)
      ∧ (∀ d, pub_date_of e = Some d → d < cutoff_date →
              e ∉ kept_entries cutoff_date first_entries)
      ∧ (∀ d, pub_date_of e = Some d → cutoff_date ≤ d →
              e ∈ kept_entries cutoff_date first_entries).
Proof.
  intros Hget Hok Hparse Hsrc first_entries. split.
  - unfold parse_feed. rewrite Hget, Hok, Hparse.
    destruct (bozo feed && is_nil (entries feed)) eqn:Hbozo.
    + apply andb_true_iff in Hbozo as [_ Hnil].
      subst first_entries. destruct (entries feed); [|discriminate].
      reflexivity.
    + destruct (parse_entries_spec E feed_url src cutoff_date first_entries []
                  Hsrc) as [new [Hrun Hnew]].
      fold first_entries. rewrite Hrun. exact Hnew.
  - intros e He. repeat split.
    + intros Hnone. apply kept_entries_elem. split; [done|].
      by rewrite Hnone.
    + intros d Hd Hlt Hin. apply kept_entries_elem in Hin as [_ Hold].
      rewrite Hd in Hold. cbn [is_old] in Hold. lia.
    + intros d Hd Hle. apply kept_entries_elem. split; [done|].
      rewrite Hd. cbn [is_old]. lia.
Qed.

Lemma parse_feed_inclusion_rule_witness :
  map Some (fst (parse_feed blog_env "https://blog.example/rss.xml"
                            (Some 63872064000000000) fresh_world))
  = map (λ e, make_item blog_env "https://blog.example/rss.xml" e (pub_date_of e))
        [entry_second_after; entry_undated].
Proof.
  exact (proj1 (parse_feed_inclusion_rule blog_env
    "https://blog.example/rss.xml" 63872064000000000 fresh_world
    (mkResponse 200 (Some "application/rss+xml") "<rss>") blog_feed
    "blog.example" eq_refl eq_refl eq_refl eq_refl)).
Defined.

(** The cutoff example of the testable properties, run on the model. *)
Example cutoff_filtering_example :
  fst (parse_feed blog_env "https://blog.example/rss.xml"
                  (Some 63872064000000000) fresh_world)
  = [ mkItem "New" "https://blog.example/new" "" (Some 63872064001000000)
             "blog.example";
      mkItem "Untitled" "https://blog.example/undated" "" None "blog.example" ].
Proof. vm_compute. reflexivity. Qed.

(** C8: [parse_feed] always returns a list. When the request raises or
    answers with an error status, when the parser raises, when the
    parsed feed is flagged malformed and has no entry, and when an
    exception leaves the loop over the entries, the list is empty; and
    the loop of [run_sync] over the feeds goes on with the next feed,
    the items collected so far being kept. *)
Theorem parse_feed_failure_yields_nothing
    (E : Env) (feed_url : string) (cutoff_date : option datetime) (w : World) :
  (http_get E (events w) feed_url = None →
   parse_feed E feed_url cutoff_date w = ([], log (EvGet feed_url) w))
  ∧ (∀ r, http_get E (events w) feed_url = Some r →
          raises_for_status r = true →
          parse_feed E feed_url cutoff_date w = ([], log (EvGet feed_url) w))
  ∧ (∀ r, http_get E (events w) feed_url = Some r →
          feedparser_parse E (text r) = None →
          parse_feed E feed_url cutoff_date w = ([], log (EvGet feed_url) w))
  ∧ (∀ r feed, http_get E (events w) feed_url = Some r →
          feedparser_parse E (text r) = Some feed →
          bozo feed = true → entries feed = [] →
          parse_feed E feed_url cutoff_date w = ([], log (EvGet feed_url) w))
  ∧ (∀ r feed cutoff, http_get E (events w) feed_url = Some r →
          feedparser_parse E (text r) = Some feed →
          cutoff_date = Some cutoff →
          parse_entries E feed_url cutoff
            (take MAX_FEED_ITEMS (entries feed)) [] = None →
          fst (parse_feed E feed_url cutoff_date w) = [])
  ∧ (∀ cutoff domain feed_urls all_items,
          fst (parse_feed E feed_url (Some cutoff) w) = [] →
          parse_all E cutoff ((domain, feed_url) :: feed_urls) all_items w
          = parse_all E cutoff feed_urls all_items
              (snd (parse_feed E feed_url (Some cutoff) w))).
Proof.
  repeat split.
  - intros Hget. unfold parse_feed. by rewrite Hget.
  - intros r Hget Herr. unfold parse_feed. by rewrite Hget, Herr.
  - intros r Hget Hparse. unfold parse_feed. rewrite Hget, Hparse.
    by destruct (raises_for_status r).
  - intros r feed Hget Hparse Hbozo Hnil. unfold parse_feed.
    rewrite Hget, Hparse, Hbozo, Hnil. by destruct (raises_for_status r).
  - intros r feed cutoff Hget Hparse -> Hloop. unfold parse_feed.
    rewrite Hget, Hparse, Hloop.
    destruct (raises_for_status r); [done|].
    by destruct (bozo feed && is_nil (entries feed)).
  - intros cutoff domain feed_urls all_items Hnil. cbn [parse_all].
    destruct (parse_feed E feed_url (Some cutoff) w) as [items w1].
    cbn [fst snd] in *. subst items. by rewrite app_nil_r.
Qed.

Lemma parse_feed_failure_yields_nothing_witness :
  parse_feed offline_env "https://blog.example/rss.xml" None fresh_world
  = ([], log (EvGet "https://blog.example/rss.xml") fresh_world).
Proof.
  apply (proj1 (parse_feed_failure_yields_nothing offline_env
                  "https://blog.example/rss.xml" None fresh_world)).
  reflexivity.
Defined.

(** ** Feed discovery and its cache *)

Section Discovery.

Variable E : Env.

(** Off the cache, the call ends by writing the entry of its domain,
    of one of the two variants. *)
Lemma discover_uncached_cache domain cache w :
  ∃ e, (discover_uncached E domain cache w).1.2 = <[domain := e]> cache
       ∧ (is_resolved e ∨ is_no_feed e).
Proof.
  unfold discover_uncached.
  destruct (discover_rss_from_html E ("https://" +:+ domain) w) as [f1 w1].
  destruct (if negb (opt_truthy f1)
            then discover_rss_from_html E ("https://www." +:+ domain) w1
            else (f1, w1)) as [f2 w2].
  destruct (if negb (opt_truthy f2) then try_rss_patterns E domain w2
            else (f2, w2)) as [f3 w3].
  destruct (datetime_now E w3) as [now w4].
  destruct (opt_truthy f3) eqn:Hf3; eexists; (split; [reflexivity|]).
  - by left.
  - right. by split.
Qed.

End Discovery.

(** C6: on a cache entry of the NoFeed variant the call returns none,
    and on an entry with a non-empty feed URL it returns that URL; in
    both cases the cache and the world, with its trace of requests,
    come back as they went in. *)
Theorem discover_cache_hit
    (E : Env) (domain : string) (cache : gmap string CacheEntry) (w : World)
    (cached : CacheEntry) :
  cache !! domain = Some cached →
  (is_no_feed cached → discover_rss_feed E domain cache w = (None, cache, w))
  ∧ (∀ u, feed_url cached = Some u → u ≠ "" →
          discover_rss_feed E domain cache w = (Some u, cache, w)).
Proof.
  intros Hlook. unfold discover_rss_feed. rewrite Hlook. split.
  - intros [Hurl Hno]. by rewrite Hurl, Hno.
  - intros u Hu Hne. rewrite Hu. cbn [opt_truthy].
    apply str_truthy_spec in Hne. by rewrite Hne.
Qed.

Lemma discover_cache_hit_witness :
  discover_rss_feed blog_env "dead.example"
    {[ "dead.example" := mkCacheEntry None (Some true) None (Some 63871977600000000) ]}
    fresh_world
  = (None,
     {[ "dead.example" := mkCacheEntry None (Some true) None (Some 63871977600000000) ]},
     fresh_world).
Proof.
  apply (proj1 (discover_cache_hit blog_env "dead.example"
    {[ "dead.example" := mkCacheEntry None (Some true) None (Some 63871977600000000) ]}
    fresh_world
    (mkCacheEntry None (Some true) None (Some 63871977600000000))
    (lookup_singleton_eq _ _))).
  by split.
Defined.

(** C9: a call on [d] leaves the entry of every other domain as it
    was, and after the call [d] has an entry, Resolved or NoFeed. *)
Theorem discover_touches_only_its_domain
    (E : Env) (cache : gmap string CacheEntry) (d d' : string) (w : World) :
  (d ≠ d' → (discover_rss_feed E d cache w).1.2 !! d' = cache !! d')
  ∧ ∃ e, (discover_rss_feed E d cache w).1.2 !! d = Some e
         ∧ (is_resolved e ∨ is_no_feed e).
Proof.
  destruct (discover_uncached_cache E d cache w) as [e [Hc He]].
  assert (Hmiss : (d ≠ d' → (discover_uncached E d cache w).1.2 !! d' = cache !! d')
                  ∧ ∃ e, (discover_uncached E d cache w).1.2 !! d = Some e
                         ∧ (is_resolved e ∨ is_no_feed e)).
  { rewrite Hc. split.
    - intros Hne. by apply lookup_insert_ne.
    - exists e. split; [apply lookup_insert_eq|exact He]. }
  unfold discover_rss_feed.
  destruct (cache !! d) as [cached|] eqn:Hlook; [|exact Hmiss].
  destruct (opt_truthy (feed_url cached)) eqn:Hurl.
  - split; [done|]. exists cached. split; [done|by left].
  - destruct (no_feed cached) as [[|]|] eqn:Hno; cbn [default from_option id];
      try exact Hmiss.
    split; [done|]. exists cached. split; [done|]. right. by split.
Qed.

Lemma discover_touches_only_its_domain_witness :
  (discover_rss_feed blog_env "blog.example"
     {[ "dead.example" := mkCacheEntry None (Some true) None None ]}
     fresh_world).1.2 !! "dead.example"
  = Some (mkCacheEntry None (Some true) None None).
Proof.
  rewrite (proj1 (discover_touches_only_its_domain blog_env
    {[ "dead.example" := mkCacheEntry None (Some true) None None ]}
    "blog.example" "dead.example" fresh_world)).
  - apply lookup_singleton_eq.
  - discriminate.
Defined.

(** ** The cursor *)

Lemma cursor_untouched_refl w : cursor_untouched w w.
Proof. split; [done|]. exists []. by rewrite app_nil_r. Qed.

Lemma cursor_untouched_trans w1 w2 w3 :
  cursor_untouched w1 w2 → cursor_untouched w2 w3 → cursor_untouched w1 w3.
Proof.
  intros [Hs1 [evs1 [He1 Hf1]]] [Hs2 [evs2 [He2 Hf2]]]. split; [congruence|].
  exists (evs1 ++ evs2). rewrite He2, He1, <- app_assoc. split; [done|].
  by rewrite forallb_app, Hf1, Hf2.
Qed.

Lemma cursor_untouched_log e w :
  is_cursor_event e = false → cursor_untouched w (log e w).
Proof.
  intros He. split; [done|]. exists [e]. split; [done|].
  simpl. by rewrite He.
Qed.

Create HintDb cursor.

#[local] Hint Resolve cursor_untouched_refl cursor_untouched_log : cursor.

(** Chains the steps of a sequence of operations. *)
Ltac cursor_step H := eapply cursor_untouched_trans; [apply H|].

Section Cursor.

Variable E : Env.

Lemma datetime_now_cursor w : cursor_untouched w (datetime_now E w).2.
Proof. by apply cursor_untouched_log. Qed.

Lemma discover_rss_from_html_cursor url w :
  cursor_untouched w (discover_rss_from_html E url w).2.
Proof.
  unfold discover_rss_from_html.
  destruct (http_get E (events w) url) as [r|];
    [destruct (raises_for_status r)|]; by apply cursor_untouched_log.
Qed.

Lemma try_patterns_cursor base_url patterns w :
  cursor_untouched w (try_patterns E base_url patterns w).2.
Proof.
  revert w. induction patterns as [|p ps IH]; intros w; cbn [try_patterns].
  - auto with cursor.
  - assert (Hlog : cursor_untouched w (log (EvGet (base_url +:+ p)) w))
      by (by apply cursor_untouched_log).
    destruct (http_get E (events w) (base_url +:+ p)) as [r|];
      [destruct (looks_like_feed r)|]; try done;
      (cursor_step Hlog; apply IH).
Qed.

Lemma try_base_urls_cursor base_urls w :
  cursor_untouched w (try_base_urls E base_urls w).2.
Proof.
  revert w. induction base_urls as [|b bs IH]; intros w; cbn [try_base_urls].
  - auto with cursor.
  - pose proof (try_patterns_cursor b RSS_PATTERNS w) as Hb.
    destruct (try_patterns E b RSS_PATTERNS w) as [[u|] w1]; [done|].
    cursor_step Hb. apply IH.
Qed.

Lemma discover_uncached_cursor domain cache w :
  cursor_untouched w (discover_uncached E domain cache w).2.
Proof.
  unfold discover_uncached.
  pose proof (discover_rss_from_html_cursor ("https://" +:+ domain) w) as H1.
  destruct (discover_rss_from_html E ("https://" +:+ domain) w) as [f1 w1].
  assert (H2 : cursor_untouched w1
            (if negb (opt_truthy f1)
             then discover_rss_from_html E ("https://www." +:+ domain) w1
             else (f1, w1)).2).
  { destruct (negb (opt_truthy f1)); [apply discover_rss_from_html_cursor|].
    auto with cursor. }
  destruct (if negb (opt_truthy f1)
            then discover_rss_from_html E ("https://www." +:+ domain) w1
            else (f1, w1)) as [f2 w2].
  assert (H3 : cursor_untouched w2
            (if negb (opt_truthy f2) then try_rss_patterns E domain w2
             else (f2, w2)).2).
  { destruct (negb (opt_truthy f2)); [apply try_base_urls_cursor|].
    auto with cursor. }
  destruct (if negb (opt_truthy f2) then try_rss_patterns E domain w2
            else (f2, w2)) as [f3 w3].
  pose proof (datetime_now_cursor w3) as H4.
  destruct (datetime_now E w3) as [now w4].
  cbn [snd] in *.
  cursor_step H1. cursor_step H2. cursor_step H3.
  by destruct (opt_truthy f3).
Qed.

Lemma discover_rss_feed_cursor domain cache w :
  cursor_untouched w (discover_rss_feed E domain cache w).2.
Proof.
  unfold discover_rss_feed.
  destruct (cache !! domain) as [cached|];
    [|apply discover_uncached_cursor].
  destruct (opt_truthy (feed_url cached)); [auto with cursor|].
  destruct (default false (no_feed cached)); [auto with cursor|].
  apply discover_uncached_cursor.
Qed.

Lemma discover_all_cursor skip_discovery domains cache feed_urls w :
  cursor_untouched w (discover_all E skip_discovery domains cache feed_urls w).2.
Proof.
  revert cache feed_urls w.
  induction domains as [|d ds IH]; intros cache feed_urls w; cbn [discover_all].
  - auto with cursor.
  - destruct (skip_discovery && bool_decide (cache !! d = None)); [apply IH|].
    pose proof (discover_rss_feed_cursor d cache w) as Hd.
    destruct (discover_rss_feed E d cache w) as [[f cache1] w1].
    cbn [snd] in Hd. cursor_step Hd.
    destruct (opt_truthy f); apply IH.
Qed.

Lemma parse_feed_cursor feed_url cutoff_date w :
  cursor_untouched w (parse_feed E feed_url cutoff_date w).2.
Proof.
  unfold parse_feed.
  assert (Hlog : cursor_untouched w (log (EvGet feed_url) w))
    by (by apply cursor_untouched_log).
  destruct (http_get E (events w) feed_url) as [r|]; [|done].
  destruct (raises_for_status r); [done|].
  destruct (feedparser_parse E (text r)) as [feed|]; [|done].
  destruct (bozo feed && is_nil (entries feed)); [done|].
  destruct cutoff_date as [c|].
  - by destruct (parse_entries E feed_url c _ _).
  - pose proof (datetime_now_cursor (log (EvGet feed_url) w)) as Hnow.
    destruct (datetime_now E (log (EvGet feed_url) w)) as [now w'].
    cbn [snd] in Hnow.
    destruct (parse_entries E feed_url _ _ _); cbn [snd];
      (cursor_step Hlog; exact Hnow).
Qed.

Lemma parse_all_cursor cutoff_date feed_urls all_items w :
  cursor_untouched w (parse_all E cutoff_date feed_urls all_items w).2.
Proof.
  revert all_items w.
  induction feed_urls as [|[d u] fs IH]; intros all_items w; cbn [parse_all].
  - auto with cursor.
  - pose proof (parse_feed_cursor u (Some cutoff_date) w) as Hu.
    destruct (parse_feed E u (Some cutoff_date) w) as [items w1].
    cbn [snd] in Hu. cursor_step Hu. apply IH.
Qed.

Lemma upsert_articles_cursor items week w :
  cursor_untouched w (upsert_articles E items week w).2.
Proof.
  unfold upsert_articles.
  pose proof (datetime_now_cursor w) as Hnow.
  destruct (datetime_now E w) as [now w1]. cbn [snd] in *.
  cursor_step Hnow. by apply cursor_untouched_log.
Qed.

Lemma save_feeds_cache_cursor cache w :
  cursor_untouched w (save_feeds_cache cache w).
Proof. split; [done|]. exists [EvSaveCache]. by split. Qed.

(** A full run leaves the cursor row alone. *)
Lemma run_sync_full_cursor skip_discovery limit_domains verbose w :
  cursor_untouched w (run_sync E false skip_discovery limit_domains verbose w).2.
Proof.
  unfold run_sync, compute_cutoff, get_current_week, load_crawl_results,
    load_feeds_cache.
  pose proof (datetime_now_cursor w) as H1.
  destruct (datetime_now E w) as [now1 w1]. cbn [snd] in H1.
  pose proof (datetime_now_cursor w1) as H2.
  destruct (datetime_now E w1) as [now2 w2]. cbn [snd] in H2.
  assert (H3 : cursor_untouched w2 (log EvLoadCrawl w2))
    by (by apply cursor_untouched_log).
  cursor_step H1. cursor_step H2. cursor_step H3.
  destruct (crawl_results_file w2) as [crawl_data|]; [|auto with cursor].
  destruct (extract_domains_from_crawl E crawl_data) as [domains|];
    [|auto with cursor].
  set (sorted := merge_sort _ _).
  set (w3 := log EvLoadCrawl w2).
  assert (H4 : cursor_untouched w3 (log EvLoadCache w3))
    by (by apply cursor_untouched_log).
  cursor_step H4.
  pose proof (discover_all_cursor skip_discovery sorted
                (default ∅ (feeds_cache_file w3)) [] (log EvLoadCache w3)) as H5.
  destruct (discover_all E skip_discovery sorted _ [] _)
    as [[cache feed_urls] w5].
  cbn [snd] in H5. cursor_step H5.
  cursor_step (save_feeds_cache_cursor cache w5).
  destruct (is_nil feed_urls); [auto with cursor|].
  set (cutoff := now2 - timedelta_days DAYS_LOOKBACK) in *.
  pose proof (parse_all_cursor cutoff feed_urls [] (save_feeds_cache cache w5)) as H7.
  destruct (parse_all E cutoff feed_urls [] _) as [all_items w7].
  cbn [snd] in H7. cursor_step H7.
  destruct (is_nil (deduplicate all_items)); [auto with cursor|].
  pose proof (upsert_articles_cursor (deduplicate all_items)
                (week_of E now1) w7) as H8.
  destruct (upsert_articles E _ _ w7) as [count w8].
  exact H8.
Qed.

End Cursor.

(** C7: in cron mode the cutoff is the instant held by the cursor row
    when there is one; without one it is the time of the clock less
    the first-run window, which is shorter than the full window. In a
    full run it is the time of the clock less the full window, and the
    whole run neither reads nor writes the cursor row. *)
Theorem cutoff_by_mode (E : Env) (w : World) :
  (∀ t, cron_state w = Some (IsoText t) → fst (compute_cutoff E true w) = t)
  ∧ ((∀ t, cron_state w ≠ Some (IsoText t)) →
     fst (compute_cutoff E true w)
     = clock E (events w ++ [EvCursorRead]) - timedelta_days CRON_FIRST_RUN_DAYS)
  ∧ 0 < timedelta_days CRON_FIRST_RUN_DAYS < timedelta_days DAYS_LOOKBACK
  ∧ fst (compute_cutoff E false w)
    = clock E (events w) - timedelta_days DAYS_LOOKBACK
  ∧ cursor_untouched w (snd (compute_cutoff E false w))
  ∧ ∀ skip_discovery limit_domains verbose,
      cursor_untouched w
        (snd (run_sync E false skip_discovery limit_domains verbose w)).
Proof.
  split; [|split; [|split; [|split; [|split]]]].
  - intros t Ht. unfold compute_cutoff, get_last_cron_run. by rewrite Ht.
  - intros Hnone. unfold compute_cutoff, get_last_cron_run.
    destruct (cron_state w) as [[t|s]|]; try reflexivity.
    by destruct (Hnone t).
  - unfold timedelta_days, CRON_FIRST_RUN_DAYS, DAYS_LOOKBACK. lia.
  - reflexivity.
  - by apply cursor_untouched_log.
  - intros. apply run_sync_full_cursor.
Qed.

Lemma cutoff_by_mode_witness :
  fst (compute_cutoff offline_env true outage_world) = 63871977600000000
  ∧ fst (compute_cutoff offline_env true fresh_world)
    = 63872064000000001 - timedelta_days CRON_FIRST_RUN_DAYS.
Proof.
  split.
  - apply (proj1 (cutoff_by_mode offline_env outage_world)). reflexivity.
  - apply (proj1 (proj2 (cutoff_by_mode offline_env fresh_world))).
    intros t. discriminate.
Defined.

(** C2, where the code departs from it: a cron run that finds no feed
    (here no host answers) returns 0 at "No RSS feeds found" with the
    cursor row as it was and no write of it in the trace. *)
Theorem cron_run_without_feeds_keeps_cursor :
  fst (run_sync offline_env true false 0 false outage_world) = Returned 0
  ∧ cron_state (snd (run_sync offline_env true false 0 false outage_world))
    = cron_state outage_world
  ∧ List.filter is_cursor_event
      (events (snd (run_sync offline_env true false 0 false outage_world)))
    = [EvCursorRead].
Proof. vm_compute. repeat split. Qed.

(** Where a cron run that returns leaves the cursor: advanced to the
    time of the clock, after the commit or after "No new articles to
    store", unless the run returned 0 at "No RSS feeds found", right
    after the cache was saved. *)
Lemma set_last_cron_run_advances (E : Env) (w : World) :
  ∃ evs t, events (set_last_cron_run E w) = evs ++ [EvCursorWrite t]
           ∧ cron_state (set_last_cron_run E w) = Some (IsoText t).
Proof.
  unfold set_last_cron_run, datetime_now. cbn.
  by exists (events w ++ [EvNow]), (clock E (events w)).
Qed.

Lemma run_sync_cron_returns
    (E : Env) (skip_discovery : bool) (limit_domains : Z) (verbose : bool)
    (w w' : World) (n : Z) :
  run_sync E true skip_discovery limit_domains verbose w = (Returned n, w') →
  (∃ evs t, events w' = evs ++ [EvCursorWrite t]
            ∧ cron_state w' = Some (IsoText t))
  ∨ (n = 0 ∧ ∃ evs, events w' = evs ++ [EvSaveCache]).
Proof.
  unfold run_sync.
  destruct (get_current_week E w) as [week w1].
  destruct (compute_cutoff E true w1) as [cutoff w2].
  destruct (load_crawl_results w2) as [[crawl_data|] w3]; [|discriminate].
  destruct (extract_domains_from_crawl E crawl_data) as [domains|];
    [|discriminate].
  destruct (load_feeds_cache w3) as [cache0 w4].
  destruct (discover_all E skip_discovery _ cache0 [] w4)
    as [[cache feed_urls] w5].
  destruct (is_nil feed_urls).
  - intros [= <- <-]. right. split; [done|].
    by exists (events w5).
  - destruct (parse_all E cutoff feed_urls [] _) as [all_items w6].
    destruct (is_nil (deduplicate all_items)).
    + intros [= <- <-]. left. apply set_last_cron_run_advances.
    + destruct (upsert_articles E _ week w6) as [count w7].
      intros [= <- <-]. left. apply set_last_cron_run_advances.
Qed.

(** * Further properties *)

(** ** Deduplicator: what is kept *)

Lemma dedup_fold_from items seen acc :
  snd (fold_left dedup_step items (seen, acc)) = acc ++ dedup_from seen items.
Proof.
  revert seen acc. induction items as [|x items IH]; intros seen acc; simpl.
  - by rewrite app_nil_r.
  - destruct (str_truthy (item_url x) && bool_decide (item_url x ∉ seen)).
    + by rewrite IH, <- app_assoc.
    + apply IH.
Qed.

Lemma deduplicate_from items : deduplicate items = dedup_from ∅ items.
Proof. unfold deduplicate. by rewrite dedup_fold_from. Qed.

Lemma dedup_from_urls seen items u :
  u ∈ map item_url (dedup_from seen items)
  ↔ u ∈ map item_url items ∧ u ≠ "" ∧ u ∉ seen.
Proof.
  revert seen. induction items as [|x items IH]; intros seen; simpl.
  - split; [intros H; by apply elem_of_nil in H|].
    intros [H _]. by apply elem_of_nil in H.
  - destruct (str_truthy (item_url x)) eqn:Hx; simpl.
    + apply str_truthy_spec in Hx. case_bool_decide as Hseen; simpl.
      * rewrite !elem_of_cons, IH, elem_of_union, elem_of_singleton.
        split.
        -- intros [->|[Hu [Hne Hns]]]; [by auto|].
           split; [by right|]. split; [done|]. intros Hs. apply Hns. by right.
        -- intros [[->|Hu] [Hne Hns]]; [by left|].
           destruct (decide (u = item_url x)) as [->|Hux]; [by left|].
           right. split; [done|]. split; [done|]. intros [Hs|Hs]; done.
      * rewrite elem_of_cons, IH. split.
        -- intros [Hu [Hne Hns]]. by auto.
        -- intros [[->|Hu] [Hne Hns]]; [|done].
           by destruct Hns.
    + rewrite elem_of_cons, IH. split.
      * intros [Hu [Hne Hns]]. by auto.
      * intros [[->|Hu] [Hne Hns]]; [|done].
        destruct (item_url x); [done|discriminate].
Qed.

Lemma dedup_from_NoDup seen items : NoDup (map item_url (dedup_from seen items)).
Proof.
  revert seen. induction items as [|x items IH]; intros seen; simpl.
  - constructor.
  - destruct (str_truthy (item_url x) && bool_decide (item_url x ∉ seen));
      [|apply IH].
    simpl. constructor; [|apply IH].
    rewrite dedup_from_urls. intros [_ [_ Hns]]. apply Hns.
    apply elem_of_union. left. by apply elem_of_singleton.
Qed.

(** X1: each non-empty URL of the input is the URL of exactly one item
    of the output, and the output has no other URL. *)
Theorem dedup_each_url_once (all_items : list FeedItem) :
  NoDup (map item_url (deduplicate all_items))
  ∧ ∀ u, u ∈ map item_url (deduplicate all_items)
         ↔ u ∈ map item_url all_items ∧ u ≠ "".
Proof.
  rewrite deduplicate_from. split; [apply dedup_from_NoDup|].
  intros u. rewrite dedup_from_urls. split.
  - intros [Hu [Hne _]]. done.
  - intros [Hu Hne]. split; [done|]. split; [done|]. apply not_elem_of_empty.
Qed.

Lemma dedup_from_first seen items it :
  it ∈ dedup_from seen items →
  ∃ pre post, items = pre ++ it :: post
              ∧ Forall (λ x, item_url x ≠ item_url it) pre.
Proof.
  revert seen. induction items as [|x items IH]; intros seen; simpl.
  - intros H. by apply elem_of_nil in H.
  - assert (Hlater : ∀ seen', it ∈ dedup_from seen' items →
                     item_url x ≠ item_url it →
                     ∃ pre post, x :: items = pre ++ it :: post
                       ∧ Forall (λ y, item_url y ≠ item_url it) pre).
    { intros seen' Hin Hne. destruct (IH _ Hin) as [pre [post [-> Hpre]]].
      exists (x :: pre), post. split; [done|]. by constructor. }
    destruct (str_truthy (item_url x)) eqn:Hx; simpl.
    + case_bool_decide as Hseen; simpl.
      * intros Hin. apply elem_of_cons in Hin as [->|Hin].
        -- exists [], items. split; [done|]. constructor.
        -- apply (Hlater _ Hin). intros Heq.
           assert (Hu : item_url it ∈ map item_url
                     (dedup_from ({[item_url x]} ∪ seen) items))
             by (apply list_elem_of_fmap; by exists it).
           apply dedup_from_urls in Hu as [_ [_ Hns]]. apply Hns.
           apply elem_of_union. left. by apply elem_of_singleton.
      * intros Hin. apply (Hlater _ Hin). intros Heq.
        assert (Hu : item_url it ∈ map item_url (dedup_from seen items))
          by (apply list_elem_of_fmap; by exists it).
        apply dedup_from_urls in Hu as [_ [_ Hns]]. apply Hns.
        by rewrite <- Heq.
    + intros Hin. apply (Hlater _ Hin). intros Heq.
      assert (Hu : item_url it ∈ map item_url (dedup_from seen items))
        by (apply list_elem_of_fmap; by exists it).
      apply dedup_from_urls in Hu as [_ [Hne _]].
      rewrite <- Heq in Hne. destruct (item_url x); [done|discriminate].
Qed.

Lemma dedup_from_sublist seen items : sublist (dedup_from seen items) items.
Proof.
  revert seen. induction items as [|x items IH]; intros seen; simpl.
  - constructor.
  - destruct (str_truthy (item_url x) && bool_decide (item_url x ∉ seen)).
    + apply sublist_skip, IH.
    + apply sublist_cons, IH.
Qed.

(** X2: the output keeps the order of the input, and the item emitted
    for a URL is the first item of the input with that URL. *)
Theorem dedup_keeps_first_occurrence (all_items : list FeedItem) :
  sublist (deduplicate all_items) all_items
  ∧ ∀ it, it ∈ deduplicate all_items →
      ∃ pre post, all_items = pre ++ it :: post
                  ∧ Forall (λ x, item_url x ≠ item_url it) pre.
Proof.
  rewrite deduplicate_from. split; [apply dedup_from_sublist|].
  intros it. apply dedup_from_first.
Qed.

Lemma dedup_keeps_first_occurrence_witness :
  ∃ pre post, [untitled_item; article_x; untitled_item] = pre ++ article_x :: post
              ∧ Forall (λ x, item_url x ≠ item_url article_x) pre.
Proof.
  apply (proj2 (dedup_keeps_first_occurrence
                  [untitled_item; article_x; untitled_item]) article_x).
  vm_compute. apply list_elem_of_here.
Defined.

Lemma dedup_from_idempotent seen items :
  dedup_from seen (dedup_from seen items) = dedup_from seen items.
Proof.
  revert seen. induction items as [|x items IH]; intros seen; simpl; [done|].
  destruct (str_truthy (item_url x) && bool_decide (item_url x ∉ seen)) eqn:Hx;
    [|apply IH].
  simpl. rewrite Hx. f_equal. apply IH.
Qed.

(** X3: deduplicating a deduplicated list changes nothing. *)
Theorem dedup_idempotent (all_items : list FeedItem) :
  deduplicate (deduplicate all_items) = deduplicate all_items.
Proof. rewrite !deduplicate_from. apply dedup_from_idempotent. Qed.

(** ** Pattern probing *)

Section Probing.

Variable E : Env.

Lemma all_rejected_app evs us1 us2 :
  all_rejected E evs (us1 ++ us2)
  ↔ all_rejected E evs us1 ∧ all_rejected E (evs ++ map EvGet us1) us2.
Proof.
  revert evs. induction us1 as [|u us1 IH]; intros evs; simpl.
  - rewrite app_nil_r. tauto.
  - rewrite IH, <- app_assoc. simpl. tauto.
Qed.

(** The inner loop: either every candidate of the base URL was probed
    and rejected, or the loop stopped at the first accepted one. *)
Lemma try_patterns_trace base_url patterns w :
  match try_patterns E base_url patterns w with
  | (None, w') =>
      events w' = events w ++ map EvGet (candidates_of base_url patterns)
      ∧ all_rejected E (events w) (candidates_of base_url patterns)
  | (Some u, w') =>
      ∃ pre post r,
        candidates_of base_url patterns = pre ++ u :: post
        ∧ events w' = events w ++ map EvGet (pre ++ [u])
        ∧ all_rejected E (events w) pre
        ∧ http_get E (events w ++ map EvGet pre) u = Some r
        ∧ looks_like_feed r = true
  end.
Proof.
  revert w. induction patterns as [|p ps IH]; intros w; cbn [try_patterns].
  - cbn. by rewrite app_nil_r.
  - cbn [candidates_of map]. fold (candidates_of base_url ps).
    set (u := base_url +:+ p).
    assert (Hrest :
      probe_rejected E (events w) u →
      match try_patterns E base_url ps (log (EvGet u) w) with
      | (None, w') =>
          events w' = events w ++ map EvGet (u :: candidates_of base_url ps)
          ∧ all_rejected E (events w) (u :: candidates_of base_url ps)
      | (Some u', w') =>
          ∃ pre post r,
            u :: candidates_of base_url ps = pre ++ u' :: post
            ∧ events w' = events w ++ map EvGet (pre ++ [u'])
            ∧ all_rejected E (events w) pre
            ∧ http_get E (events w ++ map EvGet pre) u' = Some r
            ∧ looks_like_feed r = true
      end).
    { intros Hrej. specialize (IH (log (EvGet u) w)).
      destruct (try_patterns E base_url ps (log (EvGet u) w)) as [[u'|] w'].
      - destruct IH as [pre [post [r [Hc [Hev [Hall [Hget Hfeed]]]]]]].
        exists (u :: pre), post, r. cbn [log events] in *.
        rewrite Hc. split; [done|]. split.
        { rewrite Hev, <- app_assoc. done. }
        split; [by split|]. split; [|done].
        rewrite <- Hget. cbn [map]. by rewrite <- app_assoc.
      - destruct IH as [Hev Hall]. cbn [log events] in *. split.
        + rewrite Hev, <- app_assoc. done.
        + by split. }
    destruct (http_get E (events w) u) as [r|] eqn:Hget.
    + destruct (looks_like_feed r) eqn:Hfeed.
      * exists [], (candidates_of base_url ps), r. cbn.
        rewrite app_nil_r. done.
      * apply Hrest. unfold probe_rejected. by rewrite Hget.
    + apply Hrest. unfold probe_rejected. by rewrite Hget.
Qed.

Lemma try_patterns_truthy base_url patterns w u :
  str_truthy base_url = true →
  (try_patterns E base_url patterns w).1 = Some u → str_truthy u = true.
Proof.
  intros Hbase. revert w.
  induction patterns as [|p ps IH]; intros w; cbn [try_patterns]; [done|].
  assert (Hu : str_truthy (base_url +:+ p) = true)
    by (destruct base_url; [done|reflexivity]).
  destruct (http_get E (events w) (base_url +:+ p)) as [r|]; [|apply IH].
  destruct (looks_like_feed r); [|apply IH].
  by intros [= <-].
Qed.

Lemma try_rss_patterns_truthy domain w u :
  (try_rss_patterns E domain w).1 = Some u → str_truthy u = true.
Proof.
  unfold try_rss_patterns. cbn [try_base_urls].
  destruct (try_patterns E ("https://" +:+ domain) RSS_PATTERNS w)
    as [[u1|] w1] eqn:H1.
  - intros [= <-]. apply (try_patterns_truthy ("https://" +:+ domain)
                            RSS_PATTERNS w); [reflexivity|by rewrite H1].
  - destruct (try_patterns E ("https://www." +:+ domain) RSS_PATTERNS w1)
      as [[u2|] w2] eqn:H2; [|done].
    intros [= <-]. apply (try_patterns_truthy ("https://www." +:+ domain)
                            RSS_PATTERNS w1); [reflexivity|by rewrite H2].
Qed.

End Probing.

(** The trace of a whole probing, for both of its outcomes. *)
Lemma try_rss_patterns_trace (E : Env) (domain : string) (w : World) :
  (∀ w', try_rss_patterns E domain w = (None, w') →
         events w' = events w ++ map EvGet (feed_candidates domain)
         ∧ all_rejected E (events w) (feed_candidates domain))
  ∧ (∀ u w', try_rss_patterns E domain w = (Some u, w') →
       ∃ pre post r,
         feed_candidates domain = pre ++ u :: post
         ∧ events w' = events w ++ map EvGet (pre ++ [u])
         ∧ all_rejected E (events w) pre
         ∧ http_get E (events w ++ map EvGet pre) u = Some r
         ∧ looks_like_feed r = true).
Proof.
  unfold try_rss_patterns, feed_candidates. cbn [try_base_urls].
  set (bare := "https://" +:+ domain). set (www := "https://www." +:+ domain).
  pose proof (try_patterns_trace E bare RSS_PATTERNS w) as H1.
  destruct (try_patterns E bare RSS_PATTERNS w) as [[u1|] w1].
  - split; [intros w' [=]|]. intros u w' [= <- <-].
    destruct H1 as [pre [post [r [Hc [Hev [Hall [Hget Hfeed]]]]]]].
    exists pre, (post ++ candidates_of www RSS_PATTERNS), r.
    rewrite Hc, <- app_assoc. done.
  - destruct H1 as [Hev1 Hall1].
    pose proof (try_patterns_trace E www RSS_PATTERNS w1) as H2.
    destruct (try_patterns E www RSS_PATTERNS w1) as [[u2|] w2].
    + split; [intros w' [=]|]. intros u w' [= <- <-].
      destruct H2 as [pre [post [r [Hc [Hev [Hall [Hget Hfeed]]]]]]].
      exists (candidates_of bare RSS_PATTERNS ++ pre), post, r.
      rewrite Hev1 in *. split; [by rewrite Hc, <- app_assoc|]. split.
      { rewrite Hev, ?map_app. by rewrite ?app_assoc. }
      split; [by apply all_rejected_app|].
      rewrite map_app, app_assoc. done.
    + destruct H2 as [Hev2 Hall2]. split; [|intros u w' [=]].
      intros w' [= <-]. rewrite Hev1 in *. split.
      * rewrite Hev2, ?map_app. by rewrite ?app_assoc.
      * by apply all_rejected_app.
Qed.

(** X4: [try_rss_patterns] probes the candidates in one fixed order,
    every pattern on the bare host before any on the [www.] host. It
    returns none only after probing all of them, each rejected; it
    returns a URL when that candidate is the first whose response has
    status 200 and looks like a feed, and probes nothing after it. *)
Theorem try_rss_patterns_probe_order (E : Env) (domain : string) (w : World) :
  (∀ w', try_rss_patterns E domain w = (None, w') →
         events w' = events w ++ map EvGet (feed_candidates domain)
         ∧ all_rejected E (events w) (feed_candidates domain))
  ∧ (∀ u w', try_rss_patterns E domain w = (Some u, w') →
       ∃ pre post r,
         feed_candidates domain = pre ++ u :: post
         ∧ events w' = events w ++ map EvGet (pre ++ [u])
         ∧ all_rejected E (events w) pre
         ∧ http_get E (events w ++ map EvGet pre) u = Some r
         ∧ looks_like_feed r = true).
Proof.
  destruct (try_rss_patterns_trace E domain w) as [Hnone Hsome].
  split; [exact Hnone|exact Hsome].
Qed.

Lemma try_rss_patterns_probe_order_witness :
  ∃ pre post r,
    feed_candidates "blog.example"
    = pre ++ "https://blog.example/rss.xml" :: post
    ∧ events (log (EvGet "https://blog.example/rss.xml")
               (log (EvGet "https://blog.example/feed.xml")
                 (log (EvGet "https://blog.example/atom.xml")
                   (log (EvGet "https://blog.example/rss")
                     (log (EvGet "https://blog.example/feed") fresh_world)))))
      = events fresh_world ++ map EvGet (pre ++ ["https://blog.example/rss.xml"])
    ∧ all_rejected blog_env (events fresh_world) pre
    ∧ http_get blog_env (events fresh_world ++ map EvGet pre)
               "https://blog.example/rss.xml" = Some r
    ∧ looks_like_feed r = true.
Proof.
  apply (proj2 (try_rss_patterns_probe_order blog_env "blog.example" fresh_world)).
  reflexivity.
Defined.

(** ** Feed discovery: the order of the methods *)

Section Fallback.

Variable E : Env.

(** What is left of an answer that is not truthy is [None]: the two
    HTML look-ups are overwritten and the probing returns a candidate
    or nothing. *)
Lemma discover_uncached_falsy domain cache w :
  opt_truthy (discover_uncached E domain cache w).1.1 = false →
  (discover_uncached E domain cache w).1.1 = None.
Proof.
  unfold discover_uncached.
  destruct (discover_rss_from_html E ("https://" +:+ domain) w) as [f1 w1].
  destruct (if negb (opt_truthy f1)
            then discover_rss_from_html E ("https://www." +:+ domain) w1
            else (f1, w1)) as [f2 w2].
  destruct (opt_truthy f2) eqn:Hf2; cbn [negb].
  - destruct (datetime_now E w2) as [now w4]. rewrite Hf2. cbn. congruence.
  - pose proof (try_rss_patterns_truthy E domain w2) as Hp.
    destruct (try_rss_patterns E domain w2) as [f3 w3].
    destruct (datetime_now E w3) as [now w4].
    destruct f3 as [u|]; cbn [fst] in Hp.
    + cbn [opt_truthy]. rewrite (Hp u eq_refl). cbn. by rewrite (Hp u eq_refl).
    + done.
Qed.

End Fallback.

(** X5: off the cache, a feed link declared by the page at
    [https://domain] is the answer: the call makes that one request
    and no other, probes no pattern, and records the link in the cache
    as the resolved feed of the domain. *)
Theorem discover_html_link_beats_patterns
    (E : Env) (domain : string) (cache : gmap string CacheEntry) (w : World)
    (u : string) :
  cache !! domain = None →
  fst (discover_rss_from_html E ("https://" +:+ domain) w) = Some u →
  u ≠ "" →
  discover_rss_feed E domain cache w
  = (Some u,
     <[domain := mkCacheEntry (Some u) None
                   (Some (clock E (events w ++ [EvGet ("https://" +:+ domain)])))
                   None]> cache,
     log EvNow (log (EvGet ("https://" +:+ domain)) w)).
Proof.
  intros Hmiss Hhtml Hne. apply str_truthy_spec in Hne.
  unfold discover_rss_feed. rewrite Hmiss. unfold discover_uncached.
  assert (Hw : snd (discover_rss_from_html E ("https://" +:+ domain) w)
               = log (EvGet ("https://" +:+ domain)) w).
  { unfold discover_rss_from_html.
    destruct (http_get E (events w) ("https://" +:+ domain)) as [r|]; [|done].
    by destruct (raises_for_status r). }
  destruct (discover_rss_from_html E ("https://" +:+ domain) w) as [f1 w1].
  cbn [fst snd] in *. subst f1 w1. cbn [opt_truthy]. rewrite Hne. cbn [negb].
  unfold datetime_now. cbn [opt_truthy]. rewrite Hne. cbn [negb opt_truthy].
  by rewrite Hne.
Qed.

Lemma discover_html_link_beats_patterns_witness :
  discover_rss_feed blog_env "blog.example" ∅ fresh_world
  = (Some "https://blog.example/rss.xml",
     <[ "blog.example" := mkCacheEntry (Some "https://blog.example/rss.xml") None
                           (Some 63872064000000001) None ]> ∅,
     log EvNow (log (EvGet "https://blog.example") fresh_world)).
Proof.
  apply (discover_html_link_beats_patterns blog_env "blog.example" ∅ fresh_world
           "https://blog.example/rss.xml").
  - apply lookup_empty.
  - reflexivity.
  - discriminate.
Defined.

(** X6: a second call for the same domain, on the cache and the world
    the first call left, gives the same answer and changes nothing: no
    request is made and the cache is not written. *)
Theorem discover_again_is_free
    (E : Env) (domain : string) (cache cache1 : gmap string CacheEntry)
    (w w1 : World) (answer : option string) :
  discover_rss_feed E domain cache w = (answer, cache1, w1) →
  discover_rss_feed E domain cache1 w1 = (answer, cache1, w1).
Proof.
  assert (Hmiss : discover_uncached E domain cache w = (answer, cache1, w1) →
                  discover_rss_feed E domain cache1 w1 = (answer, cache1, w1)).
  { intros Hrun.
    pose proof (discover_uncached_falsy E domain cache w) as Hfalsy.
    rewrite Hrun in Hfalsy. cbn [fst] in Hfalsy.
    revert Hrun. unfold discover_uncached.
    destruct (discover_rss_from_html E ("https://" +:+ domain) w) as [f1 w1'].
    destruct (if negb (opt_truthy f1)
              then discover_rss_from_html E ("https://www." +:+ domain) w1'
              else (f1, w1')) as [f2 w2].
    destruct (if negb (opt_truthy f2) then try_rss_patterns E domain w2
              else (f2, w2)) as [f3 w3].
    destruct (datetime_now E w3) as [now w4].
    destruct (opt_truthy f3) eqn:Hf3; intros [= <- <- <-];
      unfold discover_rss_feed; rewrite lookup_insert_eq; cbn [feed_url no_feed].
    - by rewrite Hf3.
    - rewrite (Hfalsy Hf3). done. }
  unfold discover_rss_feed at 1.
  destruct (cache !! domain) as [cached|] eqn:Hlook; [|exact Hmiss].
  destruct (opt_truthy (feed_url cached)) eqn:Hurl.
  - intros [= <- <- <-]. unfold discover_rss_feed. by rewrite Hlook, Hurl.
  - destruct (default false (no_feed cached)) eqn:Hno; [|exact Hmiss].
    intros [= <- <- <-]. unfold discover_rss_feed. by rewrite Hlook, Hurl, Hno.
Qed.

Lemma discover_again_is_free_witness :
  discover_rss_feed offline_env "a.example"
    (discover_rss_feed offline_env "a.example" ∅ fresh_world).1.2
    (discover_rss_feed offline_env "a.example" ∅ fresh_world).2
  = discover_rss_feed offline_env "a.example" ∅ fresh_world.
Proof.
  destruct (discover_rss_feed offline_env "a.example" ∅ fresh_world)
    as [[answer cache1] w1] eqn:Hrun.
  exact (discover_again_is_free offline_env "a.example" ∅ cache1
           fresh_world w1 answer Hrun).
Defined.

(** X7: off the cache, the answer none comes only after every method
    was tried: the page of the bare host, the page of the [www.] host
    and all the candidates, in that order; the domain is then recorded
    as having no feed, with the time of the check. *)
Theorem discover_none_after_all_methods
    (E : Env) (domain : string) (cache cache1 : gmap string CacheEntry)
    (w w1 : World) :
  cache !! domain = None →
  discover_rss_feed E domain cache w = (None, cache1, w1) →
  events w1
  = events w
    ++ EvGet ("https://" +:+ domain) :: EvGet ("https://www." +:+ domain)
       :: map EvGet (feed_candidates domain) ++ [EvNow]
  ∧ ∃ now, cache1 = <[domain := mkCacheEntry None (Some true) None (Some now)]> cache.
Proof.
  intros Hmiss. unfold discover_rss_feed. rewrite Hmiss.
  unfold discover_uncached.
  assert (Hhtml : ∀ url w0,
            snd (discover_rss_from_html E url w0) = log (EvGet url) w0).
  { intros url w0. unfold discover_rss_from_html.
    destruct (http_get E (events w0) url) as [r|]; [|done].
    by destruct (raises_for_status r). }
  pose proof (Hhtml ("https://" +:+ domain) w) as H1.
  destruct (discover_rss_from_html E ("https://" +:+ domain) w) as [f1 w1'].
  cbn [snd] in H1. subst w1'.
  destruct (opt_truthy f1) eqn:Hf1; cbn [negb].
  { rewrite Hf1. cbn [negb]. destruct (datetime_now E _) as [now w4].
    rewrite Hf1. intros [= -> _ _]. discriminate. }
  pose proof (Hhtml ("https://www." +:+ domain)
                (log (EvGet ("https://" +:+ domain)) w)) as H2.
  destruct (discover_rss_from_html E ("https://www." +:+ domain) _) as [f2 w2].
  cbn [snd] in H2. subst w2.
  destruct (opt_truthy f2) eqn:Hf2; cbn [negb].
  { destruct (datetime_now E _) as [now w4].
    rewrite Hf2. intros [= -> _ _]. discriminate. }
  pose proof (proj1 (try_rss_patterns_trace E domain
    (log (EvGet ("https://www." +:+ domain))
         (log (EvGet ("https://" +:+ domain)) w)))) as H3.
  destruct (try_rss_patterns E domain _) as [f3 w3].
  unfold datetime_now.
  destruct (opt_truthy f3) eqn:Hf3.
  { intros [= -> _ _]. discriminate. }
  intros [= -> <- <-].
  destruct (H3 w3 eq_refl) as [Hev _]. split.
  - cbn [log events] in *. rewrite Hev, <- !app_assoc. done.
  - by eexists.
Qed.

Lemma discover_none_after_all_methods_witness :
  events (discover_rss_feed offline_env "a.example" ∅ fresh_world).2
  = EvGet "https://a.example" :: EvGet "https://www.a.example"
    :: map EvGet (feed_candidates "a.example") ++ [EvNow].
Proof.
  destruct (discover_rss_feed offline_env "a.example" ∅ fresh_world)
    as [[answer cache1] w1] eqn:Hrun.
  assert (Hnone : answer = None).
  { apply (f_equal (λ x, x.1.1)) in Hrun. vm_compute in Hrun. congruence. }
  subst answer.
  exact (proj1 (discover_none_after_all_methods offline_env "a.example" ∅ cache1
                  fresh_world w1 (lookup_empty _) Hrun)).
Defined.

(** ** What the operations leave behind *)

Lemma only_logs_refl P w : only_logs P w w.
Proof. split; [|done]. exists []. by rewrite app_nil_r. Qed.

Lemma only_logs_trans P w1 w2 w3 :
  only_logs P w1 w2 → only_logs P w2 w3 → only_logs P w1 w3.
Proof.
  intros [[evs1 [He1 Hf1]] [Hc1 [Hr1 Hk1]]] [[evs2 [He2 Hf2]] [Hc2 [Hr2 Hk2]]].
  split; [|repeat split; congruence].
  exists (evs1 ++ evs2). rewrite He2, He1, <- app_assoc. split; [done|].
  by rewrite forallb_app, Hf1, Hf2.
Qed.

Lemma only_logs_weaken (P Q : Event → bool) w w' :
  (∀ e, P e = true → Q e = true) → only_logs P w w' → only_logs Q w w'.
Proof.
  intros HPQ [[evs [He Hf]] Hrest]. split; [|done].
  exists evs. split; [done|]. rewrite forallb_forall in *.
  intros e He'. by apply HPQ, Hf.
Qed.

Lemma only_logs_log (P : Event → bool) e w :
  P e = true → only_logs P w (log e w).
Proof.
  intros He. split; [|done]. exists [e]. split; [done|]. simpl. by rewrite He.
Qed.

Lemma get_is_get_or_now e : is_get e = true → is_get_or_now e = true.
Proof. by destruct e. Qed.

Section Logs.

Variable E : Env.

Lemma discover_rss_from_html_world url w :
  (discover_rss_from_html E url w).2 = log (EvGet url) w.
Proof.
  unfold discover_rss_from_html.
  destruct (http_get E (events w) url) as [r|]; [|done].
  by destruct (raises_for_status r).
Qed.

Lemma try_patterns_logs base_url patterns w :
  only_logs is_get w (try_patterns E base_url patterns w).2.
Proof.
  revert w. induction patterns as [|p ps IH]; intros w; cbn [try_patterns].
  - apply only_logs_refl.
  - assert (Hlog : only_logs is_get w (log (EvGet (base_url +:+ p)) w))
      by (by apply only_logs_log).
    destruct (http_get E (events w) (base_url +:+ p)) as [r|];
      [destruct (looks_like_feed r)|]; try done;
      (eapply only_logs_trans; [exact Hlog|apply IH]).
Qed.

Lemma try_rss_patterns_logs domain w :
  only_logs is_get w (try_rss_patterns E domain w).2.
Proof.
  unfold try_rss_patterns. cbn [try_base_urls].
  pose proof (try_patterns_logs ("https://" +:+ domain) RSS_PATTERNS w) as H1.
  destruct (try_patterns E ("https://" +:+ domain) RSS_PATTERNS w)
    as [[u1|] w1]; [done|].
  pose proof (try_patterns_logs ("https://www." +:+ domain) RSS_PATTERNS w1) as H2.
  destruct (try_patterns E ("https://www." +:+ domain) RSS_PATTERNS w1)
    as [[u2|] w2]; by eapply only_logs_trans.
Qed.

Lemma discover_uncached_logs domain cache w :
  only_logs is_get_or_now w (discover_uncached E domain cache w).2.
Proof.
  unfold discover_uncached.
  pose proof (discover_rss_from_html_world ("https://" +:+ domain) w) as H1.
  destruct (discover_rss_from_html E ("https://" +:+ domain) w) as [f1 w1].
  cbn [snd] in H1. subst w1.
  assert (H2 : only_logs is_get_or_now (log (EvGet ("https://" +:+ domain)) w)
            (if negb (opt_truthy f1)
             then discover_rss_from_html E ("https://www." +:+ domain)
                    (log (EvGet ("https://" +:+ domain)) w)
             else (f1, log (EvGet ("https://" +:+ domain)) w)).2).
  { destruct (negb (opt_truthy f1)); [|apply only_logs_refl].
    rewrite discover_rss_from_html_world. by apply only_logs_log. }
  destruct (if negb (opt_truthy f1)
            then discover_rss_from_html E ("https://www." +:+ domain) _
            else _) as [f2 w2].
  assert (H3 : only_logs is_get_or_now w2
            (if negb (opt_truthy f2) then try_rss_patterns E domain w2
             else (f2, w2)).2).
  { destruct (negb (opt_truthy f2)); [|apply only_logs_refl].
    eapply only_logs_weaken; [apply get_is_get_or_now|].
    apply try_rss_patterns_logs. }
  destruct (if negb (opt_truthy f2) then try_rss_patterns E domain w2
            else (f2, w2)) as [f3 w3].
  unfold datetime_now. cbn [snd] in *.
  assert (H4 : only_logs is_get_or_now w (log EvNow w3)).
  { eapply only_logs_trans; [by apply (only_logs_log is_get_or_now
                                        (EvGet ("https://" +:+ domain)))|].
    eapply only_logs_trans; [exact H2|].
    eapply only_logs_trans; [exact H3|]. by apply only_logs_log. }
  by destruct (opt_truthy f3).
Qed.

Lemma discover_rss_feed_logs domain cache w :
  only_logs is_get_or_now w (discover_rss_feed E domain cache w).2.
Proof.
  unfold discover_rss_feed.
  destruct (cache !! domain) as [cached|]; [|apply discover_uncached_logs].
  destruct (opt_truthy (feed_url cached)); [apply only_logs_refl|].
  destruct (default false (no_feed cached)); [apply only_logs_refl|].
  apply discover_uncached_logs.
Qed.

Lemma discover_all_logs skip_discovery domains cache feed_urls w :
  only_logs is_get_or_now w
    (discover_all E skip_discovery domains cache feed_urls w).2.
Proof.
  revert cache feed_urls w.
  induction domains as [|d ds IH]; intros cache feed_urls w; cbn [discover_all].
  - apply only_logs_refl.
  - destruct (skip_discovery && bool_decide (cache !! d = None)); [apply IH|].
    pose proof (discover_rss_feed_logs d cache w) as Hd.
    destruct (discover_rss_feed E d cache w) as [[f cache1] w1].
    cbn [snd] in Hd. eapply only_logs_trans; [exact Hd|].
    destruct (opt_truthy f); apply IH.
Qed.

Lemma parse_feed_logs feed_url cutoff_date w :
  only_logs is_get w (parse_feed E feed_url (Some cutoff_date) w).2.
Proof.
  unfold parse_feed.
  assert (Hlog : only_logs is_get w (log (EvGet feed_url) w))
    by (by apply only_logs_log).
  destruct (http_get E (events w) feed_url) as [r|]; [|done].
  destruct (raises_for_status r); [done|].
  destruct (feedparser_parse E (text r)) as [feed|]; [|done].
  destruct (bozo feed && is_nil (entries feed)); [done|].
  by destruct (parse_entries E feed_url cutoff_date _ _).
Qed.

Lemma parse_all_logs cutoff_date feed_urls all_items w :
  only_logs is_get w (parse_all E cutoff_date feed_urls all_items w).2.
Proof.
  revert all_items w.
  induction feed_urls as [|[d u] fs IH]; intros all_items w; cbn [parse_all].
  - apply only_logs_refl.
  - pose proof (parse_feed_logs u cutoff_date w) as Hu.
    destruct (parse_feed E u (Some cutoff_date) w) as [items w1].
    cbn [snd] in Hu. eapply only_logs_trans; [exact Hu|apply IH].
Qed.

(** ** The cache over a whole discovery pass *)

Lemma discover_rss_feed_frame d d' cache w :
  d ≠ d' → (discover_rss_feed E d cache w).1.2 !! d' = cache !! d'.
Proof.
  intros Hne. unfold discover_rss_feed.
  destruct (discover_uncached_cache E d cache w) as [e [Hc _]].
  assert (Hmiss : (discover_uncached E d cache w).1.2 !! d' = cache !! d')
    by (rewrite Hc; by apply lookup_insert_ne).
  destruct (cache !! d) as [cached|]; [|exact Hmiss].
  destruct (opt_truthy (feed_url cached)); [done|].
  by destruct (default false (no_feed cached)).
Qed.

Lemma discover_rss_feed_settled d cache w e :
  cache !! d = Some e → is_resolved e ∨ is_no_feed e →
  (discover_rss_feed E d cache w).1.2 = cache.
Proof.
  intros Hlook He. unfold discover_rss_feed. rewrite Hlook.
  destruct He as [Hres|[Hurl Hno]].
  - unfold is_resolved in Hres. by rewrite Hres.
  - by rewrite Hurl, Hno.
Qed.

Lemma discover_rss_feed_dom d cache w :
  dom (discover_rss_feed E d cache w).1.2 = {[d]} ∪ dom cache.
Proof.
  unfold discover_rss_feed.
  destruct (discover_uncached_cache E d cache w) as [e [Hc _]].
  assert (Hmiss : dom (discover_uncached E d cache w).1.2 = {[d]} ∪ dom cache)
    by (rewrite Hc; apply dom_insert_L).
  destruct (cache !! d) as [cached|] eqn:Hlook; [|exact Hmiss].
  assert (Hin : d ∈ dom cache) by (apply elem_of_dom; by eexists).
  assert (Hhit : dom cache = {[d]} ∪ dom cache).
  { apply set_eq. intros x. rewrite elem_of_union, elem_of_singleton.
    split; [by right|]. by intros [->|Hx]. }
  destruct (opt_truthy (feed_url cached)); [exact Hhit|].
  by destruct (default false (no_feed cached)).
Qed.

Lemma discover_rss_feed_answer_cached d cache w u :
  (discover_rss_feed E d cache w).1.1 = Some u → u ≠ "" →
  ∃ e, (discover_rss_feed E d cache w).1.2 !! d = Some e ∧ feed_url e = Some u.
Proof.
  intros Hans Hne. apply str_truthy_spec in Hne.
  assert (Hmiss : (discover_uncached E d cache w).1.1 = Some u →
    ∃ e, (discover_uncached E d cache w).1.2 !! d = Some e ∧ feed_url e = Some u).
  { unfold discover_uncached.
    destruct (discover_rss_from_html E ("https://" +:+ d) w) as [f1 w1].
    destruct (if negb (opt_truthy f1)
              then discover_rss_from_html E ("https://www." +:+ d) w1
              else (f1, w1)) as [f2 w2].
    destruct (if negb (opt_truthy f2) then try_rss_patterns E d w2
              else (f2, w2)) as [f3 w3].
    destruct (datetime_now E w3) as [now w4].
    destruct (opt_truthy f3) eqn:Hf3; cbn [fst snd]; intros ->.
    - eexists. split; [apply lookup_insert_eq|done].
    - cbn in Hf3. congruence. }
  revert Hans. unfold discover_rss_feed.
  destruct (cache !! d) as [cached|] eqn:Hlook; [|exact Hmiss].
  destruct (opt_truthy (feed_url cached)) eqn:Hurl.
  - cbn [fst snd]. intros Hu. by exists cached.
  - destruct (default false (no_feed cached)); [done|exact Hmiss].
Qed.

End Logs.

(** The domains of the cache after a pass, and the entries it keeps. *)
Lemma discover_all_cache_inv
    (E : Env) (skip_discovery : bool) (domains : list string)
    (cache : gmap string CacheEntry) (feed_urls : list (string * string))
    (w : World) :
  dom (discover_all E skip_discovery domains cache feed_urls w).1.1
  = (if skip_discovery then dom cache else dom cache ∪ list_to_set domains)
  ∧ ∀ d e, cache !! d = Some e → is_resolved e ∨ is_no_feed e →
           (discover_all E skip_discovery domains cache feed_urls w).1.1 !! d
           = Some e.
Proof.
  revert cache feed_urls w.
  induction domains as [|d0 ds IH]; intros cache feed_urls w; cbn [discover_all].
  - split; [|done]. destruct skip_discovery; [done|].
    cbn. by rewrite union_empty_r_L.
  - destruct (skip_discovery && bool_decide (cache !! d0 = None)) eqn:Hskip.
    + apply andb_true_iff in Hskip as [-> _]. apply IH.
    + pose proof (discover_rss_feed_dom E d0 cache w) as Hdom.
      pose proof (λ d' Hne, discover_rss_feed_frame E d0 d' cache w Hne) as Hframe.
      pose proof (discover_rss_feed_settled E d0 cache w) as Hset.
      destruct (discover_rss_feed E d0 cache w) as [[f cache1] w1].
      cbn [fst snd] in *.
      assert (Hgoal : ∀ fu,
        dom (discover_all E skip_discovery ds cache1 fu w1).1.1
        = (if skip_discovery then dom cache
           else dom cache ∪ list_to_set (d0 :: ds))
        ∧ ∀ d e, cache !! d = Some e → is_resolved e ∨ is_no_feed e →
                 (discover_all E skip_discovery ds cache1 fu w1).1.1 !! d
                 = Some e).
      { intros fu. destruct (IH cache1 fu w1) as [IHdom IHkeep]. split.
        - rewrite IHdom, Hdom. destruct skip_discovery.
          + cbn in Hskip. apply bool_decide_eq_false in Hskip.
            assert (Hin : d0 ∈ dom cache).
            { apply elem_of_dom. by destruct (cache !! d0); [eexists|]. }
            apply set_eq. intros x.
            rewrite elem_of_union, elem_of_singleton. split; [|by right].
            by intros [->|Hx].
          + cbn [list_to_set foldr]. apply set_eq. intros x.
            rewrite !elem_of_union, elem_of_singleton. tauto.
        - intros d e Hd He. apply IHkeep; [|done].
          destruct (decide (d0 = d)) as [->|Hne].
          + by rewrite (Hset e Hd He).
          + by rewrite (Hframe d Hne). }
      destruct (opt_truthy f); apply Hgoal.
Qed.

(** X8: a discovery pass never removes a domain from the cache and
    never changes an entry that is already Resolved or NoFeed. With
    [skip_discovery] it adds no domain; without it every domain of the
    pass has an entry afterwards. *)
Theorem discover_all_cache_domains
    (E : Env) (skip_discovery : bool) (domains : list string)
    (cache : gmap string CacheEntry) (feed_urls : list (string * string))
    (w : World) :
  dom (discover_all E skip_discovery domains cache feed_urls w).1.1
  = (if skip_discovery then dom cache else dom cache ∪ list_to_set domains)
  ∧ ∀ d e, cache !! d = Some e → is_resolved e ∨ is_no_feed e →
           (discover_all E skip_discovery domains cache feed_urls w).1.1 !! d
           = Some e.
Proof.
  destruct (discover_all_cache_inv E skip_discovery domains cache feed_urls w)
    as [Hdom Hkeep].
  split; [exact Hdom|exact Hkeep].
Qed.

Lemma discover_all_cache_domains_witness :
  (discover_all offline_env false ["a.example"; "dead.example"]
     {[ "dead.example" := mkCacheEntry None (Some true) None None ]}
     [] fresh_world).1.1 !! "dead.example"
  = Some (mkCacheEntry None (Some true) None None).
Proof.
  apply (proj2 (discover_all_cache_domains offline_env false
    ["a.example"; "dead.example"]
    {[ "dead.example" := mkCacheEntry None (Some true) None None ]}
    [] fresh_world)).
  - apply lookup_singleton_eq.
  - right. by split.
Defined.

(** X9: every feed a discovery pass hands on to the parser is held by
    the cache the pass leaves, as the resolved feed of its domain. *)
Theorem discover_all_feeds_are_cached
    (E : Env) (skip_discovery : bool) (domains : list string)
    (cache : gmap string CacheEntry) (feed_urls : list (string * string))
    (w : World) (d u : string) :
  (d, u) ∈ (discover_all E skip_discovery domains cache feed_urls w).1.2 →
  (d, u) ∈ feed_urls
  ∨ (d ∈ domains ∧ u ≠ ""
     ∧ ∃ e, (discover_all E skip_discovery domains cache feed_urls w).1.1 !! d
            = Some e ∧ feed_url e = Some u).
Proof.
  revert cache feed_urls w.
  induction domains as [|d0 ds IH]; intros cache feed_urls w; cbn [discover_all].
  - by left.
  - assert (Hlift : ∀ cache1 fu w1,
      (d, u) ∈ (discover_all E skip_discovery ds cache1 fu w1).1.2 →
      (d, u) ∈ fu
      ∨ (d ∈ d0 :: ds ∧ u ≠ ""
         ∧ ∃ e, (discover_all E skip_discovery ds cache1 fu w1).1.1 !! d
                = Some e ∧ feed_url e = Some u)).
    { intros cache1 fu w1 Hin.
      destruct (IH cache1 fu w1 Hin) as [Hfu|[Hd Hrest]]; [by left|].
      right. split; [by apply list_elem_of_further|done]. }
    destruct (skip_discovery && bool_decide (cache !! d0 = None));
      [apply Hlift|].
    pose proof (discover_rss_feed_answer_cached E d0 cache w) as Hans.
    destruct (discover_rss_feed E d0 cache w) as [[f cache1] w1].
    cbn [fst snd] in Hans.
    destruct (opt_truthy f) eqn:Hf; [|apply Hlift].
    intros Hin. destruct (Hlift _ _ _ Hin) as [Hfu|Hrest]; [|by right].
    apply elem_of_app in Hfu as [Hfu|Hfu]; [by left|].
    apply list_elem_of_singleton in Hfu as [= -> ->].
    destruct f as [u0|]; [|discriminate]. cbn in Hf |- *.
    apply str_truthy_spec in Hf.
    destruct (Hans u0 eq_refl Hf) as [e [He Hurl]].
    right. split; [apply list_elem_of_here|]. split; [done|].
    exists e. split; [|done].
    apply (proj2 (discover_all_cache_inv E skip_discovery ds cache1
                    (feed_urls ++ [(d0, u0)]) w1)); [done|].
    left. unfold is_resolved. rewrite Hurl. by apply str_truthy_spec.
Qed.

Lemma discover_all_feeds_are_cached_witness :
  ("blog.example", "https://blog.example/rss.xml") ∈ ([] : list (string * string))
  ∨ ("blog.example" ∈ ["blog.example"]
     ∧ "https://blog.example/rss.xml" ≠ ""
     ∧ ∃ e, (discover_all blog_env false ["blog.example"] ∅ [] fresh_world).1.1
              !! "blog.example" = Some e
            ∧ feed_url e = Some "https://blog.example/rss.xml").
Proof.
  apply (discover_all_feeds_are_cached blog_env false ["blog.example"] ∅ []
           fresh_world).
  vm_compute. apply list_elem_of_here.
Defined.

(** ** The phases of a run *)

(** Equal lists of events, up to the nesting of [++]. *)
Ltac same_events :=
  repeat first [rewrite <- app_assoc | progress cbn [app]]; reflexivity.

Lemma compute_cutoff_logs (E : Env) (cron_mode : bool) (w : World) :
  only_logs is_now_or_cursor_read w (compute_cutoff E cron_mode w).2.
Proof.
  unfold compute_cutoff, get_last_cron_run, datetime_now.
  destruct cron_mode; [|by apply only_logs_log].
  assert (Hread : only_logs is_now_or_cursor_read w (log EvCursorRead w))
    by (by apply only_logs_log).
  destruct (cron_state w) as [[t|s]|]; try done;
    (eapply only_logs_trans; [exact Hread|by apply only_logs_log]).
Qed.

(** X10: when the crawl results cannot be loaded the run exits with
    status 1 before anything else happens: no request is made, the
    feeds cache file is not written and the cursor row is not
    changed. *)
Theorem run_sync_missing_crawl_exits
    (E : Env) (cron_mode skip_discovery : bool) (limit_domains : Z)
    (verbose : bool) (w : World) :
  crawl_results_file w = None →
  fst (run_sync E cron_mode skip_discovery limit_domains verbose w) = Exited 1
  ∧ only_logs is_startup_event w
      (snd (run_sync E cron_mode skip_discovery limit_domains verbose w)).
Proof.
  intros Hfile. unfold run_sync, get_current_week, datetime_now, load_crawl_results.
  pose proof (compute_cutoff_logs E cron_mode (log EvNow w)) as Hcut.
  destruct (compute_cutoff E cron_mode (log EvNow w)) as [cutoff w2].
  cbn [snd] in Hcut.
  assert (Hfile2 : crawl_results_file w2 = None).
  { destruct Hcut as [_ [_ [Hc _]]]. by rewrite Hc. }
  rewrite Hfile2. split; [done|]. cbn [snd].
  eapply only_logs_trans; [by apply (only_logs_log is_startup_event EvNow)|].
  eapply only_logs_trans.
  - eapply only_logs_weaken; [|exact Hcut]. by intros [].
  - by apply only_logs_log.
Qed.

Lemma run_sync_missing_crawl_exits_witness :
  fst (run_sync offline_env true false 0 false fresh_world) = Exited 1.
Proof.
  apply (run_sync_missing_crawl_exits offline_env true false 0 false fresh_world).
  reflexivity.
Defined.

(** X11: a run that returns went through its phases in order. After
    the clock and the cursor were read, the crawl results and the cache
    were loaded; then came the requests of the discovery, then the one
    write of the cache file, then the requests for the feeds, then the
    commit and the cursor. Nothing is requested after the commit, and
    no feed is fetched before the cache is saved. *)
Theorem run_sync_phases
    (E : Env) (cron_mode skip_discovery : bool) (limit_domains : Z)
    (verbose : bool) (w w' : World) (n : Z) :
  run_sync E cron_mode skip_discovery limit_domains verbose w = (Returned n, w') →
  ∃ pre disc parse tail,
    events w'
    = events w ++ pre ++ EvLoadCrawl :: EvLoadCache :: disc
      ++ EvSaveCache :: parse ++ tail
    ∧ forallb is_now_or_cursor_read pre = true
    ∧ forallb is_get_or_now disc = true
    ∧ forallb is_get parse = true
    ∧ forallb is_commit_event tail = true.
Proof.
  unfold run_sync, get_current_week, datetime_now, load_crawl_results,
    load_feeds_cache.
  pose proof (compute_cutoff_logs E cron_mode (log EvNow w)) as Hcut.
  destruct (compute_cutoff E cron_mode (log EvNow w)) as [cutoff w2].
  cbn [snd] in Hcut. destruct Hcut as [[pre0 [Hpre0 Hpre0ok]] _].
  destruct (crawl_results_file w2) as [crawl_data|]; [|discriminate].
  destruct (extract_domains_from_crawl E crawl_data) as [domains|];
    [|discriminate].
  set (w4 := log EvLoadCache (log EvLoadCrawl w2)).
  set (sorted := merge_sort _ _).
  pose proof (discover_all_logs E skip_discovery sorted
                (default ∅ (feeds_cache_file (log EvLoadCrawl w2))) [] w4) as Hdisc.
  destruct (discover_all E skip_discovery sorted _ [] w4)
    as [[cache feed_urls] w5].
  cbn [snd] in Hdisc. destruct Hdisc as [[disc [Hdisc Hdiscok]] _].
  assert (Hw6 : events (save_feeds_cache cache w5)
                = events w ++ (EvNow :: pre0) ++ EvLoadCrawl :: EvLoadCache
                  :: disc ++ [EvSaveCache]).
  { unfold save_feeds_cache. cbn [events log]. rewrite Hdisc. subst w4.
    cbn [events log]. rewrite Hpre0. cbn [events log]. same_events. }
  assert (Hpreok : forallb is_now_or_cursor_read (EvNow :: pre0) = true)
    by (by cbn).
  destruct (is_nil feed_urls).
  { intros [= <- <-]. exists (EvNow :: pre0), disc, [], [].
    rewrite Hw6. repeat split; try done; rewrite ?app_nil_r; same_events. }
  pose proof (parse_all_logs E cutoff feed_urls [] (save_feeds_cache cache w5))
    as Hparse.
  destruct (parse_all E cutoff feed_urls [] (save_feeds_cache cache w5))
    as [all_items w7].
  cbn [snd] in Hparse. destruct Hparse as [[parse [Hparse Hparseok]] _].
  assert (Hshape : ∀ w8 tail,
            events w8 = events w7 ++ tail →
            forallb is_commit_event tail = true →
            ∃ pre disc parse tail,
              events w8
              = events w ++ pre ++ EvLoadCrawl :: EvLoadCache :: disc
                ++ EvSaveCache :: parse ++ tail
              ∧ forallb is_now_or_cursor_read pre = true
              ∧ forallb is_get_or_now disc = true
              ∧ forallb is_get parse = true
              ∧ forallb is_commit_event tail = true).
  { intros w8 tail Hw8 Htail. exists (EvNow :: pre0), disc, parse, tail.
    rewrite Hw8, Hparse, Hw6. repeat split; try done; same_events. }
  destruct (is_nil (deduplicate all_items)).
  - intros [= <- <-]. destruct cron_mode.
    + apply (Hshape _ [EvNow; EvCursorWrite (clock E (events w7))]); [|done].
      unfold set_last_cron_run, datetime_now. cbn [events log]. same_events.
    + apply (Hshape _ []); [|done]. by rewrite app_nil_r.
  - unfold upsert_articles, datetime_now.
    intros [= <- <-]. destruct cron_mode.
    + eapply (Hshape _ [EvNow; EvUpsert _ _; EvNow; EvCursorWrite _]); [|done].
      unfold set_last_cron_run, datetime_now. cbn [events log]. same_events.
    + eapply (Hshape _ [EvNow; EvUpsert _ _]); [|done].
      cbn [events log]. same_events.
Qed.

Lemma run_sync_phases_witness :
  ∃ pre disc parse tail,
    events (snd (run_sync offline_env true false 0 false outage_world))
    = events outage_world ++ pre ++ EvLoadCrawl :: EvLoadCache :: disc
      ++ EvSaveCache :: parse ++ tail
    ∧ forallb is_now_or_cursor_read pre = true
    ∧ forallb is_get_or_now disc = true
    ∧ forallb is_get parse = true
    ∧ forallb is_commit_event tail = true.
Proof.
  destruct (run_sync offline_env true false 0 false outage_world)
    as [outcome w'] eqn:Hrun.
  assert (Hout : outcome = Returned 0).
  { apply (f_equal fst) in Hrun. vm_compute in Hrun. congruence. }
  subst outcome.
  exact (run_sync_phases offline_env true false 0 false outage_world w' 0 Hrun).
Defined.




(** ** Options of a run *)

Lemma same_dom_same_filter (c1 c2 : gmap string CacheEntry) (ds : list string) :
  dom c1 = dom c2 →
  List.filter (λ d, bool_decide (is_Some (c1 !! d))) ds
  = List.filter (λ d, bool_decide (is_Some (c2 !! d))) ds.
Proof.
  intros Hdom. induction ds as [|d ds IH]; simpl; [done|].
  assert (Hd : bool_decide (is_Some (c1 !! d)) = bool_decide (is_Some (c2 !! d))).
  { apply bool_decide_ext. by rewrite <- !elem_of_dom, Hdom. }
  by rewrite Hd, IH.
Qed.

(** X13: with [skip_discovery] the pass is the pass without it over
    the domains that have an entry in the cache, in the same order: a
    domain unknown to the cache causes no request and gets no entry. *)
Theorem skip_discovery_ignores_unknown_domains
    (E : Env) (domains : list string) (cache : gmap string CacheEntry)
    (feed_urls : list (string * string)) (w : World) :
  discover_all E true domains cache feed_urls w
  = discover_all E false
      (List.filter (λ d, bool_decide (is_Some (cache !! d))) domains)
      cache feed_urls w.
Proof.
  revert cache feed_urls w.
  induction domains as [|d0 ds IH]; intros cache feed_urls w; [done|].
  cbn [discover_all List.filter andb].
  destruct (cache !! d0) as [cached|] eqn:Hlook.
  - rewrite bool_decide_eq_false_2 by done.
    rewrite bool_decide_eq_true_2 by (by eexists).
    cbn [discover_all andb].
    pose proof (discover_rss_feed_dom E d0 cache w) as Hdom.
    destruct (discover_rss_feed E d0 cache w) as [[f cache1] w1].
    cbn [fst snd] in Hdom.
    assert (Hsame : dom cache1 = dom cache).
    { rewrite Hdom. apply set_eq. intros x.
      rewrite elem_of_union, elem_of_singleton. split; [|by right].
      intros [->|Hx]; [|done]. apply elem_of_dom. by eexists. }
    rewrite <- (same_dom_same_filter cache1 cache ds Hsame).
    destruct (opt_truthy f); apply IH.
  - rewrite bool_decide_eq_true_2 by done.
    rewrite bool_decide_eq_false_2 by (by intros [x Hx]).
    apply IH.
Qed.

(** X14: the limit keeps a subset of the domains of at most that size;
    a limit of 0 or less, or one that the set does not exceed, keeps
    the set as it is. *)
Theorem limit_to_bounds (limit_domains : Z) (domains : gset string) :
  limit_to limit_domains domains ⊆ domains
  ∧ (0 < limit_domains →
     (size (limit_to limit_domains domains) ≤ Z.to_nat limit_domains)%nat)
  ∧ (limit_domains ≤ 0 → limit_to limit_domains domains = domains)
  ∧ (Z.of_nat (size domains) ≤ limit_domains →
     limit_to limit_domains domains = domains).
Proof.
  unfold limit_to. split; [|split; [|split]].
  - destruct (0 <? limit_domains); [|done].
    intros x Hx. apply elem_of_list_to_set in Hx.
    apply elem_of_elements. by apply (subseteq_take (Z.to_nat limit_domains)).
  - intros Hpos. apply Z.ltb_lt in Hpos. rewrite Hpos.
    rewrite size_list_to_set.
    + rewrite length_take. lia.
    + apply (sublist_NoDup _ (elements domains));
        [apply NoDup_elements|apply sublist_take].
  - intros Hle. by rewrite (proj2 (Z.ltb_ge 0 limit_domains) Hle).
  - intros Hle. destruct (0 <? limit_domains); [|done].
    rewrite take_ge.
    + apply list_to_set_elements_L.
    + unfold size, set_size in Hle. simpl in Hle. lia.
Qed.

Lemma limit_to_bounds_witness :
  (size (limit_to 1 ({[ "a.example"; "b.example" ]} : gset string)) ≤ Z.to_nat 1)%nat.
Proof.
  apply (proj1 (proj2 (limit_to_bounds 1 {[ "a.example"; "b.example" ]}))).
  lia.
Defined.

(** ** Feed items *)

Lemma str_take_length n s : (String.length (str_take n s) ≤ n)%nat.
Proof.
  revert s. induction n as [|n IH]; intros s; simpl; [lia|].
  destruct s as [|a s]; simpl; [lia|]. specialize (IH s). lia.
Qed.

Lemma clean_summary_length (E : Env) summary :
  (String.length (clean_summary E summary) ≤ 500)%nat.
Proof.
  unfold clean_summary. destruct summary as [|a s]; cbn [str_truthy].
  - cbn. lia.
  - apply str_take_length.
Qed.

Lemma parse_entries_items (E : Env) feed_url cutoff_date es items out :
  parse_entries E feed_url cutoff_date es items = Some out →
  ∃ new, out = items ++ new
         ∧ (length new ≤ length es)%nat
         ∧ Forall (λ item, (String.length (item_summary item) ≤ 500)%nat
                           ∧ urlparse_netloc E feed_url = Some (item_source item))
                  new.
Proof.
  revert items. induction es as [|e es IH]; intros items; cbn [parse_entries].
  - intros [= <-]. exists []. rewrite app_nil_r. repeat split; [done|constructor].
  - destruct (is_old cutoff_date (pub_date_of e)).
    + intros Hrun. destruct (IH _ Hrun) as [new [-> [Hlen Hall]]].
      exists new. repeat split; [cbn [length]; lia|done].
    + unfold make_item.
      destruct (urlparse_netloc E feed_url) as [src|] eqn:Hsrc; [|done].
      cbn [mbind option_bind]. intros Hrun.
      destruct (IH _ Hrun) as [new [-> [Hlen Hall]]].
      eexists (_ :: new). rewrite <- app_assoc. split; [reflexivity|].
      split; [cbn [length]; lia|]. constructor; [|done].
      split; [apply clean_summary_length|done].
Qed.

(** X15: [parse_feed] returns at most [MAX_FEED_ITEMS] items; the
    summary of each has at most 500 characters and its source is the
    netloc of the feed URL. *)
Theorem parse_feed_items_bounded
    (E : Env) (feed_url : string) (cutoff_date : option datetime) (w : World) :
  (length (fst (parse_feed E feed_url cutoff_date w)) ≤ MAX_FEED_ITEMS)%nat
  ∧ Forall (λ item, (String.length (item_summary item) ≤ 500)%nat
                    ∧ urlparse_netloc E feed_url = Some (item_source item))
           (fst (parse_feed E feed_url cutoff_date w)).
Proof.
  assert (Hnil : (length ([] : list FeedItem) ≤ MAX_FEED_ITEMS)%nat
    ∧ Forall (λ item, (String.length (item_summary item) ≤ 500)%nat
                      ∧ urlparse_netloc E feed_url = Some (item_source item))
             ([] : list FeedItem)).
  { split; [cbn; lia|constructor]. }
  unfold parse_feed.
  destruct (http_get E (events w) feed_url) as [r|]; [|exact Hnil].
  destruct (raises_for_status r); [exact Hnil|].
  destruct (feedparser_parse E (text r)) as [feed|]; [|exact Hnil].
  destruct (bozo feed && is_nil (entries feed)); [exact Hnil|].
  destruct (match cutoff_date with
            | Some c => (c, log (EvGet feed_url) w)
            | None => let '(now, w') := datetime_now E (log (EvGet feed_url) w) in
                      (now - timedelta_days DAYS_LOOKBACK, w')
            end) as [cutoff w2].
  destruct (parse_entries E feed_url cutoff (take MAX_FEED_ITEMS (entries feed)) [])
    as [items|] eqn:Hrun; [|exact Hnil].
  destruct (parse_entries_items E _ _ _ _ _ Hrun) as [new [-> [Hlen Hall]]].
  cbn [fst app]. split; [|done].
  rewrite length_take in Hlen. lia.
Qed.

(** ** db.py: hosts of a subscription *)

Lemma lower_char_not_upper a : is_upper (lower_char a) = false.
Proof. destruct a as [[] [] [] [] [] [] [] []]; reflexivity. Qed.

Lemma lower_char_slash a : Ascii.eqb (lower_char a) "/" = Ascii.eqb a "/".
Proof. destruct a as [[] [] [] [] [] [] [] []]; reflexivity. Qed.

Lemma lower_no_upper s : all_chars (λ a, negb (is_upper a)) (lower s) = true.
Proof.
  induction s as [|a s IH]; simpl; [done|].
  by rewrite lower_char_not_upper, IH.
Qed.

Lemma lower_has_slash s : has_char "/" (lower s) = has_char "/" s.
Proof.
  induction s as [|a s IH]; simpl; [done|]. by rewrite lower_char_slash, IH.
Qed.

Lemma lstrip_has_char c s : has_char c (lstrip s) = true → has_char c s = true.
Proof.
  induction s as [|a s IH]; simpl; [done|].
  destruct (is_space a); [|done].
  intros H. rewrite (IH H). apply orb_true_r.
Qed.

Lemma rstrip_has_char c s : has_char c (rstrip s) = true → has_char c s = true.
Proof.
  induction s as [|a s IH]; simpl; [done|].
  destruct (rstrip s) as [|b r] eqn:Hr.
  - destruct (is_space a); simpl; [done|].
    rewrite orb_false_r. intros ->. done.
  - cbn [has_char]. intros H. apply orb_true_iff in H as [H|H].
    + by rewrite H.
    + rewrite (IH H). apply orb_true_r.
Qed.

Lemma strip_has_char c s : has_char c (strip s) = true → has_char c s = true.
Proof. intros H. by apply lstrip_has_char, rstrip_has_char. Qed.

Lemma str_drop_has_char c n s :
  has_char c (str_drop n s) = true → has_char c s = true.
Proof.
  revert s. induction n as [|n IH]; intros s; [by destruct s|].
  destruct s as [|a s]; [done|]. cbn [str_drop has_char].
  intros H. rewrite (IH _ H). apply orb_true_r.
Qed.

Lemma str_drop_all_chars p n s :
  all_chars p s = true → all_chars p (str_drop n s) = true.
Proof.
  revert s. induction n as [|n IH]; intros s; [by destruct s|].
  destruct s as [|a s]; [done|]. cbn [str_drop all_chars].
  intros H. apply andb_true_iff in H as [_ H]. by apply IH.
Qed.

Lemma partition_at_before c s before after :
  partition_at c s = Some (before, after) → has_char c before = false.
Proof.
  revert before after.
  induction s as [|a s IH]; intros before after; simpl; [done|].
  destruct (Ascii.eqb a c) eqn:Hac; [by intros [= <- _]|].
  destruct (partition_at c s) as [[b af]|] eqn:Hp; [|done].
  intros [= <- _]. simpl. by rewrite Hac, (IH b af).
Qed.

Lemma partition_at_none c s : partition_at c s = None → has_char c s = false.
Proof.
  induction s as [|a s IH]; simpl; [done|].
  destruct (Ascii.eqb a c); [done|].
  destruct (partition_at c s) as [[b af]|]; [done|]. intros _. by apply IH.
Qed.

Lemma first_segment_no_slash s : has_char "/" (first_segment s) = false.
Proof.
  unfold first_segment. destruct (partition_at "/" s) as [[b af]|] eqn:Hp.
  - by apply (partition_at_before _ _ _ _ Hp).
  - by apply partition_at_none.
Qed.

(** X16: a host in normal form holds no [/] and no capital letter of
    ASCII; the normal form of [None], of the empty text and of white
    space is the empty text. *)
Theorem normalize_host_shape (E : Env) (value : option string) (host : string) :
  _normalize_host E value = Some host →
  has_char "/" host = false
  ∧ all_chars (λ a, negb (is_upper a)) host = true
  ∧ (is_blank value → host = "").
Proof.
  unfold _normalize_host, is_blank.
  destruct (str_truthy (lower (strip (default "" value)))) eqn:Htext; cbn [negb].
  2:{ intros [= <-]. done. }
  set (text := lower (strip (default "" value))) in *.
  destruct (if startswith "http://" text || startswith "https://" text
            then lower <$> urlparse_netloc E text
            else Some (lower (strip (first_segment text)))) as [h|] eqn:Hh;
    [|done].
  cbn [mbind option_bind]. remember (startswith "www." h) as www eqn:Hwww.
  intros [= <-].
  assert (Hslash : has_char "/" h = false).
  { destruct (startswith "http://" text || startswith "https://" text).
    - destruct (urlparse_netloc E text) as [nl|] eqn:Hnl; [|discriminate Hh].
      injection Hh as <-. rewrite lower_has_slash.
      by apply (urlparse_netloc_no_delim E text nl "/").
    - injection Hh as <-. rewrite lower_has_slash.
      apply not_true_iff_false. intros H. apply strip_has_char in H.
      by rewrite first_segment_no_slash in H. }
  assert (Hup : all_chars (λ a, negb (is_upper a)) h = true).
  { destruct (startswith "http://" text || startswith "https://" text).
    - destruct (urlparse_netloc E text) as [nl|]; [|discriminate Hh].
      injection Hh as <-. apply lower_no_upper.
    - injection Hh as <-. apply lower_no_upper. }
  split; [|split].
  - destruct www; [|exact Hslash].
    apply not_true_iff_false. intros H.
    apply (str_drop_has_char "/" 4 h) in H. congruence.
  - destruct www; [|exact Hup]. by apply (str_drop_all_chars _ 4 h).
  - intros Hblank. subst text. rewrite Hblank in Htext. discriminate.
Qed.

Lemma normalize_host_shape_witness :
  has_char "/" "blog.example" = false
  ∧ all_chars (λ a, negb (is_upper a)) "blog.example" = true
  ∧ (is_blank (Some "  https://WWW.Blog.example/feed ") → "blog.example" = "").
Proof.
  apply (normalize_host_shape offline_env (Some "  https://WWW.Blog.example/feed ")).
  reflexivity.
Defined.

Lemma NoDup_map_same {A B} (f : A → B) (l : list A) (x y : A) :
  NoDup (map f l) → x ∈ l → y ∈ l → f x = f y → x = y.
Proof.
  induction l as [|a l IH]; simpl; intros Hnd Hx Hy Hf.
  - by apply elem_of_nil in Hx.
  - apply NoDup_cons in Hnd as [Ha Hnd].
    apply elem_of_cons in Hx as [->|Hx]; apply elem_of_cons in Hy as [->|Hy].
    + done.
    + destruct Ha. rewrite Hf. apply list_elem_of_fmap. by exists y.
    + destruct Ha. rewrite <- Hf. apply list_elem_of_fmap. by exists x.
    + by apply IH.
Qed.

Lemma sublist_map {A B} (f : A → B) (l1 l2 : list A) :
  sublist l1 l2 → sublist (map f l1) (map f l2).
Proof.
  induction 1; simpl; [constructor|by apply sublist_skip|by apply sublist_cons].
Qed.

Lemma filter_sublist {A} (P : A → bool) (l : list A) : sublist (List.filter P l) l.
Proof.
  induction l as [|a l IH]; simpl; [constructor|].
  destruct (P a); [by apply sublist_skip|by apply sublist_cons].
Qed.

Section Subscriptions.

Variable E : Env.

Lemma normalize_host_blank o :
  is_blank o → _normalize_host E (Some (default "" o)) = Some "".
Proof.
  unfold is_blank, _normalize_host. cbn [default from_option id].
  intros Hblank. fold (default "" o). by rewrite Hblank.
Qed.

Lemma add_hosts_no_empty candidates hosts hosts' :
  add_hosts E candidates hosts = Some hosts' → "" ∉ hosts → "" ∉ hosts'.
Proof.
  revert hosts. induction candidates as [|c cs IH]; intros hosts; simpl.
  - by intros [= <-].
  - destruct (_normalize_host E c) as [h|]; [|done]. cbn [mbind option_bind].
    intros Hrun Hno. apply (IH _ Hrun).
    destruct (str_truthy h) eqn:Hh; [|done].
    apply str_truthy_spec in Hh.
    rewrite elem_of_union, elem_of_singleton. intros [Heq|Hin]; by auto.
Qed.

Lemma subscription_hosts_no_empty domain feed_url hosts :
  _subscription_match_hosts E domain feed_url = Some hosts → "" ∉ hosts.
Proof.
  intros Hrun. apply (add_hosts_no_empty _ _ _ Hrun), not_elem_of_empty.
Qed.

Lemma row_matches_not_blank hosts row :
  "" ∉ hosts → row_matches E hosts row = true →
  ¬ (is_blank (art_source row) ∧ is_blank (art_url row)).
Proof.
  intros Hno Hm [Hs Hu]. unfold row_matches in Hm.
  rewrite (normalize_host_blank _ Hs), (normalize_host_blank _ Hu) in Hm.
  apply orb_true_iff in Hm as [Hm|Hm]; by apply bool_decide_eq_true in Hm.
Qed.

(** The loop collects, in table order, the ids of the rows that match;
    it ends without an exception on every part of a table on which it
    ends without one. *)
Lemma match_rows_spec hosts rows matched_ids out :
  match_rows E hosts rows matched_ids = Some out →
  out = matched_ids ++ map art_id (List.filter (row_matches E hosts) rows)
  ∧ ∀ P acc, match_rows E hosts (List.filter P rows) acc
             = Some (acc ++ map art_id
                       (List.filter (row_matches E hosts) (List.filter P rows))).
Proof.
  revert matched_ids.
  induction rows as [|row rows IH]; intros matched_ids; cbn [match_rows].
  - intros [= <-]. split; [by rewrite app_nil_r|].
    intros P acc. cbn. by rewrite app_nil_r.
  - destruct (_normalize_host E (Some (default "" (art_source row))))
      as [sh|] eqn:Hsh; [|done].
    destruct (_normalize_host E (Some (default "" (art_url row))))
      as [uh|] eqn:Huh; [|done].
    cbn [mbind option_bind]. intros Hrun.
    destruct (IH _ Hrun) as [-> Hsub].
    assert (Hm : row_matches E hosts row
                 = bool_decide (sh ∈ hosts) || bool_decide (uh ∈ hosts))
      by (unfold row_matches; by rewrite Hsh, Huh).
    split.
    + cbn [List.filter]. rewrite Hm.
      destruct (bool_decide (sh ∈ hosts) || bool_decide (uh ∈ hosts));
        [by rewrite <- app_assoc|done].
    + intros P acc. cbn [List.filter]. destruct (P row); [|apply Hsub].
      cbn [match_rows List.filter]. rewrite Hsh, Huh. cbn [mbind option_bind].
      rewrite Hsub, Hm.
      destruct (bool_decide (sh ∈ hosts) || bool_decide (uh ∈ hosts));
        [by rewrite <- app_assoc|done].
Qed.

End Subscriptions.

(** X17: the ids matched for a subscription are ids of stored articles,
    in table order, and each belongs to an article whose source or URL
    is not blank: an article without source and without URL is matched
    by no subscription. *)
Theorem matched_articles_have_hosts
    (E : Env) (domain feed_url : option string) (db : Database)
    (ids : list string) :
  _get_matching_article_ids_for_subscription E domain feed_url db = Some ids →
  sublist ids (map art_id (articles db))
  ∧ ∀ id, id ∈ ids →
      ∃ row, row ∈ articles db ∧ art_id row = id
             ∧ ¬ (is_blank (art_source row) ∧ is_blank (art_url row)).
Proof.
  unfold _get_matching_article_ids_for_subscription.
  destruct (_subscription_match_hosts E domain feed_url) as [hosts|] eqn:Hh;
    [|done].
  cbn [mbind option_bind].
  destruct (bool_decide (hosts = ∅)).
  { intros [= <-]. split; [apply sublist_nil_l|].
    intros id Hid. by apply elem_of_nil in Hid. }
  intros Hrun. destruct (match_rows_spec E _ _ _ _ Hrun) as [-> _].
  cbn [app]. split.
  - apply sublist_map, filter_sublist.
  - intros id Hid. apply list_elem_of_fmap in Hid as [row [-> Hrow]].
    apply list_elem_of_In, filter_In in Hrow as [Hin Hm].
    exists row. split; [by apply list_elem_of_In|]. split; [done|].
    apply (row_matches_not_blank E hosts); [|done].
    by apply (subscription_hosts_no_empty E domain feed_url).
Qed.

Lemma matched_articles_have_hosts_witness :
  sublist ["id-blog"] (map art_id (articles small_db)).
Proof.
  apply (matched_articles_have_hosts offline_env (Some "Blog.Example")
           (Some "https://blog.example/rss.xml") small_db ["id-blog"]).
  reflexivity.
Defined.

(** X18: after the articles of a subscription were deleted, no article
    matches the subscription any more; the tables only lost rows, the
    curation rows that are left still have their articles, and the ids
    stay unique. When the ids are unique, the number returned is the
    number of articles that matched before. *)
Theorem delete_articles_for_subscription_spec
    (E : Env) (domain feed_url : option string) (db db' : Database) (n : nat) :
  delete_articles_for_subscription E domain feed_url db = Some (n, db') →
  get_subscription_article_count E domain feed_url db' = Some 0%nat
  ∧ (article_ids_unique db →
     get_subscription_article_count E domain feed_url db = Some n)
  ∧ sublist (articles db') (articles db)
  ∧ sublist (curation db') (curation db)
  ∧ (curation_has_articles db → curation_has_articles db')
  ∧ (article_ids_unique db → article_ids_unique db').
Proof.
  unfold delete_articles_for_subscription, get_subscription_article_count.
  destruct (_get_matching_article_ids_for_subscription E domain feed_url db)
    as [ids|] eqn:Hids; [|done].
  cbn [mbind option_bind].
  destruct (is_nil ids) eqn:Hnil.
  { intros [= <- <-]. rewrite Hids. destruct ids; [|discriminate].
    repeat split; done. }
  unfold sql_delete. intros [= <- <-]. cbn [articles curation].
  revert Hids. unfold _get_matching_article_ids_for_subscription.
  destruct (_subscription_match_hosts E domain feed_url) as [hosts|] eqn:Hh;
    [|done].
  cbn [mbind option_bind].
  destruct (bool_decide (hosts = ∅)) eqn:Hempty.
  { intros [= <-]. discriminate. }
  intros Hrun. destruct (match_rows_spec E _ _ _ _ Hrun) as [Hids Hsub].
  cbn [app] in Hids.
  set (keep := λ r : ArticleRow, negb (bool_decide (art_id r ∈ ids))).
  assert (Hin_ids : ∀ r, r ∈ articles db → row_matches E hosts r = true →
                    art_id r ∈ ids).
  { intros r Hr Hm. rewrite Hids. apply list_elem_of_fmap. exists r.
    split; [done|]. apply list_elem_of_In, filter_In.
    split; [by apply list_elem_of_In|done]. }
  assert (Hnone : List.filter (row_matches E hosts) (List.filter keep (articles db))
                  = []).
  { destruct (List.filter (row_matches E hosts) (List.filter keep (articles db)))
      as [|r l] eqn:Hf; [done|].
    assert (Hr : In r (List.filter (row_matches E hosts)
                         (List.filter keep (articles db))))
      by (rewrite Hf; by left).
    apply filter_In in Hr as [Hr Hm]. apply filter_In in Hr as [Hr Hk].
    unfold keep in Hk. apply negb_true_iff, bool_decide_eq_false in Hk.
    destruct Hk. apply Hin_ids; [by apply list_elem_of_In|done]. }
  split; [|split; [|split; [|split; [|split]]]].
  - cbn [articles]. rewrite (Hsub keep []), Hnone. done.
  - intros Hunique. cbn [fmap option_fmap option_map]. f_equal.
    pose proof (f_equal length Hids) as Hlen. rewrite length_map in Hlen.
    rewrite Hlen. f_equal. symmetry.
    apply filter_ext_in. intros r Hr. apply list_elem_of_In in Hr.
    destruct (row_matches E hosts r) eqn:Hm.
    + apply bool_decide_eq_true. by apply Hin_ids.
    + apply bool_decide_eq_false. intros Hid. rewrite Hids in Hid.
      apply list_elem_of_fmap in Hid as [r' [Heq Hr']].
      apply list_elem_of_In, filter_In in Hr' as [Hr' Hm'].
      apply list_elem_of_In in Hr'.
      assert (r = r') by (by apply (NoDup_map_same art_id (articles db))).
      subst r'. congruence.
  - apply filter_sublist.
  - apply filter_sublist.
  - intros Hfk r Hr. apply list_elem_of_In, filter_In in Hr as [Hr Hk].
    apply list_elem_of_In in Hr.
    specialize (Hfk r Hr). apply list_elem_of_fmap in Hfk as [a [Heq Ha]].
    apply list_elem_of_fmap. exists a. split; [done|].
    apply list_elem_of_In, filter_In. split; [by apply list_elem_of_In|].
    unfold keep. by rewrite <- Heq.
  - unfold article_ids_unique. cbn [articles]. intros Hunique.
    eapply sublist_NoDup; [exact Hunique|]. apply sublist_map, filter_sublist.
Qed.

Lemma delete_articles_for_subscription_spec_witness :
  get_subscription_article_count offline_env (Some "blog.example") None
    (mkDb [other_article; blank_article]
          [pending_row "id-other"; pending_row "id-blank"])
  = Some 0%nat.
Proof.
  assert (Hrun : delete_articles_for_subscription offline_env
                   (Some "blog.example") None small_db
                 = Some (1%nat,
                         mkDb [other_article; blank_article]
                              [pending_row "id-other"; pending_row "id-blank"]))
    by (vm_compute; reflexivity).
  exact (proj1 (delete_articles_for_subscription_spec offline_env
                  (Some "blog.example") None small_db _ 1%nat Hrun)).
Defined.

(** ** db.py: curation state *)

Lemma sql_update_rowcount {Row} (where_ : Row → bool) (set : Row → Row) rows :
  bool_decide (0 < (sql_update where_ set rows).2)%nat = existsb where_ rows.
Proof.
  unfold sql_update. cbn [snd].
  induction rows as [|r rows IH]; simpl; [done|].
  destruct (where_ r); simpl; [|exact IH].
  reflexivity.
Qed.

Lemma sql_update_length {Row} (where_ : Row → bool) (set : Row → Row) rows :
  length (sql_update where_ set rows).1 = length rows.
Proof. unfold sql_update. cbn [fst]. apply length_map. Qed.

Lemma sql_update_elem {Row} (where_ : Row → bool) (set : Row → Row) rows row :
  row ∈ (sql_update where_ set rows).1 ↔
  ∃ r, r ∈ rows ∧ row = (if where_ r then set r else r).
Proof.
  unfold sql_update. cbn [fst]. rewrite list_elem_of_In, in_map_iff.
  split; intros [r [H1 H2]]; exists r; rewrite ?list_elem_of_In in *; by auto.
Qed.

Lemma sql_update_ids (where_ : CurationRow → bool) (set : CurationRow → CurationRow)
    rows :
  (∀ r, cur_article_id (set r) = cur_article_id r) →
  map cur_article_id (sql_update where_ set rows).1 = map cur_article_id rows.
Proof.
  intros Hid. unfold sql_update. cbn [fst]. rewrite map_map.
  apply map_ext. intros r. by destruct (where_ r).
Qed.

Lemma sql_update_Forall {Row} (P : Row → Prop) (where_ : Row → bool)
    (set : Row → Row) rows :
  Forall P rows →
  (∀ r, r ∈ rows → where_ r = true → P r → P (set r)) →
  Forall P (sql_update where_ set rows).1.
Proof.
  intros Hall Hset. apply Forall_forall. intros row Hrow.
  apply sql_update_elem in Hrow as [r [Hr ->]].
  rewrite Forall_forall in Hall.
  destruct (where_ r) eqn:Hw; [by apply Hset; auto|by apply Hall].
Qed.

Lemma sql_update_nothing {Row} (where_ : Row → bool) (set : Row → Row) rows :
  Forall (λ r, where_ r = false) rows →
  sql_update where_ set rows = (rows, 0%nat).
Proof.
  unfold sql_update. induction 1 as [|r rows Hr Hall IH]; simpl; [done|].
  rewrite Hr. by injection IH as -> ->.
Qed.

Lemma valid_status_cases status :
  valid_status status = true →
  status = "pending" ∨ status = "shortlisted" ∨ status = "rejected".
Proof.
  unfold valid_status. simpl. rewrite !orb_true_iff, !String.eqb_eq.
  intros [H|[H|[H|H]]]; by auto.
Qed.

(** X19: [set_article_status] refuses a status that is not one of the
    three and then changes nothing. Otherwise it succeeds exactly when
    the article has a curation row; it leaves the articles and the rows
    of the other articles alone, and the rows of the article carry the
    new status, with the top-pick flag cleared unless the status is
    "shortlisted". *)
Theorem set_article_status_spec
    (E : Env) (article_id status : string) (notes : option string)
    (db : Database) (w : World) :
  let result := set_article_status E article_id status notes db w in
  (valid_status status = false → result = (false, db, w))
  ∧ result.1.1
    = valid_status status
      && existsb (λ r, String.eqb (cur_article_id r) article_id) (curation db)
  ∧ articles result.1.2 = articles db
  ∧ length (curation result.1.2) = length (curation db)
  ∧ (∀ row, row ∈ curation result.1.2 → cur_article_id row ≠ article_id →
            row ∈ curation db)
  ∧ (valid_status status = true →
     ∀ row, row ∈ curation result.1.2 → cur_article_id row = article_id →
            cur_status row = Some status
            ∧ (status ≠ "shortlisted" → cur_top_pick row = Some 0)).
Proof.
  cbn zeta. unfold set_article_status, datetime_now.
  destruct (valid_status status) eqn:Hvalid; cbn [negb andb].
  2:{ repeat split; try done. }
  set (where_ := λ r : CurationRow, String.eqb (cur_article_id r) article_id).
  set (set := λ r : CurationRow, mkCuration _ _ _ _ _ _ _).
  pose proof (sql_update_rowcount where_ set (curation db)) as Hcount.
  pose proof (sql_update_length where_ set (curation db)) as Hlen.
  pose proof (λ row, sql_update_elem where_ set (curation db) row) as Helem.
  destruct (sql_update where_ set (curation db)) as [rows rowcount].
  cbn [fst snd articles curation] in *.
  split; [done|]. split; [done|]. split; [done|]. split; [done|]. split.
  - intros row Hrow Hne. apply Helem in Hrow as [r [Hr ->]].
    destruct (where_ r) eqn:Hw; [|done].
    destruct Hne. unfold where_ in Hw. by apply String.eqb_eq in Hw.
  - intros _ row Hrow Hid. apply Helem in Hrow as [r [Hr ->]].
    destruct (where_ r) eqn:Hw.
    + cbn. split; [done|]. intros Hns.
      apply String.eqb_neq in Hns. by rewrite Hns.
    + unfold where_ in Hw. apply String.eqb_neq in Hw. done.
Qed.

Lemma set_article_status_spec_witness :
  set_article_status offline_env "id-blog" "archived" None small_db fresh_world
  = (false, small_db, fresh_world).
Proof.
  apply (proj1 (set_article_status_spec offline_env "id-blog" "archived" None
                  small_db fresh_world)).
  reflexivity.
Defined.

Lemma find_same_id rows article_id row r :
  NoDup (map cur_article_id rows) →
  List.find (λ r, String.eqb (cur_article_id r) article_id) rows = Some row →
  r ∈ rows → cur_article_id r = article_id → r = row.
Proof.
  intros Hnd Hfind Hr Hid. apply find_some in Hfind as [Hrow Heq].
  apply String.eqb_eq in Heq. apply list_elem_of_In in Hrow.
  apply (NoDup_map_same cur_article_id rows); [done..|congruence].
Qed.

Lemma curation_ok_update (db : Database) (where_ : CurationRow → bool)
    (set : CurationRow → CurationRow) :
  curation_ok db →
  (∀ r, cur_article_id (set r) = cur_article_id r) →
  (∀ r, r ∈ curation db → where_ r = true → top_pick_ok r → top_pick_ok (set r)) →
  curation_ok (mkDb (articles db) (sql_update where_ set (curation db)).1).
Proof.
  intros [Hnd Hall] Hid Hset. split; cbn [curation].
  - by rewrite sql_update_ids.
  - by apply sql_update_Forall.
Qed.

(** X20: the curation functions keep the table [curation] in order:
    when every article has at most one row and every top pick is
    shortlisted, the same holds after [set_article_status],
    [update_article_notes], [set_top_pick], [archive_all_current],
    [archive_current_by_status] and [unarchive_article]. *)
Theorem curation_ok_preserved (E : Env) (db : Database) (w : World) :
  curation_ok db →
  (∀ article_id status notes,
     curation_ok (set_article_status E article_id status notes db w).1.2)
  ∧ (∀ article_id notes,
       curation_ok (update_article_notes E article_id notes db w).1.2)
  ∧ (∀ article_id top_pick, curation_ok (set_top_pick article_id top_pick db).2)
  ∧ curation_ok (archive_all_current E db w).1.2
  ∧ (∀ status, curation_ok (archive_current_by_status E status db w).1.2)
  ∧ (∀ article_id, curation_ok (unarchive_article article_id db).2).
Proof.
  intros Hok. split; [|split; [|split; [|split; [|split]]]].
  - intros article_id status notes. unfold set_article_status, datetime_now.
    destruct (valid_status status); cbn [negb]; [|exact Hok].
    match goal with
    | |- context [sql_update ?wh ?st ?rows] =>
        pose proof (curation_ok_update db wh st Hok) as Hupd;
        destruct (sql_update wh st rows) as [rows' rowcount]
    end.
    cbn [fst snd] in *. apply Hupd; [done|].
    intros r _ _ _. unfold top_pick_ok, is_top_pick. cbn.
    destruct (String.eqb_spec status "shortlisted") as [->|Hne]; cbn; [|done].
    done.
  - intros article_id notes. unfold update_article_notes, datetime_now.
    match goal with
    | |- context [sql_update ?wh ?st ?rows] =>
        pose proof (curation_ok_update db wh st Hok) as Hupd;
        destruct (sql_update wh st rows) as [rows' rowcount]
    end.
    cbn [fst snd] in *. apply Hupd; [done|]. by intros r _ _ Hr.
  - intros article_id top_pick. unfold set_top_pick.
    destruct (List.find _ (curation db)) as [row|] eqn:Hfind; [|exact Hok].
    destruct (top_pick && negb (has_status "shortlisted" row)) eqn:Hrefuse;
      [exact Hok|].
    match goal with
    | |- context [sql_update ?wh ?st ?rows] =>
        pose proof (curation_ok_update db wh st Hok) as Hupd;
        destruct (sql_update wh st rows) as [rows' rowcount]
    end.
    cbn [fst snd] in *. apply Hupd; [done|].
    intros r Hr Hw _. apply String.eqb_eq in Hw.
    assert (r = row) by (by apply (find_same_id (curation db) article_id);
                         [apply Hok|..]).
    subst r. unfold top_pick_ok, is_top_pick. cbn.
    destruct top_pick; cbn; [|done]. intros _.
    cbn in Hrefuse. apply negb_false_iff in Hrefuse.
    unfold has_status in Hrefuse.
    destruct (cur_status row) as [st|]; [|done].
    apply String.eqb_eq in Hrefuse. by subst st.
  - unfold archive_all_current, datetime_now.
    match goal with
    | |- context [sql_update ?wh ?st ?rows] =>
        pose proof (curation_ok_update db wh st Hok) as Hupd;
        destruct (sql_update wh st rows) as [rows' rowcount]
    end.
    cbn [fst snd] in *. apply Hupd; [done|]. by intros r _ _ Hr.
  - intros status. unfold archive_current_by_status, datetime_now.
    destruct (valid_status status); cbn [negb]; [|exact Hok].
    match goal with
    | |- context [sql_update ?wh ?st ?rows] =>
        pose proof (curation_ok_update db wh st Hok) as Hupd;
        destruct (sql_update wh st rows) as [rows' rowcount]
    end.
    cbn [fst snd] in *. apply Hupd; [done|]. by intros r _ _ Hr.
  - intros article_id. unfold unarchive_article.
    match goal with
    | |- context [sql_update ?wh ?st ?rows] =>
        pose proof (curation_ok_update db wh st Hok) as Hupd;
        destruct (sql_update wh st rows) as [rows' rowcount]
    end.
    cbn [fst snd] in *. apply Hupd; [done|]. by intros r _ _ Hr.
Qed.

Lemma small_db_curation_ok : curation_ok small_db.
Proof.
  split.
  - cbn. apply (bool_decide_unpack _). by vm_compute.
  - repeat constructor; intros H; discriminate.
Qed.

Lemma curation_ok_preserved_witness :
  curation_ok (set_top_pick "id-blog" true small_db).2.
Proof.
  apply (proj1 (proj2 (proj2 (curation_ok_preserved offline_env small_db
                                fresh_world small_db_curation_ok)))).
Defined.

(** X21: [archive_all_current] archives every current row and counts
    them; it leaves the articles, the statuses, the notes and the
    top-pick flags as they were, and a second call finds nothing to
    archive: it returns 0 and changes no row. *)
Theorem archive_all_current_spec (E : Env) (db : Database) (w : World) :
  let result := archive_all_current E db w in
  result.1.1 = length (List.filter is_current (curation db))
  ∧ Forall (λ r, is_current r = false) (curation result.1.2)
  ∧ articles result.1.2 = articles db
  ∧ map (λ r, (cur_article_id r, cur_status r, cur_user_notes r, cur_top_pick r))
        (curation result.1.2)
    = map (λ r, (cur_article_id r, cur_status r, cur_user_notes r, cur_top_pick r))
          (curation db)
  ∧ ∀ w2, (archive_all_current E result.1.2 w2).1 = (0%nat, result.1.2).
Proof.
  cbn zeta. unfold archive_all_current, datetime_now.
  set (t := clock E (events w)).
  destruct (sql_update is_current (archive_row t) (curation db))
    as [rows count] eqn:Hupd.
  unfold sql_update in Hupd. injection Hupd as Hrows Hcount.
  cbn [fst snd articles curation].
  assert (Hdone : Forall (λ r, is_current r = false) rows).
  { subst rows. apply Forall_forall. intros row Hrow.
    apply list_elem_of_In, in_map_iff in Hrow as [r [<- _]].
    by destruct (is_current r) eqn:Hr. }
  split; [done|]. split; [done|]. split; [done|]. split.
  - subst rows. rewrite map_map. apply map_ext. intros r.
    by destruct (is_current r).
  - intros w2. cbn [curation articles].
    by rewrite (sql_update_nothing _ _ _ Hdone).
Qed.

(** X22: archiving everything and then unarchiving an article gives
    back the row the article had, when that row was current with an
    empty archive date; the rows of the other articles stay archived as
    they were. *)
Theorem archive_then_unarchive_restores
    (E : Env) (db : Database) (w : World) (article_id : string) (row : CurationRow) :
  row ∈ curation db →
  cur_article_id row = article_id →
  cur_archived row = Some 0 →
  cur_archived_at row = None →
  let archived := (archive_all_current E db w).1.2 in
  (unarchive_article article_id archived).1 = true
  ∧ row ∈ curation (unarchive_article article_id archived).2
  ∧ ∀ r, r ∈ curation archived → cur_article_id r ≠ article_id →
         r ∈ curation (unarchive_article article_id archived).2.
Proof.
  intros Hrow Hid Harch Hat. cbn zeta.
  unfold archive_all_current, datetime_now. cbn [fst snd].
  set (t := clock E (events w)).
  assert (Hin : archive_row t row ∈ (sql_update is_current (archive_row t)
                                       (curation db)).1).
  { apply sql_update_elem. exists row. split; [done|].
    unfold is_current. by rewrite Harch. }
  destruct (sql_update is_current (archive_row t) (curation db))
    as [rows count]. cbn [fst snd] in *.
  unfold unarchive_article. cbn [curation articles].
  set (where_ := λ r : CurationRow, String.eqb (cur_article_id r) article_id).
  set (set := λ r : CurationRow, mkCuration _ _ _ _ _ _ _).
  pose proof (sql_update_rowcount where_ set rows) as Hcount.
  pose proof (λ r, sql_update_elem where_ set rows r) as Helem.
  destruct (sql_update where_ set rows) as [rows' rowcount].
  cbn [fst snd curation] in *. split; [|split].
  - rewrite Hcount. apply existsb_exists. exists (archive_row t row).
    split; [by apply list_elem_of_In|].
    unfold where_. cbn. by apply String.eqb_eq.
  - apply Helem. exists (archive_row t row). split; [done|].
    unfold where_. cbn. rewrite (proj2 (String.eqb_eq _ _) Hid).
    destruct row. cbn in *. by subst.
  - intros r Hr Hne. apply Helem. exists r. split; [done|].
    unfold where_. by rewrite (proj2 (String.eqb_neq _ _) Hne).
Qed.

Lemma archive_then_unarchive_restores_witness :
  pending_row "id-blog"
  ∈ curation (unarchive_article "id-blog"
                (archive_all_current offline_env small_db fresh_world).1.2).2.
Proof.
  apply (proj1 (proj2 (archive_then_unarchive_restores offline_env small_db
    fresh_world "id-blog" (pending_row "id-blog")
    (list_elem_of_here _ _) eq_refl eq_refl eq_refl))).
Defined.

(** ** db.py: upsert *)

Lemma existsb_id_elem {Row} (key : Row → string) (id : string) (rows : list Row) :
  existsb (λ r, String.eqb (key r) id) rows = true ↔ id ∈ map key rows.
Proof.
  rewrite existsb_exists, list_elem_of_fmap. split.
  - intros [r [Hr Heq]]. apply String.eqb_eq in Heq.
    exists r. by rewrite list_elem_of_In.
  - intros [r [-> Hr]]. exists r. rewrite <- list_elem_of_In.
    split; [done|]. apply String.eqb_refl.
Qed.

Lemma grows_refl db : grows db db.
Proof.
  split; [exists []; by rewrite app_nil_r|].
  split; [|done]. intros r Hr. exists r. by repeat split.
Qed.

Lemma grows_trans db1 db2 db3 : grows db1 db2 → grows db2 db3 → grows db1 db3.
Proof.
  intros [[n1 [Hc1 Hf1]] [Ha1 [Hu1 [Ho1 Hk1]]]]
         [[n2 [Hc2 Hf2]] [Ha2 [Hu2 [Ho2 Hk2]]]].
  split; [|split; [|by auto]].
  - exists (n1 ++ n2). rewrite Hc2, Hc1, <- app_assoc. split; [done|].
    by apply Forall_app.
  - intros r Hr. destruct (Ha1 r Hr) as [r1 [Hr1 [? [? [? [? ?]]]]]].
    destruct (Ha2 r1 Hr1) as [r2 [Hr2 [? [? [? [? ?]]]]]].
    exists r2. split; [done|]. repeat split; congruence.
Qed.

Section UpsertProofs.

Variable E : Env.
Variable generate_article_id : string → string.

Lemma upsert_row_spec new rows rows' :
  Db.upsert_row new rows = Some rows' →
  art_id new ∈ map art_id rows'
  ∧ (∀ r, r ∈ rows → ∃ r', r' ∈ rows' ∧ same_article r r'
                          ∧ (art_id r ≠ art_id new → r' = r))
  ∧ (∀ id, id ∈ map art_id rows → id ∈ map art_id rows')
  ∧ (NoDup (map art_id rows) → NoDup (map art_id rows')).
Proof.
  unfold Db.upsert_row.
  destruct (existsb (λ r, String.eqb (art_id r) (art_id new)) rows) eqn:Hex.
  - intros [= <-].
    assert (Hids : map art_id
              (map (λ r, if String.eqb (art_id r) (art_id new)
                         then mkArticle (art_id r) (art_url r)
                                (art_title new) (art_summary new)
                                (art_source r) (art_published r) (art_topic new)
                                (art_fetched_at new) (art_week r)
                         else r) rows) = map art_id rows).
    { rewrite map_map. apply map_ext. intros r.
      by destruct (String.eqb (art_id r) (art_id new)). }
    rewrite Hids. split; [by apply existsb_id_elem|]. split; [|by split].
    intros r Hr.
    eexists. split.
    { apply list_elem_of_In, in_map_iff. exists r.
      split; [reflexivity|by apply list_elem_of_In]. }
    destruct (String.eqb_spec (art_id r) (art_id new)) as [Heq|Hne].
    + by repeat split.
    + by repeat split.
  - destruct (match art_url new with
              | Some url => existsb (λ r, bool_decide (art_url r = Some url)) rows
              | None => false
              end); [done|].
    intros [= <-]. rewrite map_app. cbn [map].
    split; [apply elem_of_app; right; apply list_elem_of_here|].
    split; [|split].
    + intros r Hr. exists r. split; [apply elem_of_app; by left|].
      by repeat split.
    + intros id Hid. apply elem_of_app. by left.
    + intros Hnd. apply NoDup_app. split; [done|]. split.
      * intros id Hid Hin. apply list_elem_of_singleton in Hin as ->.
        apply existsb_id_elem in Hid. congruence.
      * apply NoDup_singleton.
Qed.

Lemma upsert_article_row_spec article_id item fetched_at week rows rows' :
  Db.upsert_article_row article_id item fetched_at week rows = Some rows' →
  article_id ∈ map art_id rows'
  ∧ (∀ r, r ∈ rows → ∃ r', r' ∈ rows' ∧ same_article r r'
                          ∧ (art_id r ≠ article_id → r' = r))
  ∧ (∀ id, id ∈ map art_id rows → id ∈ map art_id rows')
  ∧ (NoDup (map art_id rows) → NoDup (map art_id rows')).
Proof. unfold Db.upsert_article_row. intros Hrun. exact (upsert_row_spec _ _ _ Hrun). Qed.

Lemma insert_or_ignore_curation_spec article_id fetched_at rows :
  let rows' := Db.insert_or_ignore_curation article_id fetched_at rows in
  article_id ∈ map cur_article_id rows'
  ∧ (∃ new, rows' = rows ++ new ∧ Forall fresh_pending new
            ∧ Forall (λ r, cur_article_id r = article_id) new)
  ∧ (NoDup (map cur_article_id rows) → NoDup (map cur_article_id rows')).
Proof.
  cbn zeta. unfold Db.insert_or_ignore_curation.
  destruct (existsb (λ r, String.eqb (cur_article_id r) article_id) rows) eqn:Hex.
  - split; [by apply existsb_id_elem|]. split; [|done].
    exists []. rewrite app_nil_r. by repeat split.
  - split; [|split].
    + rewrite map_app. apply elem_of_app. right. apply list_elem_of_here.
    + eexists. split; [reflexivity|]. split; by repeat constructor.
    + intros Hnd. rewrite map_app. apply NoDup_app. split; [done|]. split.
      * intros id Hid Hin. cbn in Hin. apply list_elem_of_singleton in Hin as ->.
        apply existsb_id_elem in Hid. congruence.
      * apply NoDup_singleton.
Qed.

(** One turn of the loop. *)
Lemma upsert_step_grows article_id item fetched_at week db rows :
  Db.upsert_article_row article_id item fetched_at week (articles db) = Some rows →
  grows db (mkDb rows
              (Db.insert_or_ignore_curation article_id fetched_at (curation db))).
Proof.
  intros Hrows.
  destruct (upsert_article_row_spec _ _ _ _ _ _ Hrows)
    as [Hin [Hsame [Hincl Hnd]]].
  destruct (insert_or_ignore_curation_spec article_id fetched_at (curation db))
    as [Hcin [[new [Hnew [Hfresh Hnewid]]] Hcnd]].
  split; [by exists new|]. split; [|split; [|split]].
  - intros r Hr. destruct (Hsame r Hr) as [r' [Hr' [Hs _]]]. by exists r'.
  - exact Hnd.
  - intros [Hk Htp]. split; cbn [curation]; [by apply Hcnd|].
    rewrite Hnew. apply Forall_app. split; [done|].
    eapply Forall_impl; [exact Hfresh|].
    intros r [_ [_ [_ [_ Htop]]]]. unfold top_pick_ok, is_top_pick.
    by rewrite Htop.
  - intros Hfk r Hr. cbn [curation articles] in *. rewrite Hnew in Hr.
    apply elem_of_app in Hr as [Hr|Hr]; [by apply Hincl, Hfk|].
    rewrite Forall_forall in Hnewid. by rewrite (Hnewid r Hr).
Qed.

Lemma grows_keeps_ids db db' :
  grows db db' →
  (∀ id, id ∈ map art_id (articles db) → id ∈ map art_id (articles db'))
  ∧ (∀ id, id ∈ map cur_article_id (curation db)
           → id ∈ map cur_article_id (curation db')).
Proof.
  intros [[new [Hc _]] [Ha _]]. split.
  - intros id Hid. apply list_elem_of_fmap in Hid as [r [-> Hr]].
    destruct (Ha r Hr) as [r' [Hr' [Heq _]]].
    apply list_elem_of_fmap. by exists r'.
  - intros id Hid. rewrite Hc, map_app. apply elem_of_app. by left.
Qed.

Lemma upsert_loop_spec items fetched_at week db count out db' :
  Db.upsert_loop generate_article_id items fetched_at week db count
  = Some (out, db') →
  out = (count + length items)%nat
  ∧ grows db db'
  ∧ ∀ item, item ∈ items →
      generate_article_id (item_url item) ∈ map art_id (articles db')
      ∧ generate_article_id (item_url item) ∈ map cur_article_id (curation db').
Proof.
  revert db count.
  induction items as [|item items IH]; intros db count; cbn [Db.upsert_loop].
  - intros [= <- <-]. split; [cbn; lia|]. split; [apply grows_refl|].
    intros item Hitem. by apply elem_of_nil in Hitem.
  - destruct (Db.upsert_article_row (generate_article_id (item_url item)) item
                fetched_at week (articles db)) as [rows|] eqn:Hrows; [|done].
    cbn [mbind option_bind]. intros Hrun.
    destruct (IH _ _ Hrun) as [-> [Hgrow Hpresent]].
    pose proof (upsert_step_grows _ _ _ _ _ _ Hrows) as Hstep.
    split; [cbn [length]; lia|]. split; [by eapply grows_trans|].
    intros it Hit. apply elem_of_cons in Hit as [->|Hit]; [|by apply Hpresent].
    destruct (grows_keeps_ids _ _ Hgrow) as [Ha Hc].
    destruct (upsert_article_row_spec _ _ _ _ _ _ Hrows) as [Hin _].
    destruct (insert_or_ignore_curation_spec
                (generate_article_id (item_url item)) fetched_at (curation db))
      as [Hcin _].
    split; [by apply Ha|by apply Hc].
Qed.

Lemma upsert_articles_loop items week db w n db' w' :
  Db.upsert_articles E generate_article_id items week db w = Some (n, db', w') →
  ∃ fetched_at wk,
    Db.upsert_loop generate_article_id items fetched_at wk db 0 = Some (n, db').
Proof.
  unfold Db.upsert_articles.
  destruct (match week with
            | Some week0 => (week0, w)
            | None => get_current_week E w
            end) as [wk w1].
  destruct (datetime_now E w1) as [fetched_at w2].
  destruct (Db.upsert_loop generate_article_id items fetched_at wk db 0)
    as [[count db1]|] eqn:Hloop; [|done].
  intros [= <- <- <-]. by exists fetched_at, wk.
Qed.

End UpsertProofs.

(** X23: when [upsert_articles] returns, its count is the number of
    items it was given (an updated article counts like a new one),
    every item has an article row and a curation row under the id of
    its URL, and the curation rows that existed are untouched: rows are
    only added, each pending, not archived and not a top pick. On the
    world it agrees with the call as [run_sync] sees it. *)
Theorem upsert_keeps_curation
    (E : Env) (generate_article_id : string → string) (items : list FeedItem)
    (week : string) (db db' : Database) (w w' : World) (n : nat) :
  Db.upsert_articles E generate_article_id items (Some week) db w
  = Some (n, db', w') →
  n = length items
  ∧ upsert_articles E items week w = (Z.of_nat n, w')
  ∧ (∃ new, curation db' = curation db ++ new ∧ Forall fresh_pending new)
  ∧ ∀ item, item ∈ items →
      generate_article_id (item_url item) ∈ map art_id (articles db')
      ∧ generate_article_id (item_url item) ∈ map cur_article_id (curation db').
Proof.
  intros Hrun.
  destruct (upsert_articles_loop E _ _ _ _ _ _ _ _ Hrun) as [t [wk Hloop]].
  destruct (upsert_loop_spec _ _ _ _ _ _ _ _ Hloop) as [Hn [[Hcur _] Hpresent]].
  cbn in Hn. subst n. split; [done|]. split; [|by split].
  revert Hrun. unfold Db.upsert_articles, upsert_articles.
  destruct (datetime_now E w) as [fetched_at w2].
  destruct (Db.upsert_loop generate_article_id items fetched_at week db 0)
    as [[count db1]|] eqn:Hloop2; [|done].
  intros [= -> _ <-]. done.
Qed.

Lemma upsert_keeps_curation_witness :
  ∃ new, curation
           (mkDb (articles small_db
                  ++ [mkArticle "id:https://a.example/x" (Some "https://a.example/x")
                        (Some "X") (Some "") (Some "a.example") None (Some "")
                        (Some 63872064000000000) (Some "2025-W02")])
                 (curation small_db
                  ++ [mkCuration "id:https://a.example/x" (Some "pending") None
                        (Some 63872064000000000) (Some 0) None (Some 0)]))
         = curation small_db ++ new
         ∧ Forall fresh_pending new.
Proof.
  apply (upsert_keeps_curation offline_env (λ url, "id:" +:+ url) [article_x]
           "2025-W02" small_db _ fresh_world _ 1%nat eq_refl).
Defined.

(** X24: [upsert_articles] keeps the store in order: unique article
    ids stay unique, a curation table with one row per article and only
    shortlisted top picks stays so, and curation rows keep having their
    articles. *)
Theorem upsert_preserves_store_invariants
    (E : Env) (generate_article_id : string → string) (items : list FeedItem)
    (week : option string) (db db' : Database) (w w' : World) (n : nat) :
  Db.upsert_articles E generate_article_id items week db w = Some (n, db', w') →
  (article_ids_unique db → article_ids_unique db')
  ∧ (curation_ok db → curation_ok db')
  ∧ (curation_has_articles db → curation_has_articles db').
Proof.
  intros Hrun.
  destruct (upsert_articles_loop E _ _ _ _ _ _ _ _ Hrun) as [t [wk Hloop]].
  destruct (upsert_loop_spec _ _ _ _ _ _ _ _ Hloop) as [_ [Hgrow _]].
  by destruct Hgrow as [_ [_ Hinv]].
Qed.

Lemma upsert_preserves_store_invariants_witness :
  curation_ok
    (mkDb (articles small_db
           ++ [mkArticle "id:https://a.example/x" (Some "https://a.example/x")
                 (Some "X") (Some "") (Some "a.example") None (Some "")
                 (Some 63872064000000000) (Some "2025-W02")])
          (curation small_db
           ++ [mkCuration "id:https://a.example/x" (Some "pending") None
                 (Some 63872064000000000) (Some 0) None (Some 0)])).
Proof.
  apply (proj1 (proj2 (upsert_preserves_store_invariants offline_env
           (λ url, "id:" +:+ url) [article_x] (Some "2025-W02") small_db _
           fresh_world _ 1%nat eq_refl))).
  apply small_db_curation_ok.
Defined.

(** X25: [upsert_articles] never overwrites the URL, the source, the
    publication date or the week of a stored article: every article
    that was stored is still stored under its id with these columns as
    they were. *)
Theorem upsert_keeps_article_identity
    (E : Env) (generate_article_id : string → string) (items : list FeedItem)
    (week : option string) (db db' : Database) (w w' : World) (n : nat)
    (r : ArticleRow) :
  Db.upsert_articles E generate_article_id items week db w = Some (n, db', w') →
  r ∈ articles db →
  ∃ r', r' ∈ articles db' ∧ same_article r r'.
Proof.
  intros Hrun Hr.
  destruct (upsert_articles_loop E _ _ _ _ _ _ _ _ Hrun) as [t [wk Hloop]].
  destruct (upsert_loop_spec _ _ _ _ _ _ _ _ Hloop) as [_ [Hgrow _]].
  destruct Hgrow as [_ [Hsame _]]. by apply Hsame.
Qed.

Lemma upsert_keeps_article_identity_witness :
  ∃ r', r' ∈ articles small_db ++
              [mkArticle "id:https://a.example/x" (Some "https://a.example/x")
                 (Some "X") (Some "") (Some "a.example") None (Some "")
                 (Some 63872064000000000) (Some "2025-W02")]
        ∧ same_article blog_article r'.
Proof.
  apply (upsert_keeps_article_identity offline_env (λ url, "id:" +:+ url)
           [article_x] (Some "2025-W02") small_db
           (mkDb (articles small_db
                  ++ [mkArticle "id:https://a.example/x" (Some "https://a.example/x")
                        (Some "X") (Some "") (Some "a.example") None (Some "")
                        (Some 63872064000000000) (Some "2025-W02")])
                 (curation small_db
                  ++ [mkCuration "id:https://a.example/x" (Some "pending") None
                        (Some 63872064000000000) (Some 0) None (Some 0)]))
           fresh_world _ 1%nat blog_article eq_refl).
  apply list_elem_of_here.
Defined.

(** ** The cursor from one cron run to the next *)

Lemma set_last_cron_run_clock (E : Env) (w : World) :
  events (set_last_cron_run E w)
  = (events w ++ [EvNow]) ++ [EvCursorWrite (clock E (events w))]
  ∧ cron_state (set_last_cron_run E w) = Some (IsoText (clock E (events w))).
Proof. by unfold set_last_cron_run, datetime_now. Qed.

(** X26: when a cron run ends by writing the cursor, the value
    written is the time the clock gave just before, at the end of the
    run; it is what the cursor row then holds, and it is the cutoff of
    any later cron run that finds the row as this run left it. *)
Theorem cron_cursor_handover
    (E : Env) (skip_discovery : bool) (limit_domains : Z) (verbose : bool)
    (w w' : World) (n : Z) (evs : list Event) (t : datetime) :
  run_sync E true skip_discovery limit_domains verbose w = (Returned n, w') →
  events w' = evs ++ [EvCursorWrite t] →
  cron_state w' = Some (IsoText t)
  ∧ (∃ evs0, evs = evs0 ++ [EvNow] ∧ t = clock E evs0)
  ∧ ∀ E' w2, cron_state w2 = cron_state w' → fst (compute_cutoff E' true w2) = t.
Proof.
  intros Hrun Hlast.
  assert (Hend : ∃ w7, events w' = (events w7 ++ [EvNow])
                                   ++ [EvCursorWrite (clock E (events w7))]
                       ∧ cron_state w' = Some (IsoText (clock E (events w7)))).
  { revert Hrun. unfold run_sync.
    destruct (get_current_week E w) as [week w1].
    destruct (compute_cutoff E true w1) as [cutoff w2].
    destruct (load_crawl_results w2) as [[crawl_data|] w3]; [|discriminate].
    destruct (extract_domains_from_crawl E crawl_data) as [domains|];
      [|discriminate].
    destruct (load_feeds_cache w3) as [cache0 w4].
    destruct (discover_all E skip_discovery _ cache0 [] w4)
      as [[cache feed_urls] w5].
    destruct (is_nil feed_urls).
    { intros [= <- <-]. rewrite Hlast in *.
      unfold save_feeds_cache in Hlast. cbn [events log] in Hlast.
      apply app_inj_tail in Hlast as [_ Hlast]. discriminate. }
    destruct (parse_all E cutoff feed_urls [] _) as [all_items w6].
    destruct (is_nil (deduplicate all_items)).
    - intros [= <- <-]. eexists. apply set_last_cron_run_clock.
    - destruct (upsert_articles E _ week w6) as [count w7].
      intros [= <- <-]. eexists. apply set_last_cron_run_clock. }
  destruct Hend as [w7 [Hev Hstate]]. rewrite Hlast in Hev.
  apply app_inj_tail in Hev as [-> [= ->]].
  split; [done|]. split; [by eexists|].
  intros E' w2 Hw2. unfold compute_cutoff, get_last_cron_run.
  by rewrite Hw2, Hstate.
Qed.

Lemma cron_cursor_handover_witness :
  cron_state (snd (run_sync blog_env true false 0 false
                     (mkWorld [] None
                        (Some (mkCrawl (Some [mkPost (Some "https://blog.example/p")
                                                     None])))
                        None)))
  = Some (IsoText 63872064000000011).
Proof.
  set (w := mkWorld [] None
              (Some (mkCrawl (Some [mkPost (Some "https://blog.example/p") None])))
              None).
  assert (Hout : fst (run_sync blog_env true false 0 false w) = Returned 3)
    by (vm_compute; reflexivity).
  assert (Hev : ∃ evs, events (snd (run_sync blog_env true false 0 false w))
                       = evs ++ [EvCursorWrite 63872064000000011]).
  { vm_compute.
    eexists (_ :: _ :: _ :: _ :: _ :: _ :: _ :: _ :: _ :: _ :: _ :: _ :: []).
    reflexivity. }
  destruct (run_sync blog_env true false 0 false w) as [outcome w'] eqn:Hrun.
  cbn [fst snd] in *. subst outcome. destruct Hev as [evs Hev].
  exact (proj1 (cron_cursor_handover blog_env false 0 false w w' 3 evs
                  63872064000000011 Hrun Hev)).
Defined.

(** ** db.py: manual articles *)

Lemma upsert_curation_spec article_id status notes curated_at rows :
  let rows' := Db.upsert_curation article_id status notes curated_at rows in
  article_id ∈ map cur_article_id rows'
  ∧ (∀ r, r ∈ rows' → cur_article_id r = article_id →
          cur_status r = Some status ∧ cur_user_notes r = Some notes)
  ∧ (∀ r, r ∈ rows → cur_article_id r ≠ article_id → r ∈ rows')
  ∧ (∀ r, r ∈ rows' → cur_article_id r ≠ article_id → r ∈ rows)
  ∧ (NoDup (map cur_article_id rows) → NoDup (map cur_article_id rows'))
  ∧ (Forall top_pick_ok rows →
     status = "shortlisted"
     ∨ (∀ r, r ∈ rows → cur_article_id r = article_id → is_top_pick r = false) →
     Forall top_pick_ok rows').
Proof.
  cbn zeta. unfold Db.upsert_curation.
  destruct (existsb (λ r, String.eqb (cur_article_id r) article_id) rows) eqn:Hex.
  - set (set := λ r : CurationRow,
                  mkCuration (cur_article_id r) (Some status) (Some notes)
                    (Some curated_at) (cur_archived r) (cur_archived_at r)
                    (cur_top_pick r)).
    set (where_ := λ r : CurationRow, String.eqb (cur_article_id r) article_id).
    change (map (λ r, if String.eqb (cur_article_id r) article_id
                      then mkCuration (cur_article_id r) (Some status) (Some notes)
                             (Some curated_at) (cur_archived r)
                             (cur_archived_at r) (cur_top_pick r)
                      else r) rows)
      with (sql_update where_ set rows).1.
    assert (Hids : map cur_article_id (sql_update where_ set rows).1
                   = map cur_article_id rows) by (by apply sql_update_ids).
    rewrite Hids. split; [by apply existsb_id_elem|].
    split; [|split; [|split; [|split; [done|]]]].
    + intros r Hr Hid. apply sql_update_elem in Hr as [r0 [Hr0 ->]].
      destruct (where_ r0) eqn:Hw; [done|].
      unfold where_ in Hw. apply String.eqb_neq in Hw. done.
    + intros r Hr Hne. apply sql_update_elem. exists r. split; [done|].
      unfold where_. by rewrite (proj2 (String.eqb_neq _ _) Hne).
    + intros r Hr Hne. apply sql_update_elem in Hr as [r0 [Hr0 ->]].
      destruct (where_ r0) eqn:Hw; [|done].
      unfold where_ in Hw. apply String.eqb_eq in Hw. done.
    + intros Hall Hcase. apply sql_update_Forall; [done|].
      intros r Hr Hw Hok. apply String.eqb_eq in Hw.
      unfold top_pick_ok, is_top_pick. cbn.
      destruct Hcase as [->|Hno]; [done|].
      specialize (Hno r Hr Hw). unfold is_top_pick in Hno. by rewrite Hno.
  - split; [rewrite map_app; apply elem_of_app; right; apply list_elem_of_here|].
    assert (Hfresh : ∀ r, r ∈ rows → cur_article_id r ≠ article_id).
    { intros r Hr Heq.
      assert (Hin : article_id ∈ map cur_article_id rows)
        by (apply list_elem_of_fmap; by exists r).
      apply existsb_id_elem in Hin. congruence. }
    split; [|split; [|split; [|split]]].
    + intros r Hr Hid. apply elem_of_app in Hr as [Hr|Hr].
      * by destruct (Hfresh r Hr).
      * by apply list_elem_of_singleton in Hr as ->.
    + intros r Hr _. apply elem_of_app. by left.
    + intros r Hr Hne. apply elem_of_app in Hr as [Hr|Hr]; [done|].
      apply list_elem_of_singleton in Hr as ->. done.
    + intros Hnd. rewrite map_app. apply NoDup_app. split; [done|]. split.
      * intros id Hid Hin. cbn in Hin. apply list_elem_of_singleton in Hin as ->.
        apply existsb_id_elem in Hid. congruence.
      * apply NoDup_singleton.
    + intros Hall _. apply Forall_app. split; [done|].
      constructor; [|constructor]. intros Htop. discriminate.
Qed.

(** X27: when [add_manual_article] returns, it returns the id of the
    URL; the article is stored under that id and has a curation row
    with the status "shortlisted" (or "pending" without
    [auto_shortlist]) and the notes given. The curation rows of the
    other articles and the identity of the stored articles are
    untouched, and the keys stay in order; a top pick stays a
    shortlisted article provided the article is shortlisted by the call
    or was not a top pick. *)
Theorem add_manual_article_spec
    (E : Env) (generate_article_id : string → string)
    (url title summary topic notes : string) (week : option string)
    (auto_shortlist : bool) (db db' : Database) (w w' : World) (id : string) :
  Db.add_manual_article E generate_article_id url title summary topic notes
    week auto_shortlist db w = Some (id, db', w') →
  id = generate_article_id url
  ∧ id ∈ map art_id (articles db')
  ∧ id ∈ map cur_article_id (curation db')
  ∧ (∀ r, r ∈ curation db' → cur_article_id r = id →
          cur_status r = Some (if auto_shortlist then "shortlisted" else "pending")
          ∧ cur_user_notes r = Some notes)
  ∧ (∀ r, r ∈ curation db → cur_article_id r ≠ id → r ∈ curation db')
  ∧ (∀ r, r ∈ articles db → ∃ r', r' ∈ articles db' ∧ same_article r r')
  ∧ (article_ids_unique db → article_ids_unique db')
  ∧ (curation_has_articles db → curation_has_articles db')
  ∧ (curation_ok db →
     auto_shortlist = true
     ∨ (∀ r, r ∈ curation db → cur_article_id r = id → is_top_pick r = false) →
     curation_ok db').
Proof.
  unfold Db.add_manual_article.
  destruct (match week with
            | Some week0 => (week0, w)
            | None => get_current_week E w
            end) as [wk w1].
  destruct (urlparse_netloc E url) as [source|]; [|done].
  cbn [mbind option_bind].
  destruct (datetime_now E w1) as [fetched_at w2].
  destruct (datetime_now E w2) as [published w3].
  set (new := mkArticle _ _ _ _ _ _ _ _ _).
  destruct (Db.upsert_row new (articles db)) as [rows|] eqn:Hrows; [|done].
  cbn [mbind option_bind]. intros [= <- <- <-].
  destruct (upsert_row_spec _ _ _ Hrows) as [Hin [Hsame [Hincl Hnd]]].
  set (status := if auto_shortlist then "shortlisted" else "pending").
  destruct (upsert_curation_spec (generate_article_id url) status notes
              fetched_at (curation db))
    as [Hcin [Hrow [Hkeep [Hback [Hcnd Htop]]]]].
  cbn [articles curation].
  split; [done|]. split; [exact Hin|]. split; [exact Hcin|].
  split; [exact Hrow|]. split; [exact Hkeep|]. split.
  { intros r Hr. destruct (Hsame r Hr) as [r' [Hr' [Hs _]]]. by exists r'. }
  split; [exact Hnd|]. split.
  { intros Hfk r Hr.
    destruct (decide (cur_article_id r = generate_article_id url)) as [->|Hne].
    - exact Hin.
    - apply Hincl, Hfk. by apply Hback. }
  intros [Hk Hall] Hcase. split; cbn [curation]; [by apply Hcnd|].
  apply Htop; [done|]. destruct Hcase as [->|Hno]; [by left|by right].
Qed.

Lemma add_manual_article_spec_witness :
  "id:https://blog.example/new2" ∈
    map art_id (articles small_db
                ++ [mkArticle "id:https://blog.example/new2"
                      (Some "https://blog.example/new2") (Some "T") (Some "S")
                      (Some "blog.example") (Some 63872064000000001) (Some "")
                      (Some 63872064000000000) (Some "2025-W02")]).
Proof.
  assert (Hrun :
    Db.add_manual_article offline_env (λ url, "id:" +:+ url)
      "https://blog.example/new2" "T" "S" "" "note" (Some "2025-W02") true
      small_db fresh_world
    = Some ("id:https://blog.example/new2",
            mkDb (articles small_db
                  ++ [mkArticle "id:https://blog.example/new2"
                        (Some "https://blog.example/new2") (Some "T") (Some "S")
                        (Some "blog.example") (Some 63872064000000001) (Some "")
                        (Some 63872064000000000) (Some "2025-W02")])
                 (curation small_db
                  ++ [mkCuration "id:https://blog.example/new2"
                        (Some "shortlisted") (Some "note")
                        (Some 63872064000000000) (Some 0) None (Some 0)]),
            log EvNow (log EvNow fresh_world)))
    by (vm_compute; reflexivity).
  exact (proj1 (proj2 (add_manual_article_spec _ _ _ _ _ _ _ _ _ _ _ _ _ _ Hrun))).
Defined.
